(** * pbc_classification: the data pipeline of [src/dataset.py]

    A shallow embedding of [FilteredDataset], [TransformSubset] and
    [create_dataloaders], together with the library calls they rest on
    (Python list indexing, [numpy] helpers, scikit-learn's stratified
    [train_test_split], torch's [Subset] and [WeightedRandomSampler]).

    Conventions.
    - A Python call that may raise returns [result A = exn + A].
    - Python [int] indices are [Z] (negative indices count from the end);
      lengths, positions and labels that are never negative are [nat].
    - The sample weights are Python [float] values, IEEE 754 binary64 as
      the Standard Library's [SpecFloat] specifies it: [1.0 / count]
      rounds to the nearest, ties to even. What a float is worth is its
      exact rational [float_value].
    - The fractions inside scikit-learn's [_validate_shuffle_split] and
      [_approximate_mode] are exact rationals [Q].
    - [print] writes only to standard output and is left out. *)

From Stdlib Require Import QArith Qround Qabs Qpower Lqa SpecFloat.
From stdpp Require Import gmap strings list sorting.

Open Scope nat_scope.

(** ** Exceptions *)

(** Why a [ValueError] was raised by scikit-learn or torch. *)
Inductive value_error :=
  | TestSizeOutOfRange     (* test_size must lie strictly between 0 and 1 *)
  | TrainSetEmpty          (* "the resulting train set will be empty" *)
  | LeastPopulatedClass    (* "The least populated class in y has only 1 member" *)
  | TrainSizeBelowClasses  (* "train_size should be >= the number of classes" *)
  | TestSizeBelowClasses   (* "test_size should be >= the number of classes" *)
  | InconsistentLength     (* "inconsistent numbers of samples" *)
  | NumSamplesNotPositive  (* WeightedRandomSampler: num_samples <= 0 *)
  | BatchSizeNotPositive   (* DataLoader: batch_size <= 0 *)
  | NumWorkersNegative.    (* DataLoader: num_workers < 0 *)

Inductive exn :=
  | FileNotFoundError (msg : string)
  | ValueError (why : value_error)
  | IndexError
  | KeyError.

Definition result (A : Type) : Type := exn + A.

Definition raise {A} (e : exn) : result A := inl e.
Definition ret {A} (a : A) : result A := inr a.
Definition bind {A B} (m : result A) (k : A → result B) : result B :=
  match m with
  | inl e => inl e
  | inr a => k a
  end.

Declare Scope py_scope.
Delimit Scope py_scope with py.
Notation "'let*' x := m 'in' k" := (bind m (λ x, k))
  (at level 10, x name, m at level 100, k at level 200) : py_scope.
Notation "'let*' ' p := m 'in' k" := (bind m (λ x, match x with p => k end))
  (at level 10, p pattern, m at level 100, k at level 200) : py_scope.
Open Scope py_scope.

(** ** Python and numpy primitives *)

(** [l[i]] for a list or a one-dimensional array: a negative [i] counts from
    the end, anything outside [-len, len) raises [IndexError]. *)
Definition py_getitem {A} (l : list A) (i : Z) : result A :=
  let n := Z.of_nat (length l) in
  let j := if (i <? 0)%Z then (i + n)%Z else i in
  if ((j <? 0) || (n <=? j))%Z then raise IndexError
  else match l !! Z.to_nat j with
       | Some x => ret x
       | None => raise IndexError
       end.

(** [d[k]] for a dict. *)
Definition dict_getitem `{Countable K} {V} (d : gmap K V) (k : K) : result V :=
  match d !! k with
  | Some v => ret v
  | None => raise KeyError
  end.

(** [enumerate(l)] *)
Definition enumerate {A} (l : list A) : list (nat * A) :=
  imap (λ i x, (i, x)) l.

(** [a[idx]] for arrays [a] and [idx] (integer array indexing with
    non-negative positions): raises [IndexError] when a position is out of
    bounds. *)
Definition np_index {A} (a : list A) (idx : list nat) : result (list A) :=
  match mapM (λ i, a !! i) idx with
  | Some l => ret l
  | None => raise IndexError
  end.

(** [np.where(p(a))[0]]: the positions of [a] whose entry satisfies [p],
    in increasing order. *)
Definition np_where {A} (p : A → bool) (a : list A) : list nat :=
  omap (λ '(i, x), if p x then Some i else None) (enumerate a).

(** [np.unique(a)] for an array of labels: the distinct values, ascending. *)
Fixpoint insert_unique (x : nat) (l : list nat) : list nat :=
  match l with
  | [] => [x]
  | y :: l' =>
      if x <? y then x :: l
      else if x =? y then l
      else y :: insert_unique x l'
  end.

Definition np_unique (a : list nat) : list nat :=
  foldr insert_unique [] a.

(** Position of [x] in [l] (the inverse returned by
    [np.unique(..., return_inverse=True)]); [length l] when absent. *)
Fixpoint index_of (x : nat) (l : list nat) : nat :=
  match l with
  | [] => 0
  | y :: l' => if x =? y then 0 else S (index_of x l')
  end.

(** [return_counts=True]: how often each distinct value occurs. *)
Definition count_of (x : nat) (a : list nat) : nat :=
  length (filter (λ y, y = x) a).

(** ** Python floats *)

(** binary64: 53 bits of mantissa, exponents below 1024. A finite float
    [S754_finite s m e] is [(-1)^s * m * 2^e]. *)
Definition prec : Z := 53.
Definition emax : Z := 1024.
Definition float : Type := spec_float.

(** [1.0] *)
Definition float_one : float := S754_finite false 4503599627370496 (-52).

(** [float(n)] for an integer [n >= 0], as numpy and Python convert a
    count in a division by a float. *)
Definition float_of_nat (n : nat) : float :=
  binary_normalize prec emax (Z.of_nat n) 0 false.

(** [x / y] and [x + y] *)
Definition float_div (x y : float) : float := SFdiv prec emax x y.
Definition float_add (x y : float) : float := SFadd prec emax x y.

(** ** The image corpus: torchvision's [ImageFolder] *)

Section Datasets.
(** A decoded image; what a transform returns is again an image value. *)
Context {Image : Type}.

(** [datasets.ImageFolder(root)]: the class names found under the root,
    the samples as [(path, class index)] pairs, and the loader that
    decodes a path. No transform is attached by [create_dataloaders]. *)
Record ImageFolder := {
  classes : list string;
  samples : list (string * nat);
  loader : string → result Image
}.

Definition ImageFolder_getitem (ds : ImageFolder) (index : Z)
  : result (Image * nat) :=
  let* '(path, target) := py_getitem (samples ds) index in
  let* sample := loader ds path in
  ret (sample, target).

(** The interface of [torch.utils.data.Dataset]. *)
Class Dataset (D : Type) := {
  ds_len : D → nat;
  ds_getitem : D → Z → result (Image * nat)
}.

#[export] Instance ImageFolder_Dataset : Dataset ImageFolder := {|
  ds_len ds := length (samples ds);
  ds_getitem := ImageFolder_getitem
|}.

(** *** [FilteredDataset] *)

Record FilteredDataset := {
  dataset : ImageFolder;
  class_to_idx : gmap string nat;
  filtered_indices : list nat;
  targets : list nat
}.

(** [{cls: idx for idx, cls in enumerate(class_names)}]: a later
    occurrence of a name overwrites an earlier one. *)
Definition make_class_to_idx (class_names : list string) : gmap string nat :=
  foldl (λ d '(idx, cls), <[cls := idx]> d) ∅ (enumerate class_names).

(** The loop "Filter and remap labels" over [enumerate(dataset.samples)],
    appending to [self.filtered_indices] and [self.targets]. *)
Fixpoint filter_and_remap (ds_classes : list string)
    (c2i : gmap string nat) (class_names : list string)
    (items : list (nat * (string * nat)))
    (filtered_indices targets : list nat)
  : result (list nat * list nat) :=
  match items with
  | [] => ret (filtered_indices, targets)
  | (idx, (_, label)) :: items' =>
      let* class_name := py_getitem ds_classes (Z.of_nat label) in
      if bool_decide (class_name ∈ class_names) then
        let* t := dict_getitem c2i class_name in
        filter_and_remap ds_classes c2i class_names items'
          (filtered_indices ++ [idx]) (targets ++ [t])
      else
        filter_and_remap ds_classes c2i class_names items'
          filtered_indices targets
  end.

(** [FilteredDataset.__init__] *)
Definition FilteredDataset_init (ds : ImageFolder) (class_names : list string)
  : result FilteredDataset :=
  let c2i := make_class_to_idx class_names in
  let* '(fi, tg) := filter_and_remap (classes ds) c2i class_names
                (enumerate (samples ds)) [] [] in
  ret {| dataset := ds; class_to_idx := c2i;
         filtered_indices := fi; targets := tg |}.

(** [FilteredDataset.__len__] *)
Definition FilteredDataset_len (self : FilteredDataset) : nat :=
  length (filtered_indices self).

(** [FilteredDataset.__getitem__] *)
Definition FilteredDataset_getitem (self : FilteredDataset) (idx : Z)
  : result (Image * nat) :=
  let* original_idx := py_getitem (filtered_indices self) idx in
  let* '(image, _) := ds_getitem (dataset self) (Z.of_nat original_idx) in
  let* label := py_getitem (targets self) idx in
  ret (image, label).

#[export] Instance FilteredDataset_Dataset : Dataset FilteredDataset := {|
  ds_len := FilteredDataset_len;
  ds_getitem := FilteredDataset_getitem
|}.

(** *** torch's [Subset] *)

Record Subset (D : Type) := {
  sub_dataset : D;
  indices : list nat
}.
Arguments sub_dataset {D} _.
Arguments indices {D} _.

(** [Subset.__getitem__]: [self.dataset[self.indices[idx]]] *)
Definition Subset_getitem `{Dataset D} (self : Subset D) (idx : Z)
  : result (Image * nat) :=
  let* i := py_getitem (indices self) idx in
  ds_getitem (sub_dataset self) (Z.of_nat i).

#[export] Instance Subset_Dataset `{Dataset D} : Dataset (Subset D) := {|
  ds_len self := length (indices self);
  ds_getitem := Subset_getitem
|}.

(** *** [TransformSubset] *)

Record TransformSubset (Sub : Type) := {
  subset : Sub;
  transform : option (Image → Image)
}.
Arguments subset {Sub} _.
Arguments transform {Sub} _.

(** [TransformSubset.__len__] *)
Definition TransformSubset_len `{Dataset Sub} (self : TransformSubset Sub) : nat :=
  ds_len (subset self).

(** [TransformSubset.__getitem__] *)
Definition TransformSubset_getitem `{Dataset Sub} (self : TransformSubset Sub)
    (idx : Z) : result (Image * nat) :=
  let* '(image, label) := ds_getitem (subset self) idx in
  let image := match transform self with
               | Some f => f image
               | None => image
               end in
  ret (image, label).

#[export] Instance TransformSubset_Dataset `{Dataset Sub}
  : Dataset (TransformSubset Sub) := {|
  ds_len := TransformSubset_len;
  ds_getitem := TransformSubset_getitem
|}.
End Datasets.

Arguments ImageFolder : clear implicits.
Arguments FilteredDataset : clear implicits.
Arguments Dataset : clear implicits.
Arguments TransformSubset : clear implicits.
Arguments sub_dataset {D} _.
Arguments indices {D} _.
Arguments subset {Image Sub} _.
Arguments transform {Image Sub} _.

(** ** numpy's [RandomState] *)

(** A pseudo-random generator, as far as this pipeline uses one:
    [RandomState(seed)] builds a state from an integer seed, and
    [rng.permutation(n)] returns a shuffled [arange(n)] together with the
    advanced state. Which permutation comes out is left open; that it is
    one is all that is kept of the Mersenne Twister. *)
Class RandomState := {
  rs_state : Type;
  rs_seed : Z → rs_state;
  rs_permutation : rs_state → nat → list nat * rs_state;
  rs_permutation_perm s n : (rs_permutation s n).1 ≡ₚ seq 0 n
}.

(** [a.take(idx, mode="clip")]: positions past the end are clipped to the
    last entry. *)
Definition np_take_clip (a : list nat) (idx : list nat) : list nat :=
  map (λ i, nth (i `min` (length a - 1)) a 0) idx.

(** [a[lo:hi]] for [0 <= lo <= hi]. *)
Definition py_slice {A} (a : list A) (lo hi : Z) : list A :=
  take (Z.to_nat (hi - lo)) (drop (Z.to_nat lo) a).

(** [np.min(a)] *)
Definition np_min (a : list Z) : Z := foldr Z.min (hd 0%Z a) a.

(** [a.sum()] *)
Definition np_sum (a : list Z) : Z := foldr Z.add 0%Z a.

(** [np.sort(np.unique(a))[::-1]] for an array of floats: the distinct
    values, descending. *)
Fixpoint insert_desc (x : Q) (l : list Q) : list Q :=
  match l with
  | [] => [x]
  | y :: l' =>
      match (x ?= y)%Q with
      | Gt => x :: l
      | Eq => l
      | Lt => y :: insert_desc x l'
      end
  end.

Definition unique_desc (a : list Q) : list Q := foldr insert_desc [] a.

(** [a[inds] += 1] *)
Definition add_at (inds : list nat) (a : list Z) : list Z :=
  imap (λ i x, if bool_decide (i ∈ inds) then (x + 1)%Z else x) a.

Section Sklearn.
Context `{RandomState}.

(** [rng.permutation(a)] for an array [a]: the entries of [a] in the
    order [rng.permutation(len(a))] gives. *)
Definition rs_shuffled (rng : rs_state) (a : list nat) : list nat * rs_state :=
  let '(p, rng) := rs_permutation rng (length a) in
  (np_take_clip a p, rng).

(** [rng.choice(a, size=size, replace=False)]:
    [a[rng.permutation(len(a))[:size]]]. *)
Definition rs_choice (rng : rs_state) (a : list nat) (size : nat)
  : list nat * rs_state :=
  let '(p, rng) := rs_permutation rng (length a) in
  (np_take_clip a (take size p), rng).

(** [check_random_state]: an integer seeds a fresh generator, [None] is
    the process-wide generator of [np.random]. *)
Definition check_random_state (ambient : rs_state) (seed : option Z) : rs_state :=
  match seed with
  | None => ambient
  | Some s => rs_seed s
  end.

(** The loop of [_approximate_mode] over the distinct remainders, largest
    first: classes with that remainder get one more sample each, drawn at
    random when fewer are needed than there are candidates. *)
Fixpoint add_by_remainder (values remainder : list Q) (floored : list Z)
    (need_to_add : Z) (rng : rs_state) : list Z * rs_state :=
  match values with
  | [] => (floored, rng)
  | value :: values' =>
      let inds := np_where (λ r, Qeq_bool r value) remainder in
      let add_now := (Z.of_nat (length inds) `min` need_to_add)%Z in
      let '(inds, rng) := rs_choice rng inds (Z.to_nat add_now) in
      let floored := add_at inds floored in
      let need_to_add := (need_to_add - add_now)%Z in
      if (need_to_add =? 0)%Z then (floored, rng)
      else add_by_remainder values' remainder floored need_to_add rng
  end.

(** [sklearn.utils._approximate_mode(class_counts, n_draws, rng)] *)
Definition approximate_mode (class_counts : list Z) (n_draws : Z)
    (rng : rs_state) : list Z * rs_state :=
  let total := np_sum class_counts in
  let continuous :=
    map (λ c, (inject_Z c / inject_Z total * inject_Z n_draws)%Q) class_counts in
  let floored := map Qfloor continuous in
  let need_to_add := (n_draws - np_sum floored)%Z in
  if (0 <? need_to_add)%Z then
    let remainder := zip_with (λ c f, (c - inject_Z f)%Q) continuous floored in
    add_by_remainder (unique_desc remainder) remainder floored need_to_add rng
  else (floored, rng).

(** [_validate_shuffle_split] for a float [test_size] and
    [train_size=None]. *)
Definition validate_shuffle_split (n_samples : nat) (test_size : Q)
  : result (Z * Z) :=
  if Qle_bool test_size 0 || Qle_bool 1 test_size
  then raise (ValueError TestSizeOutOfRange)
  else
    let n_test := Qceiling (test_size * inject_Z (Z.of_nat n_samples)) in
    let n_train := (Z.of_nat n_samples - n_test)%Z in
    if (n_train =? 0)%Z then raise (ValueError TrainSetEmpty)
    else ret (n_train, n_test).

(** The body of the class loop of [StratifiedShuffleSplit._iter_indices]:
    [for i in range(n_classes)]. *)
Fixpoint split_classes (range : list nat) (class_counts : list Z)
    (class_indices : list (list nat)) (n_i t_i : list Z)
    (train test : list nat) (rng : rs_state)
  : list nat * list nat * rs_state :=
  match range with
  | [] => (train, test, rng)
  | i :: range' =>
      let '(permutation, rng) :=
        rs_permutation rng (Z.to_nat (nth i class_counts 0%Z)) in
      let perm_indices_class_i :=
        np_take_clip (nth i class_indices []) permutation in
      let n := nth i n_i 0%Z in
      let t := nth i t_i 0%Z in
      let train := train ++ py_slice perm_indices_class_i 0 n in
      let test := test ++ py_slice perm_indices_class_i n (n + t) in
      split_classes range' class_counts class_indices n_i t_i train test rng
  end.

(** One split of [StratifiedShuffleSplit(test_size=n_test,
    train_size=n_train)] over the labels [y]: the positions of the train
    part and of the test part. The sizes are those
    [validate_shuffle_split] returned, which the second validation inside
    [_iter_indices] accepts as they are. *)
Definition stratified_shuffle_split (n_train n_test : Z) (y : list nat)
    (rng : rs_state) : result (list nat * list nat) :=
  let classes := np_unique y in
  let y_indices := map (λ t, index_of t classes) y in
  let n_classes := length classes in
  let class_counts :=
    map (λ k, Z.of_nat (count_of k y_indices)) (seq 0 n_classes) in
  if (np_min class_counts <? 2)%Z then raise (ValueError LeastPopulatedClass)
  else if (n_train <? Z.of_nat n_classes)%Z
  then raise (ValueError TrainSizeBelowClasses)
  else if (n_test <? Z.of_nat n_classes)%Z
  then raise (ValueError TestSizeBelowClasses)
  else
    (* the sorted list of instances for each class *)
    let class_indices :=
      map (λ k, np_where (λ c, c =? k) y_indices) (seq 0 n_classes) in
    let '(n_i, rng) := approximate_mode class_counts n_train rng in
    let class_counts_remaining := zip_with Z.sub class_counts n_i in
    let '(t_i, rng) := approximate_mode class_counts_remaining n_test rng in
    let '(train, test, rng) :=
      split_classes (seq 0 n_classes) class_counts class_indices n_i t_i
        [] [] rng in
    let '(train, rng) := rs_shuffled rng train in
    let '(test, rng) := rs_shuffled rng test in
    ret (train, test).

(** [train_test_split(arrays, test_size=test_size, stratify=stratify,
    random_state=random_state)] for one array of positions. *)
Definition train_test_split (ambient : rs_state) (arrays : list nat)
    (test_size : Q) (stratify : list nat) (random_state : option Z)
  : result (list nat * list nat) :=
  let n_samples := length arrays in
  let* '(n_train, n_test) := validate_shuffle_split n_samples test_size in
  if negb (length stratify =? n_samples)
  then raise (ValueError InconsistentLength)
  else
    let rng := check_random_state ambient random_state in
    let* '(train, test) := stratified_shuffle_split n_train n_test stratify rng in
    let* a_train := np_index arrays train in
    let* a_test := np_index arrays test in
    ret (a_train, a_test).
End Sklearn.

(** ** torch's samplers and [DataLoader] *)

(** [WeightedRandomSampler]: one pass draws [num_samples] positions from
    [range(len(weights))] by [torch.multinomial], with probabilities
    proportional to [weights], with or without [replacement]. *)
Record WeightedRandomSampler := {
  weights : list float;
  num_samples : Z;
  replacement : bool
}.

(** [WeightedRandomSampler.__init__] *)
Definition WeightedRandomSampler_init (weights : list float) (num_samples : Z)
    (replacement : bool) : result WeightedRandomSampler :=
  if (num_samples <=? 0)%Z then raise (ValueError NumSamplesNotPositive)
  else ret {| weights := weights; num_samples := num_samples;
              replacement := replacement |}.

(** [WeightedRandomSampler.__len__] *)
Definition WeightedRandomSampler_len (self : WeightedRandomSampler) : Z :=
  num_samples self.

(** The iteration policy of a loader: the sampler handed to it, or the
    [SequentialSampler] a [DataLoader] builds when none is given and
    [shuffle] is left [False]. *)
Inductive sampler :=
  | Weighted (s : WeightedRandomSampler)
  | Sequential (len : nat).

Record DataLoader (D : Type) := {
  dl_dataset : D;
  dl_batch_size : Z;
  dl_sampler : sampler;
  dl_num_workers : Z
}.
Arguments dl_dataset {D} _.
Arguments dl_batch_size {D} _.
Arguments dl_sampler {D} _.
Arguments dl_num_workers {D} _.

(** [DataLoader(dataset, batch_size=..., sampler=..., num_workers=...)] *)
Definition DataLoader_init {Image} `{Dataset Image D} (dataset : D)
    (batch_size : Z) (sampler : option WeightedRandomSampler)
    (num_workers : Z) : result (DataLoader D) :=
  if (num_workers <? 0)%Z then raise (ValueError NumWorkersNegative)
  else if (batch_size <=? 0)%Z then raise (ValueError BatchSizeNotPositive)
  else ret {| dl_dataset := dataset;
              dl_batch_size := batch_size;
              dl_sampler := match sampler with
                            | Some s => Weighted s
                            | None => Sequential (ds_len dataset)
                            end;
              dl_num_workers := num_workers |}.

(** ** [create_dataloaders] *)

(** Define the class names *)
Definition class_names : list string :=
  ["basophil"; "eosinophil"; "erythroblast"; "ig"; "lymphocyte"; "monocyte";
   "neutrophil"; "platelet"]%string.

(** [[f(x) for x in l]] for an [f] that may raise. *)
Fixpoint list_comprehension {A B} (f : A → result B) (l : list A)
  : result (list B) :=
  match l with
  | [] => ret []
  | x :: l' =>
      let* y := f x in
      let* ys := list_comprehension f l' in
      ret (y :: ys)
  end.

Section Pipeline.
Context {Image : Type} `{RandomState}.

(** The file system and the corpus loader: [os.path.exists] and
    [datasets.ImageFolder]. *)
Context (os_path_exists : string → bool).
Context (datasets_ImageFolder : string → result (ImageFolder Image)).

(** The module-level dict [transform], keyed by ['train'], ['val'] and
    ['test']. *)
Context (transform_table : string → Image → Image).

(** One split as [create_dataloaders] hands it out. *)
Definition SplitView : Type :=
  TransformSubset Image (Subset (FilteredDataset Image)).

Record Loaders := {
  train_loader : DataLoader SplitView;
  val_loader : DataLoader SplitView;
  test_loader : DataLoader SplitView;
  train_dataset : SplitView;
  val_dataset : SplitView;
  test_dataset : SplitView
}.

(** "Perform stratified split": the two calls of [train_test_split]. *)
Definition stratified_split (ambient : rs_state) (len_filtered : nat)
    (targets : list nat) : result (list nat * list nat * list nat) :=
  (* indices = np.arange(len(filtered_dataset)) *)
  let indices := seq 0 len_filtered in
  (* First split: train and temp (val + test); test_size=0.2, which the
     source annotates "40% for val+test" *)
  let* '(train_idx, temp_idx) :=
    train_test_split ambient indices 0.2 targets (Some 42%Z) in
  (* Second split: val and test from temp; test_size=0.5 *)
  let* targets_temp := np_index targets temp_idx in
  let* '(val_idx, test_idx) :=
    train_test_split ambient temp_idx 0.5 targets_temp (Some 42%Z) in
  ret (train_idx, val_idx, test_idx).

(** "Compute sample weights for the training set based on class
    frequencies." *)
Definition compute_sample_weights (train_targets : list nat)
  : result (list float) :=
  let unique_classes := np_unique train_targets in
  let class_counts := map (λ c, count_of c train_targets) unique_classes in
  (* Inverse frequency for each class *)
  let class_weights : gmap nat float :=
    foldl (λ d '(cls, count), <[cls := float_div float_one (float_of_nat count)]> d)
      ∅ (zip unique_classes class_counts) in
  (* Create a weight for each sample in the training set *)
  list_comprehension (λ t, dict_getitem class_weights t) train_targets.

Definition create_dataloaders (ambient : rs_state) (dataset_dir : string)
    (batch_size num_workers : Z) : result Loaders :=
  if negb (os_path_exists dataset_dir)
  then raise (FileNotFoundError
                ("Dataset directory '" +:+ dataset_dir +:+ "' not found."))
  else
    (* Load dataset *)
    let* full_dataset := datasets_ImageFolder dataset_dir in
    (* Filter dataset *)
    let* filtered_dataset := FilteredDataset_init full_dataset class_names in
    (* Perform stratified split *)
    let* '(train_idx, val_idx, test_idx) :=
      stratified_split ambient (ds_len filtered_dataset)
        (targets filtered_dataset) in
    (* Class weighted sampler for training *)
    let* train_targets := np_index (targets filtered_dataset) train_idx in
    let* sample_weights := compute_sample_weights train_targets in
    let* train_sampler :=
      WeightedRandomSampler_init sample_weights
        (Z.of_nat (length sample_weights)) true in
    (* Create subsets *)
    let train_dataset :=
      {| subset := {| sub_dataset := filtered_dataset; indices := train_idx |};
         transform := Some (transform_table "train") |} in
    let val_dataset :=
      {| subset := {| sub_dataset := filtered_dataset; indices := val_idx |};
         transform := Some (transform_table "val") |} in
    let test_dataset :=
      {| subset := {| sub_dataset := filtered_dataset; indices := test_idx |};
         transform := Some (transform_table "test") |} in
    (* Create DataLoaders *)
    let* train_loader :=
      DataLoader_init train_dataset batch_size (Some train_sampler) num_workers in
    let* val_loader := DataLoader_init val_dataset batch_size None num_workers in
    let* test_loader := DataLoader_init test_dataset batch_size None num_workers in
    ret {| train_loader := train_loader; val_loader := val_loader;
           test_loader := test_loader; train_dataset := train_dataset;
           val_dataset := val_dataset; test_dataset := test_dataset |}.
End Pipeline.

(** The defaults of [create_dataloaders]: [batch_size=16], [num_workers=4]. *)
Definition default_batch_size : Z := 16.
Definition default_num_workers : Z := 4.

(** ** A generator and a corpus to run the pipeline on *)

(** A linear congruential generator whose [permutation] rotates
    [arange(n)] by the current state. *)
#[local, program] Instance lcg : RandomState := {|
  rs_state := nat;
  rs_seed z := Z.to_nat (Z.abs z);
  rs_permutation s n := (rotate s (seq 0 n), (5 * s + 3) `mod` 64)
|}.
Next Obligation.
  intros s n. unfold rotate. cbn [fst].
  rewrite Permutation_app_comm. by rewrite take_drop.
Qed.

(** Twelve basophils, three images of a class outside the working set and
    ten platelets; an image is its path. *)
Definition demo_folder : ImageFolder string := {|
  classes := ["basophil"; "debris"; "platelet"]%string;
  samples := replicate 12 ("basophil/img.jpg"%string, 0)
             ++ replicate 3 ("debris/img.jpg"%string, 1)
             ++ replicate 10 ("platelet/img.jpg"%string, 2);
  loader path := ret path
|}.

Definition demo_loaders : result (@Loaders string) :=
  create_dataloaders (λ _, true) (λ _, ret demo_folder)
    (λ split image, String.append split (String.append ":" image))
    (0 : @rs_state lcg) "data" default_batch_size default_num_workers.

(** The filtered demo corpus and a validation view over three of its
    positions. *)
Definition demo_filtered : FilteredDataset string := {|
  dataset := demo_folder;
  class_to_idx := make_class_to_idx class_names;
  filtered_indices := seq 0 12 ++ seq 15 10;
  targets := replicate 12 0 ++ replicate 10 7
|}.

Definition demo_view : TransformSubset string (Subset (FilteredDataset string)) := {|
  subset := {| sub_dataset := demo_filtered; indices := [3; 14; 0] |};
  transform := Some (String.append "val:")
|}.

(** The remapped labels of the demo corpus. *)
Definition demo_targets : list nat := replicate 12 0 ++ replicate 10 7.

(** The labels of a filtered index with two basophils and nineteen
    eosinophils. *)
Definition two_and_nineteen : list nat := [0; 0] ++ replicate 19 1.

(** Five basophils: a corpus too small to split. *)
Definition tiny_folder : ImageFolder string := {|
  classes := ["basophil"]%string;
  samples := replicate 5 ("basophil/img.jpg"%string, 0);
  loader path := ret path
|}.

Definition tiny_filtered : FilteredDataset string := {|
  dataset := tiny_folder;
  class_to_idx := make_class_to_idx class_names;
  filtered_indices := seq 0 5;
  targets := replicate 5 0
|}.

(** Twelve lymphocytes and eleven monocytes. *)
Definition populated_folder : ImageFolder string := {|
  classes := ["lymphocyte"; "monocyte"]%string;
  samples := replicate 12 ("lymphocyte/img.jpg"%string, 0)
             ++ replicate 11 ("monocyte/img.jpg"%string, 1);
  loader path := ret path
|}.

Definition populated_filtered : FilteredDataset string := {|
  dataset := populated_folder;
  class_to_idx := make_class_to_idx class_names;
  filtered_indices := seq 0 23;
  targets := replicate 12 4 ++ replicate 11 5
|}.

(** The demo corpus with its files renamed and unreadable. *)
Definition unreadable_folder : ImageFolder nat := {|
  classes := classes demo_folder;
  samples := map (λ s : string * nat, ("moved.jpg"%string, s.2))
               (samples demo_folder);
  loader path := raise (FileNotFoundError path)
|}.

(** Training labels: three of one class and one of another; six of one
    class. *)
Definition three_and_one : list nat := [0; 0; 0; 1].
Definition six_of_a_class : list nat := replicate 6 0.

(** ** Vocabulary of the statements *)

(** The exact value of a finite float; infinities and NaN, which no
    weight is, count as 0. *)
Definition float_value (x : float) : Q :=
  match x with
  | S754_finite s m e =>
      let v := (inject_Z (Z.pos m) * 2 ^ e)%Q in
      if s then (- v)%Q else v
  | _ => 0%Q
  end.

(** The exact sum of a list of rationals. *)
Definition sum_Q (l : list Q) : Q := foldr Qplus 0%Q l.

(** Python's [sum(l)] over floats: left to right, each addition rounded
    to binary64. *)
Definition float_sum (l : list float) : float :=
  foldl float_add (S754_zero false) l.

(** The weights at the positions of [labels] that carry class [c]. *)
Definition weights_of_class {A} (c : nat) (labels : list nat) (w : list A)
  : list A :=
  map snd (filter (λ tw : nat * A, tw.1 = c) (zip labels w)).

(** [2^-53], half the gap between 1.0 and the next float. *)
Definition half_ulp : Q := 1 # 9007199254740992.

(** How many entries of [remainder] equal one of [values]. *)
Definition candidates (values remainder : list Q) : Z :=
  np_sum (map (λ v, Z.of_nat (length (np_where (λ r, Qeq_bool r v) remainder)))
            values).

(** Strictly descending. *)
Definition descending (values : list Q) : Prop :=
  StronglySorted (λ a b, (b < a)%Q) values.

(** The whole number of samples a class of [c] members is due when
    [n_draws] are drawn from [total]: [floor(c / total * n_draws)]. *)
Definition share (c n_draws total : Z) : Z := (c * n_draws / total)%Z.

(** How many of the positions [ps] carry label [c] in [labels]. *)
Definition count_class (labels : list nat) (ps : list nat) (c : nat) : nat :=
  length (filter (λ p, labels !! p = Some c) ps).

(** The class counts [np.bincount(y_indices)] that [_iter_indices] computes
    from the labels [y]. *)
Definition class_counts_of (y : list nat) : list Z :=
  let classes := np_unique y in
  let y_indices := map (λ t, index_of t classes) y in
  map (λ k, Z.of_nat (count_of k y_indices)) (seq 0 (length classes)).

(** The checks of [_iter_indices] that raise [ValueError]. *)
Definition strata_ok (n_train n_test : Z) (y : list nat) : bool :=
  negb (np_min (class_counts_of y) <? 2)%Z
  && negb (n_train <? Z.of_nat (length (np_unique y)))%Z
  && negb (n_test <? Z.of_nat (length (np_unique y)))%Z.

(** Three lists of positions that partition [range(n)]: together a
    permutation of the range, hence without repetition within or across
    them, and covering it. *)
Definition is_partition (train val test : list nat) (n : nat) : Prop :=
  train ++ val ++ test ≡ₚ seq 0 n ∧
  NoDup (train ++ val ++ test) ∧
  ∀ p, p < n ↔ p ∈ train ∨ p ∈ val ∨ p ∈ test.

(** The fraction of the positions of class [c] that land in [part]. *)
Definition class_fraction (targets part : list nat) (c : nat) : Q :=
  inject_Z (Z.of_nat (count_class targets part c))
  / inject_Z (Z.of_nat (count_of c targets)).

(** Every class is within [k / n_c] of the target fractions 0.8, 0.1 and
    0.1 in the train, val and test parts. *)
Definition stratified_within (k : Q) (targets train val test : list nat) : Prop :=
  ∀ c, c ∈ targets →
    (Qabs (class_fraction targets train c - 0.8)
       <= k / inject_Z (Z.of_nat (count_of c targets)) ∧
     Qabs (class_fraction targets val c - 0.1)
       <= k / inject_Z (Z.of_nat (count_of c targets)) ∧
     Qabs (class_fraction targets test c - 0.1)
       <= k / inject_Z (Z.of_nat (count_of c targets)))%Q.

(** Whatever the random generator and its state, the split of [targets]
    succeeds and is not within [k / n_c] of the target fractions. *)
Definition bound_fails_for_every_generator (k : Q) (targets : list nat) : Prop :=
  ∀ (R : RandomState) (g : rs_state),
    ∃ train val test,
      stratified_split g (length targets) targets = inr (train, val, test) ∧
      ¬ stratified_within k targets train val test.

(** Whatever the random generator and its state, the split of [targets]
    raises [e]. *)
Definition split_raises_for_every_generator (targets : list nat) (e : exn) : Prop :=
  ∀ (R : RandomState) (g : rs_state),
    stratified_split g (length targets) targets = inl e.

(** The class name of a raw sample, and whether the catalog keeps it. *)
Definition raw_class {Image} (ds : ImageFolder Image) (s : string * nat)
  : option string := classes ds !! s.2.

Definition in_catalog {Image} (L : list string) (ds : ImageFolder Image)
    (s : string * nat) : bool :=
  match raw_class ds s with
  | Some c => bool_decide (c ∈ L)
  | None => false
  end.

(** Every sample of an [ImageFolder] carries the index of one of its
    classes. *)
Definition wf_ImageFolder {Image} (ds : ImageFolder Image) : Prop :=
  Forall (λ s : string * nat, s.2 < length (classes ds)) (samples ds).

(** [enumerate] from a start index. *)
Definition enumerate_from {A} (k : nat) (l : list A) : list (nat * A) :=
  imap (λ i x, (k + i, x)) l.

(** Whether the entry at a position satisfies a test. *)
Definition holds_at {A} (P : A → bool) (l : list A) (i : nat) : bool :=
  match l !! i with
  | Some x => P x
  | None => false
  end.

(** The label a kept sample is given: the catalog position recorded for
    its class name. *)
Definition remapped {Image} (L : list string) (ds : ImageFolder Image)
    (s : string * nat) : nat :=
  default 0 (raw_class ds s ≫= λ c, make_class_to_idx L !! c).

(** The inverse class frequency of a label within [labels], as the code
    computes it: [1.0 / count]. *)
Definition inverse_frequency (labels : list nat) (t : nat) : float :=
  float_div float_one (float_of_nat (count_of t labels)).

(** What a view over a filtered dataset returns at every position
    [0 <= i < len(view)]: the image of a sample of the corpus [full] whose
    class name is in the catalog [L], passed through [f], next to the
    catalog position of that class name; or the error of the image loader
    on that sample. The sample is the one at
    [filtered_indices[indices[i]]] in the corpus. *)
Definition serves {Image}
    (view : TransformSubset Image (Subset (FilteredDataset Image)))
    (full : ImageFolder Image) (L : list string) (f : Image → Image) : Prop :=
  ∀ i, i < ds_len view →
    ∃ p o path raw c t,
      indices (subset view) !! i = Some p ∧
      filtered_indices (sub_dataset (subset view)) !! p = Some o ∧
      samples full !! o = Some (path, raw) ∧ classes full !! raw = Some c ∧
      L !! t = Some c ∧
      ds_getitem view (Z.of_nat i) =
        match loader full path with
        | inl e => inl e
        | inr image => inr (f image, t)
        end.

(** The positions in the corpus of the samples a view serves, in the
    order of the view: [filtered_indices[indices]]. *)
Definition corpus_positions {Image}
    (view : TransformSubset Image (Subset (FilteredDataset Image)))
  : result (list nat) :=
  np_index (filtered_indices (sub_dataset (subset view)))
    (indices (subset view)).

(** The positions of the corpus whose class name is in the catalog. *)
Definition kept_positions {Image} (L : list string) (full : ImageFolder Image)
  : list nat :=
  filter (λ i, holds_at (in_catalog L full) (samples full) i)
    (seq 0 (length (samples full))).

(** [x] is what a class of [k] members is due when [part] out of [whole]
    samples are drawn, [floor(k * part / whole)], or one more. *)
Definition proportional (k part whole x : nat) : Prop :=
  k * part / whole ≤ x ≤ k * part / whole + 1.

(** Every class is split in proportion: its members in [train] are in
    proportion to the size of [train] among all positions, and of its
    held-out members those in [val] are in proportion to the size of
    [val] among the held-out positions. *)
Definition split_in_proportion (targets train val test : list nat) : Prop :=
  ∀ c, c ∈ targets →
    proportional (count_of c targets) (length train) (length targets)
      (count_class targets train c) ∧
    proportional (count_class targets val c + count_class targets test c)
      (length val) (length val + length test)
      (count_class targets val c).

(** * Properties *)

(** ** The error monad and Python indexing *)

Lemma bind_inr {A B} (m : result A) (k : A → result B) (b : B) :
  bind m k = inr b ↔ ∃ a, m = inr a ∧ k a = inr b.
Proof.
  destruct m as [e|a]; simpl; split.
  - discriminate.
  - intros (a & Ha & _). discriminate.
  - eauto.
  - intros (a' & [= ->] & Hk). done.
Qed.

(** Peel one successful [let*] off a hypothesis. *)
Tactic Notation "bind_inv" hyp(H) "as" simple_intropattern(a) ident(Ha) :=
  apply bind_inr in H as (a & Ha & H).

(** Case analysis on the integer comparisons of a goal. *)
Ltac zcases :=
  repeat match goal with
    | |- context [(?a <? ?b)%Z] => destruct (Z.ltb_spec a b)
    | |- context [(?a <=? ?b)%Z] => destruct (Z.leb_spec a b)
    | |- context [(?a =? ?b)%Z] => destruct (Z.eqb_spec a b)
    end;
  simpl; try done; try lia.

Lemma py_getitem_nat {A} (l : list A) (i : nat) :
  py_getitem l (Z.of_nat i) =
    match l !! i with Some x => inr x | None => inl IndexError end.
Proof.
  unfold py_getitem, raise, ret. zcases.
  - rewrite lookup_ge_None_2; [done | lia].
  - rewrite Nat2Z.id. done.
Qed.

Lemma py_getitem_out_of_range {A} (l : list A) (i : Z) :
  (i < - Z.of_nat (length l) ∨ Z.of_nat (length l) ≤ i)%Z →
  py_getitem l i = inl IndexError.
Proof. intros Hi. unfold py_getitem, raise. zcases. Qed.

Lemma py_getitem_negative {A} (l : list A) (i : Z) :
  (- Z.of_nat (length l) ≤ i < 0)%Z →
  py_getitem l i = py_getitem l (i + Z.of_nat (length l)).
Proof. intros Hi. unfold py_getitem. zcases. Qed.

Lemma np_index_inr {A} (a : list A) (idx : list nat) (l : list A) :
  np_index a idx = inr l ↔ Forall2 (λ i x, a !! i = Some x) idx l.
Proof.
  unfold np_index, ret, raise.
  destruct (mapM (λ i, a !! i) idx) as [l'|] eqn:Hm.
  - apply mapM_Some in Hm. split.
    + by intros [= <-].
    + intros Hl. f_equal.
      revert l Hl. induction Hm as [|i x idx l' Hx _ IH]; intros l Hl.
      * by inversion Hl.
      * inversion Hl as [|? y ? l2 Hy Hl2]; subst.
        f_equal; [congruence | by apply IH].
  - split; [done|]. intros Hl. apply mapM_Some_2 in Hl. congruence.
Qed.

Lemma np_index_length {A} (a : list A) (idx : list nat) (l : list A) :
  np_index a idx = inr l → length l = length idx.
Proof. rewrite np_index_inr. intros Hl. symmetry. by eapply Forall2_length. Qed.

(** ** [FilteredDataset.__init__] *)

Lemma enumerate_from_0 {A} (l : list A) : enumerate l = enumerate_from 0 l.
Proof. done. Qed.

Lemma enumerate_from_cons {A} (k : nat) (x : A) (l : list A) :
  enumerate_from k (x :: l) = (k, x) :: enumerate_from (S k) l.
Proof.
  unfold enumerate_from. simpl. rewrite Nat.add_0_r. f_equal.
  apply imap_ext. intros i y _. simpl. f_equal. lia.
Qed.

Lemma filter_ext_elem {A} (P Q : A → Prop) `{!∀ x, Decision (P x)}
    `{!∀ x, Decision (Q x)} (l : list A) :
  (∀ x, x ∈ l → P x ↔ Q x) → filter P l = filter Q l.
Proof.
  induction l as [|x l IH]; intros HPQ; [done|].
  rewrite !filter_cons.
  rewrite IH by (intros y Hy; apply HPQ; by right).
  destruct (decide (P x)) as [HP|HP], (decide (Q x)) as [HQ|HQ]; try done.
  - apply HPQ in HP; [done | by left].
  - apply HPQ in HQ; [done | by left].
Qed.

Lemma enumerate_from_filter_fst {A} (P : A → bool) (k : nat) (l : list A) :
  map fst (filter (λ it : nat * A, P it.2) (enumerate_from k l)) =
  filter (λ i, holds_at P l (i - k)) (seq k (length l)).
Proof.
  revert k. induction l as [|x l IH]; intros k; [done|].
  rewrite enumerate_from_cons. cbn [length seq].
  assert (holds_at P (x :: l) (k - k) = P x) as Hk.
  { by rewrite Nat.sub_diag. }
  assert (filter (λ i, holds_at P (x :: l) (i - k)) (seq (S k) (length l))
          = filter (λ i, holds_at P l (i - S k)) (seq (S k) (length l)))
    as Htl.
  { apply filter_ext_elem. intros i Hi.
    apply elem_of_seq in Hi. unfold holds_at.
    replace (i - k) with (S (i - S k)) by lia. done. }
  rewrite !filter_cons, Htl, <- IH. cbn [snd].
  repeat case_decide; try done; rewrite Hk in *; done.
Qed.

Lemma enumerate_from_filter_snd {A} (P : A → bool) (k : nat) (l : list A) :
  map snd (filter (λ it : nat * A, P it.2) (enumerate_from k l)) = filter P l.
Proof.
  revert k. induction l as [|x l IH]; intros k; [done|].
  rewrite enumerate_from_cons, !filter_cons. cbn [snd].
  case_decide; cbn [map snd]; by rewrite IH.
Qed.

Lemma enumerate_from_Forall {A} (P : A → Prop) (k : nat) (l : list A) :
  Forall P l → Forall (λ it : nat * A, P it.2) (enumerate_from k l).
Proof.
  intros Hl. revert k. induction Hl as [|x l Hx _ IH]; intros k.
  - constructor.
  - rewrite enumerate_from_cons. constructor; [done | apply IH].
Qed.

(** The dict comprehension maps every catalog name to a position that
    holds it. *)
Lemma class_to_idx_fold (k : nat) (L : list string) (d : gmap string nat)
    (c : string) :
  foldl (λ d '(idx, cls), <[cls := idx]> d) d (enumerate_from k L) !! c =
  match last (filter (λ it : nat * string, it.2 = c) (enumerate_from k L)) with
  | Some it => Some it.1
  | None => d !! c
  end.
Proof.
  revert k d. induction L as [|x L IH]; intros k d; [done|].
  rewrite enumerate_from_cons. cbn [foldl]. rewrite IH, filter_cons. cbn [snd].
  destruct (decide (x = c)) as [->|Hne].
  - destruct (filter _ (enumerate_from (S k) L)) as [|it its] eqn:Hf.
    + simpl. by rewrite lookup_insert_eq.
    + rewrite last_cons_cons.
      destruct (last (it :: its)) eqn:Hl; [done|]. by apply last_None in Hl.
  - destruct (last _); [done|]. by rewrite lookup_insert_ne.
Qed.

Lemma enumerate_from_elem {A} (k i : nat) (x : A) (l : list A) :
  (i, x) ∈ enumerate_from k l ↔ k ≤ i ∧ l !! (i - k) = Some x.
Proof.
  unfold enumerate_from. rewrite elem_of_lookup_imap. split.
  - intros (j & y & [= -> ->] & Hy). split; [lia|].
    by replace (k + j - k) with j by lia.
  - intros [Hk Hx]. exists (i - k), x. split; [f_equal; lia | done].
Qed.

Lemma make_class_to_idx_Some (L : list string) (c : string) (t : nat) :
  make_class_to_idx L !! c = Some t → L !! t = Some c.
Proof.
  unfold make_class_to_idx. rewrite enumerate_from_0, class_to_idx_fold.
  destruct (last _) as [[i x]|] eqn:Hlast; [|by rewrite lookup_empty].
  intros [= <-]. apply last_Some_elem_of in Hlast.
  apply list_elem_of_filter in Hlast as [Hx Hin]. simpl in Hx. subst x.
  apply enumerate_from_elem in Hin as [_ Hin].
  by rewrite Nat.sub_0_r in Hin.
Qed.

Lemma make_class_to_idx_is_Some (L : list string) (c : string) :
  c ∈ L → is_Some (make_class_to_idx L !! c).
Proof.
  intros Hc. unfold make_class_to_idx.
  rewrite enumerate_from_0, class_to_idx_fold.
  destruct (last _) as [it|] eqn:Hlast; [by eexists|].
  apply last_None in Hlast.
  apply list_elem_of_lookup in Hc as [i Hi].
  assert ((i, c) ∈ filter (λ it : nat * string, it.2 = c) (enumerate_from 0 L))
    as Hin.
  { apply list_elem_of_filter. split; [done|].
    apply enumerate_from_elem. split; [lia|]. by rewrite Nat.sub_0_r. }
  rewrite Hlast in Hin. by apply elem_of_nil in Hin.
Qed.

Lemma filter_and_remap_spec {Image} (ds : ImageFolder Image) (L : list string)
    (items : list (nat * (string * nat))) (fi tg : list nat) :
  Forall (λ it : nat * (string * nat), it.2.2 < length (classes ds)) items →
  filter_and_remap (classes ds) (make_class_to_idx L) L items fi tg =
    inr (fi ++ map fst (filter (λ it, in_catalog L ds it.2) items),
         tg ++ map (λ it, remapped L ds it.2)
                 (filter (λ it, in_catalog L ds it.2) items)).
Proof.
  intros Hwf. revert fi tg.
  induction Hwf as [|[idx [path label]] items Hlabel _ IH]; intros fi tg.
  - simpl. by rewrite !app_nil_r.
  - cbn [filter_and_remap]. rewrite py_getitem_nat. simpl in Hlabel.
    destruct (lookup_lt_is_Some_2 _ _ Hlabel) as [c Hc]. rewrite Hc.
    cbn [bind].
    assert (in_catalog L ds (path, label) = bool_decide (c ∈ L)) as Hkeep.
    { unfold in_catalog, raw_class. cbn [snd]. by rewrite Hc. }
    assert (remapped L ds (path, label) = default 0 (make_class_to_idx L !! c))
      as Hremap.
    { unfold remapped, raw_class. cbn [snd]. by rewrite Hc. }
    rewrite filter_cons. cbn [snd].
    destruct (bool_decide (c ∈ L)) eqn:HcL.
    + apply bool_decide_eq_true in HcL as HcL'.
      destruct (make_class_to_idx_is_Some L c HcL') as [t Ht].
      unfold dict_getitem. rewrite Ht. cbn [bind ret].
      rewrite IH. rewrite decide_True by (by rewrite Hkeep).
      cbn [map fst snd]. rewrite Hremap, Ht. cbn [default].
      by rewrite <- !app_assoc.
    + rewrite IH. by rewrite decide_False by (rewrite Hkeep; by intros []).
Qed.

(** C3: for a well-formed corpus, filtering succeeds; the index has as many
    entries as there are samples whose class name is in the catalog; it
    lists exactly the positions of those samples in increasing order (a
    stable filter); and every remapped label is below [len(L)] and is a
    position of [L] that holds the sample's class name. *)
Theorem filtered_index_correct {Image} (ds : ImageFolder Image) (L : list string) :
  wf_ImageFolder ds →
  ∃ fd, FilteredDataset_init ds L = inr fd ∧ dataset fd = ds ∧
    length (filtered_indices fd) =
      length (filter (λ s, in_catalog L ds s) (samples ds)) ∧
    filtered_indices fd =
      filter (λ i, holds_at (in_catalog L ds) (samples ds) i)
        (seq 0 (length (samples ds))) ∧
    Forall2 (λ i t, t < length L ∧
               ∃ s c, samples ds !! i = Some s ∧ raw_class ds s = Some c ∧
                      c ∈ L ∧ L !! t = Some c)
      (filtered_indices fd) (targets fd).
Proof.
  intros Hwf. unfold FilteredDataset_init.
  rewrite filter_and_remap_spec
    by (rewrite enumerate_from_0;
        by apply (enumerate_from_Forall
                    (λ s : string * nat, s.2 < length (classes ds)))).
  cbn [bind ret app]. eexists. split; [done|]. cbn.
  rewrite enumerate_from_0. split_and!.
  - done.
  - rewrite length_map.
    rewrite <- (enumerate_from_filter_snd (in_catalog L ds) 0 (samples ds)).
    by rewrite length_map.
  - rewrite enumerate_from_filter_fst. apply filter_ext_elem.
    intros i _. by rewrite Nat.sub_0_r.
  - apply Forall2_fmap, Forall_Forall2_diag, Forall_forall.
    intros [i s] Hin. apply list_elem_of_filter in Hin as [Hkeep Hin].
    apply enumerate_from_elem in Hin as [_ Hs]. rewrite Nat.sub_0_r in Hs.
    cbn [fst snd] in *. unfold in_catalog in Hkeep. unfold remapped.
    destruct (raw_class ds s) as [c|] eqn:Hc; [|done].
    apply bool_decide_unpack in Hkeep.
    destruct (make_class_to_idx_is_Some L c Hkeep) as [t Ht].
    cbn. rewrite Ht. cbn.
    apply make_class_to_idx_Some in Ht.
    split; [by eapply lookup_lt_Some | by exists s, c].
Qed.

Lemma demo_folder_wf : wf_ImageFolder demo_folder.
Proof. unfold wf_ImageFolder. compute_done. Qed.

Lemma filtered_index_correct_witness :
  wf_ImageFolder demo_folder ∧
  ∃ fd, FilteredDataset_init demo_folder class_names = inr fd ∧
    dataset fd = demo_folder ∧
    length (filtered_indices fd) =
      length (filter (λ s, in_catalog class_names demo_folder s)
                (samples demo_folder)) ∧
    filtered_indices fd =
      filter (λ i, holds_at (in_catalog class_names demo_folder)
                     (samples demo_folder) i)
        (seq 0 (length (samples demo_folder))) ∧
    Forall2 (λ i t, t < length class_names ∧
               ∃ s c, samples demo_folder !! i = Some s ∧
                      raw_class demo_folder s = Some c ∧
                      c ∈ class_names ∧ class_names !! t = Some c)
      (filtered_indices fd) (targets fd).
Proof.
  split.
  - exact demo_folder_wf.
  - exact (filtered_index_correct demo_folder class_names demo_folder_wf).
Defined.

(** C8 (as the code has it): with an empty catalog, filtering a
    well-formed corpus raises nothing and returns the empty index. *)
Theorem empty_catalog_gives_empty_index {Image} (ds : ImageFolder Image) :
  wf_ImageFolder ds →
  FilteredDataset_init ds [] =
    inr {| dataset := ds; class_to_idx := ∅;
           filtered_indices := []; targets := [] |}.
Proof.
  intros Hwf. unfold FilteredDataset_init.
  rewrite filter_and_remap_spec
    by (rewrite enumerate_from_0;
        by apply (enumerate_from_Forall
                    (λ s : string * nat, s.2 < length (classes ds)))).
  assert (filter (λ it : nat * (string * nat), in_catalog [] ds it.2)
            (enumerate (samples ds)) = []) as ->.
  { induction (enumerate (samples ds)) as [|it its IH]; [done|].
    rewrite filter_cons, IH. rewrite decide_False; [done|].
    unfold in_catalog. destruct (raw_class ds it.2); [|by intros []].
    rewrite bool_decide_eq_false_2; [by intros [] | apply not_elem_of_nil]. }
  done.
Qed.

Lemma empty_catalog_gives_empty_index_witness :
  wf_ImageFolder demo_folder ∧
  FilteredDataset_init demo_folder [] =
    inr {| dataset := demo_folder; class_to_idx := ∅;
           filtered_indices := []; targets := [] |}.
Proof.
  split.
  - exact demo_folder_wf.
  - exact (empty_catalog_gives_empty_index demo_folder demo_folder_wf).
Defined.

(** C8, counterexample: on the demo corpus the empty catalog yields a
    filtered dataset of length 0 instead of an error. *)
Lemma empty_catalog_is_not_rejected :
  ∃ fd, FilteredDataset_init demo_folder [] = inr fd ∧
        FilteredDataset_len fd = 0.
Proof. eexists. split; reflexivity. Qed.

(** ** [TransformSubset] and the split views *)

(** C10: when the wrapped subset returns [(image, label)] at [idx],
    [TransformSubset.__getitem__] returns the same label next to the
    transformed image (the image itself when no transform is set), and
    [TransformSubset.__len__] is the length of the wrapped subset. *)
Theorem TransformSubset_keeps_label {Image} `{Dataset Image Sub}
    (self : TransformSubset Image Sub) (idx : Z) (image : Image) (label : nat) :
  ds_getitem (subset self) idx = inr (image, label) →
  ds_getitem self idx =
    inr (match transform self with Some f => f image | None => image end,
         label) ∧
  ds_len self = ds_len (subset self).
Proof.
  intros Hsub. split; [|done].
  cbn [ds_getitem TransformSubset_Dataset]. unfold TransformSubset_getitem.
  by rewrite Hsub.
Qed.

(** C9 (as the code has it): a split view raises [IndexError] for
    [i >= len] and for [i < -len]; for [-len <= i < 0] it does what it
    does at [i + len]; and for [0 <= i < len] it does what the wrapped
    dataset does at position [indices[i]]: it returns the transformed
    image and the label when the wrapped dataset returns an image and a
    label there, and raises what the wrapped dataset raises otherwise. *)
Theorem split_view_index_range {Image} `{Dataset Image D}
    (view : TransformSubset Image (Subset D)) (i : Z) :
  ((i < - Z.of_nat (ds_len view) ∨ Z.of_nat (ds_len view) ≤ i)%Z →
     ds_getitem view i = inl IndexError) ∧
  ((- Z.of_nat (ds_len view) ≤ i < 0)%Z →
     ds_getitem view i = ds_getitem view (i + Z.of_nat (ds_len view))) ∧
  ((0 ≤ i < Z.of_nat (ds_len view))%Z →
     ∃ p, indices (subset view) !! Z.to_nat i = Some p ∧
       ds_getitem view i =
         match ds_getitem (sub_dataset (subset view)) (Z.of_nat p) with
         | inl e => inl e
         | inr (image, label) =>
             inr (match transform view with
                  | Some f => f image
                  | None => image
                  end, label)
         end).
Proof.
  cbn [ds_getitem ds_len TransformSubset_Dataset Subset_Dataset].
  unfold TransformSubset_len, TransformSubset_getitem.
  cbn [ds_getitem ds_len TransformSubset_Dataset Subset_Dataset].
  unfold Subset_getitem. split_and!; intros Hi.
  - by rewrite py_getitem_out_of_range.
  - by rewrite py_getitem_negative.
  - replace (py_getitem (indices (subset view)) i)
      with (py_getitem (indices (subset view)) (Z.of_nat (Z.to_nat i)))
      by (by rewrite Z2Nat.id by lia).
    rewrite py_getitem_nat.
    destruct (lookup_lt_is_Some_2 (indices (subset view)) (Z.to_nat i))
      as [p Hp]; [lia|].
    exists p. split; [done|]. rewrite Hp. cbn [bind].
    by destruct (ds_getitem (sub_dataset (subset view)) (Z.of_nat p))
      as [e|[image label]].
Qed.

(** What a view over a filtered dataset returns at a position it holds:
    the transformed image of the sample behind it and its remapped label. *)
Lemma split_view_getitem {Image} (fd : FilteredDataset Image)
    (idxs : list nat) (f : Image → Image) (i p o t label : nat)
    (path : string) (image : Image) :
  idxs !! i = Some p →
  filtered_indices fd !! p = Some o →
  targets fd !! p = Some t →
  samples (dataset fd) !! o = Some (path, label) →
  loader (dataset fd) path = inr image →
  ds_getitem {| subset := {| sub_dataset := fd; indices := idxs |};
                transform := Some f |} (Z.of_nat i) = inr (f image, t).
Proof.
  intros Hp Ho Ht Hs Himg.
  cbn [ds_getitem TransformSubset_Dataset]. unfold TransformSubset_getitem.
  cbn [ds_getitem Subset_Dataset subset]. unfold Subset_getitem.
  cbn [indices sub_dataset]. rewrite py_getitem_nat, Hp. cbn [bind].
  cbn [ds_getitem FilteredDataset_Dataset]. unfold FilteredDataset_getitem.
  rewrite !py_getitem_nat, Ho, Ht. cbn [bind].
  cbn [ds_getitem ImageFolder_Dataset]. unfold ImageFolder_getitem.
  rewrite py_getitem_nat, Hs. cbn [bind]. by rewrite Himg.
Qed.

Example demo_filtered_init :
  FilteredDataset_init demo_folder class_names = inr demo_filtered.
Proof. reflexivity. Qed.

Example demo_view_getitem :
  ds_getitem demo_view 1 = inr ("val:platelet/img.jpg"%string, 7) ∧
  ds_getitem demo_view 3 = inl IndexError ∧
  ds_len demo_view = 3.
Proof. repeat split. Qed.

Lemma TransformSubset_keeps_label_witness :
  ds_getitem (subset demo_view) 1 = inr ("platelet/img.jpg"%string, 7) ∧
  ds_getitem demo_view 1 = inr ("val:platelet/img.jpg"%string, 7) ∧
  ds_len demo_view = ds_len (subset demo_view).
Proof.
  split.
  - reflexivity.
  - apply (TransformSubset_keeps_label demo_view 1 "platelet/img.jpg"%string 7).
    reflexivity.
Defined.

(** C9, counterexample: the index [-1] lies outside [0, len), yet the view
    returns its last item instead of raising. *)
Lemma split_view_negative_index_returns :
  ¬ (0 ≤ -1 < Z.of_nat (ds_len demo_view))%Z ∧
  ds_getitem demo_view (-1) = inr ("val:basophil/img.jpg"%string, 0).
Proof. split; [lia | reflexivity]. Qed.

(** ** [np.unique] on labels *)

Lemma elem_of_insert_unique (x y : nat) (l : list nat) :
  y ∈ insert_unique x l ↔ y = x ∨ y ∈ l.
Proof.
  induction l as [|z l IH]; simpl.
  - rewrite list_elem_of_singleton, elem_of_nil. tauto.
  - destruct (Nat.ltb_spec x z); [by rewrite elem_of_cons|].
    destruct (Nat.eqb_spec x z) as [->|Hne].
    + rewrite elem_of_cons. tauto.
    + rewrite !elem_of_cons, IH. tauto.
Qed.

Lemma elem_of_np_unique (x : nat) (a : list nat) : x ∈ np_unique a ↔ x ∈ a.
Proof.
  unfold np_unique. induction a as [|y a IH]; simpl; [done|].
  rewrite elem_of_insert_unique, IH, elem_of_cons. tauto.
Qed.

(** ** binary64: what [1.0 / n] is worth *)

Lemma digits2_pos_size (p : positive) : digits2_pos p = Pos.size p.
Proof. induction p as [p IH|p IH|]; simpl; by rewrite ?IH. Qed.

Lemma digits2_pos_bounds (p : positive) :
  (2 ^ (Z.pos (digits2_pos p) - 1) ≤ Z.pos p < 2 ^ Z.pos (digits2_pos p))%Z.
Proof.
  rewrite digits2_pos_size. induction p as [p IH|p IH|]; [| |simpl; lia].
  - cbn [Pos.size]. rewrite Pos2Z.inj_succ.
    replace (Z.succ (Z.pos (Pos.size p)) - 1)%Z
      with (Z.succ (Z.pos (Pos.size p) - 1)) by lia.
    rewrite !Z.pow_succ_r by lia. lia.
  - cbn [Pos.size]. rewrite Pos2Z.inj_succ.
    replace (Z.succ (Z.pos (Pos.size p)) - 1)%Z
      with (Z.succ (Z.pos (Pos.size p) - 1)) by lia.
    rewrite !Z.pow_succ_r by lia. lia.
Qed.

Lemma digits2_pos_unique (p : positive) (d : Z) :
  (2 ^ (d - 1) ≤ Z.pos p < 2 ^ d)%Z → Z.pos (digits2_pos p) = d.
Proof.
  intros [Hlo Hhi]. pose proof (digits2_pos_bounds p) as [Hlo' Hhi'].
  set (D := Z.pos (digits2_pos p)) in *.
  assert (0 < d)%Z as Hd.
  { destruct (Z.ltb_spec 0 d) as [|Hneg]; [done|].
    rewrite (Z.pow_neg_r 2 (d - 1)) in Hlo by lia.
    destruct d as [|d|d]; [simpl in Hhi; lia | lia |].
    rewrite Z.pow_neg_r in Hhi by lia. lia. }
  destruct (Z.lt_trichotomy D d) as [Hlt|[Heq|Hgt]]; [|done|].
  - assert (2 ^ D ≤ 2 ^ (d - 1))%Z by (apply Z.pow_le_mono_r; lia). lia.
  - assert (2 ^ d ≤ 2 ^ (D - 1))%Z by (apply Z.pow_le_mono_r; lia). lia.
Qed.

Lemma iter_xO_pow (m k : positive) :
  Z.pos (Pos.iter xO m k) = (Z.pos m * 2 ^ Z.pos k)%Z.
Proof.
  induction k as [|k IH] using Pos.peano_ind.
  - simpl. lia.
  - rewrite Pos.iter_succ, Pos2Z.inj_succ, Z.pow_succ_r by lia.
    change (Z.pos (Pos.iter xO m k)~0) with (2 * Z.pos (Pos.iter xO m k))%Z.
    rewrite IH. lia.
Qed.

Lemma fexp_normal (e : Z) :
  (-1021 ≤ e)%Z → fexp prec emax e = (e - 53)%Z.
Proof. unfold fexp, SpecFloat.emin, prec, emax. lia. Qed.

(** A mantissa of 53 bits is left as it is. *)
Lemma binary_round_aux_normal (s : bool) (m : positive) (e : Z) :
  Z.pos (digits2_pos m) = 53%Z → (-1074 ≤ e ≤ 971)%Z →
  binary_round_aux prec emax s (Z.pos m) e loc_Exact = S754_finite s m e.
Proof.
  intros Hd He. unfold binary_round_aux, shr_fexp. cbn [Zdigits2].
  rewrite Hd, fexp_normal by lia.
  replace (53 + e - 53 - e)%Z with 0%Z by lia. cbn.
  rewrite Hd, fexp_normal by lia.
  replace (53 + e - 53 - e)%Z with 0%Z by lia. cbn.
  destruct (Z.leb_spec e (emax - prec)) as [|Hgt]; [done|].
  unfold emax, prec in Hgt. lia.
Qed.

(** [float(n)] for [0 < n < 2^53] is exact: the mantissa is [n] shifted
    to 53 bits. *)
Lemma float_of_nat_normal (p : positive) :
  (Z.pos p < 2 ^ 53)%Z →
  ∃ N k, float_of_nat (Pos.to_nat p) = S754_finite false N (- k) ∧
    (0 ≤ k ≤ 52)%Z ∧ Z.pos N = (Z.pos p * 2 ^ k)%Z ∧
    Z.pos (digits2_pos N) = 53%Z.
Proof.
  intros Hp. unfold float_of_nat. rewrite positive_nat_Z.
  cbn [binary_normalize]. unfold binary_round.
  pose proof (digits2_pos_bounds p) as [Hlo Hhi].
  set (d := Z.pos (digits2_pos p)) in *.
  assert (1 ≤ d ≤ 53)%Z as Hd.
  { split; [unfold d; lia|].
    destruct (Z.leb_spec d 53) as [|Hgt]; [done|].
    assert (2 ^ 53 ≤ 2 ^ (d - 1))%Z by (apply Z.pow_le_mono_r; lia). lia. }
  rewrite Z.add_0_r, fexp_normal by lia. unfold shl_align.
  rewrite Z.sub_0_r.
  destruct (d - 53)%Z as [|k|k] eqn:Hk; [|lia|].
  - assert (d = 53%Z) as Hd53 by lia.
    exists p, 0%Z. rewrite binary_round_aux_normal by (fold d; lia).
    split; [done|]. split; [lia|]. split; [lia | by fold d].
  - assert (Z.pos (digits2_pos (Pos.iter xO p k)) = 53%Z) as Hdig.
    { apply digits2_pos_unique. rewrite iter_xO_pow.
      replace 53%Z with (d + Z.pos k)%Z by lia.
      replace (d + Z.pos k - 1)%Z with (d - 1 + Z.pos k)%Z by lia.
      rewrite !Z.pow_add_r by lia.
      assert (0 < 2 ^ Z.pos k)%Z by (apply Z.pow_pos_nonneg; lia). nia. }
    exists (Pos.iter xO p k), (Z.pos k).
    rewrite binary_round_aux_normal by (try done; lia).
    split; [done|]. split; [lia|]. split; [apply iter_xO_pow | done].
Qed.

Lemma shr_record_of_loc_m (m : Z) (l : location) :
  shr_m (shr_record_of_loc m l) = m.
Proof. by destruct l as [|[]]. Qed.

Lemma loc_of_shr_record_of_loc (m : Z) (l : location) :
  loc_of_shr_record (shr_record_of_loc m l) = l.
Proof. by destruct l as [|[]]. Qed.

Lemma round_nearest_even_range (q : Z) (l : location) :
  (q ≤ round_nearest_even q l ≤ q + 1)%Z.
Proof. destruct l as [|[]]; simpl; try destruct (Z.even q); lia. Qed.

(** Rounding the quotient [q] with remainder [r] of a division by [N] to
    the nearest, ties to even, errs by at most half of [N]. *)
Lemma round_nearest_even_error (N q r : Z) :
  (0 < N)%Z → (0 ≤ r < N)%Z →
  (2 * Z.abs (N * round_nearest_even q (new_location N r) - (N * q + r)) ≤ N)%Z.
Proof.
  intros HN Hr. unfold new_location, new_location_even, new_location_odd.
  assert (N * (q + 1) - (N * q + r) = N - r)%Z as Hup by ring.
  assert (N * q - (N * q + r) = - r)%Z as Hdown by ring.
  destruct (Z.even N); destruct (Z.eqb_spec r 0) as [->|Hr0];
    cbn [round_nearest_even]; rewrite ?Hdown; try lia.
  - destruct (Z.compare_spec (2 * r) N); cbn [round_nearest_even];
      try destruct (Z.even q); rewrite ?Hup, ?Hdown; lia.
  - destruct (Z.compare_spec (2 * r + 1) N); cbn [round_nearest_even];
      rewrite ?Hup, ?Hdown; lia.
Qed.

(** A quotient of 53 bits needs no shift before it is rounded, and one
    shift after when rounding carries into a 54th bit. *)
Lemma binary_round_aux_quotient (s : bool) (q e : Z) (l : location) :
  (2 ^ 52 ≤ q < 2 ^ 53)%Z → (-1074 ≤ e ≤ 970)%Z →
  ∃ m e', binary_round_aux prec emax s q e l = S754_finite s m e' ∧
    ((Z.pos m = round_nearest_even q l ∧ e' = e) ∨
     (round_nearest_even q l = 2 ^ 53 ∧ Z.pos m = 2 ^ 52 ∧ e' = e + 1)%Z).
Proof.
  intros Hq He. destruct q as [|qp|qp]; try lia.
  unfold binary_round_aux, shr_fexp. cbn [Zdigits2].
  rewrite (digits2_pos_unique qp 53) by (change (53 - 1)%Z with 52%Z; lia).
  rewrite fexp_normal by lia.
  replace (53 + e - 53 - e)%Z with 0%Z by lia. cbn [shr].
  rewrite shr_record_of_loc_m, loc_of_shr_record_of_loc.
  pose proof (round_nearest_even_range (Z.pos qp) l) as Hq'.
  set (q' := round_nearest_even (Z.pos qp) l) in *.
  destruct q' as [|m|m] eqn:Hm; try lia.
  destruct (Z.ltb_spec (Z.pos m) (2 ^ 53)) as [Hlt|Hge].
  - cbn [Zdigits2].
    rewrite (digits2_pos_unique m 53) by (change (53 - 1)%Z with 52%Z; lia).
    rewrite fexp_normal by lia.
    replace (53 + e - 53 - e)%Z with 0%Z by lia. cbn.
    destruct (Z.leb_spec e (emax - prec)) as [|Hgt];
      [|unfold emax, prec in Hgt; lia].
    exists m, e. split; [done | by left].
  - assert (Z.pos m = 2 ^ 53)%Z as Heq by lia.
    change (2 ^ 53)%Z with (Z.pos 9007199254740992) in Heq.
    injection Heq as ->. cbn [Zdigits2].
    change (Z.pos (digits2_pos 9007199254740992)) with 54%Z.
    rewrite fexp_normal by lia.
    replace (54 + e - 53 - e)%Z with 1%Z by lia. cbn.
    destruct (Z.leb_spec (e + 1) (emax - prec)) as [|Hgt];
      [|unfold emax, prec in Hgt; lia].
    exists 4503599627370496%positive, (e + 1)%Z. split; [done|]. by right.
Qed.

Lemma shr_fexp_normal (m : positive) (e : Z) (l : location) :
  Z.pos (digits2_pos m) = 53%Z → (-1074 ≤ e)%Z →
  shr_fexp prec emax (Z.pos m) e l = (shr_record_of_loc (Z.pos m) l, e).
Proof.
  intros Hd He. unfold shr_fexp. cbn [Zdigits2].
  rewrite Hd, fexp_normal by lia.
  by replace (53 + e - 53 - e)%Z with 0%Z by lia.
Qed.

Lemma shr_fexp_carry (e : Z) :
  (-1074 ≤ e)%Z →
  shr_fexp prec emax 9007199254740992 e loc_Exact
  = ({| shr_m := 4503599627370496; shr_r := false; shr_s := false |},
     (e + 1)%Z).
Proof.
  intros He. unfold shr_fexp.
  change (Zdigits2 9007199254740992) with 54%Z.
  rewrite fexp_normal by lia.
  by replace (54 + e - 53 - e)%Z with 1%Z by lia.
Qed.

Lemma binary_round_aux_carry (s : bool) (e : Z) :
  (-1074 ≤ e ≤ 970)%Z →
  binary_round_aux prec emax s (2 ^ 53) e loc_Exact
  = S754_finite s 4503599627370496 (e + 1).
Proof.
  intros He. change (2 ^ 53)%Z with 9007199254740992%Z.
  unfold binary_round_aux. rewrite shr_fexp_carry by lia.
  cbn [shr_m loc_of_shr_record round_nearest_even].
  rewrite shr_fexp_normal by (done || lia).
  cbn [shr_m shr_record_of_loc].
  destruct (Z.leb_spec (e + 1) (emax - prec)) as [|Hgt]; [done|].
  unfold emax, prec in Hgt. lia.
Qed.

(** [1.0 / y] for a normal [y = N * 2^-k]: the quotient [2^105 / N] rounded
    to the nearest, ties to even. *)
Lemma float_div_one_normal (N : positive) (k : Z) :
  Z.pos (digits2_pos N) = 53%Z → (0 ≤ k ≤ 52)%Z →
  ∃ m e q',
    float_div float_one (S754_finite false N (- k))
    = S754_finite false m e ∧
    (2 * Z.abs (Z.pos N * q' - 2 ^ 105) ≤ Z.pos N)%Z ∧
    ((Z.pos m = q' ∧ e = k - 105) ∨
     (q' = 2 ^ 53 ∧ Z.pos m = 2 ^ 52 ∧ e = k - 104))%Z.
Proof.
  intros HdN Hk.
  pose proof (digits2_pos_bounds N) as HN. rewrite HdN in HN.
  change (53 - 1)%Z with 52%Z in HN.
  unfold float_div, float_one. cbn [SFdiv xorb]. unfold SFdiv_core_binary.
  cbn [Zdigits2]. rewrite HdN.
  change (Z.pos (digits2_pos 4503599627370496)) with 53%Z.
  rewrite fexp_normal by lia.
  replace (Z.min (53 + -52 - (53 + - k) - 53) (-52 - - k))%Z
    with (k - 105)%Z by lia.
  replace (-52 - - k - (k - 105))%Z with 53%Z by lia.
  change (Z.shiftl 4503599627370496 53) with (2 ^ 105)%Z.
  pose proof (Z_div_mod (2 ^ 105) (Z.pos N) ltac:(lia)) as Hdiv.
  destruct (Z.div_eucl (2 ^ 105) (Z.pos N)) as [q r].
  destruct Hdiv as [Hqr Hr].
  assert (2 ^ 52 ≤ q ≤ 2 ^ 53)%Z as Hq.
  { change (2 ^ 105)%Z with (2 ^ 52 * 2 ^ 53)%Z in Hqr. nia. }
  destruct (Z.eq_dec q (2 ^ 53)%Z) as [->|Hne].
  - assert (r = 0 ∧ Z.pos N = 2 ^ 52)%Z as [-> HN52].
    { change (2 ^ 105)%Z with (2 ^ 52 * 2 ^ 53)%Z in Hqr. nia. }
    change (2 ^ 52)%Z with (Z.pos 4503599627370496) in HN52.
    injection HN52 as ->.
    change (new_location 4503599627370496 0) with loc_Exact.
    rewrite binary_round_aux_carry by lia.
    exists 4503599627370496%positive, (k - 104)%Z, (2 ^ 53)%Z.
    split; [f_equal; lia|]. split; [done|]. by right.
  - pose proof (round_nearest_even_error (Z.pos N) q r ltac:(lia) Hr) as Herr.
    rewrite <- Hqr in Herr.
    destruct (binary_round_aux_quotient false q (k - 105)
                (new_location (Z.pos N) r)) as (m & e & -> & Hme); [lia..|].
    exists m, e, (round_nearest_even q (new_location (Z.pos N) r)).
    split; [done|]. split; [done|].
    destruct Hme as [[Hm ->]|(Hq' & Hm & ->)]; [by left|].
    right. split_and!; [done | done | lia].
Qed.

(** [1.0 / n] for [0 < n < 2^53] is a positive float [m * 2^-E] with
    [|n * m - 2^E| < 2^(E - 53)]: the quotient is off by less than
    [2^-53] of its value. *)
Lemma float_div_one_of_pos (p : positive) :
  (Z.pos p < 2 ^ 53)%Z →
  ∃ m E,
    float_div float_one (float_of_nat (Pos.to_nat p))
    = S754_finite false m (- E) ∧
    (0 ≤ E)%Z ∧
    (2 ^ 53 * Z.abs (Z.pos p * Z.pos m - 2 ^ E) < 2 ^ E)%Z.
Proof.
  intros Hp.
  destruct (float_of_nat_normal p Hp) as (N & k & -> & Hk & HN & HdN).
  destruct (float_div_one_normal N k HdN Hk) as (m & e & q' & -> & Herr & Hme).
  pose proof (digits2_pos_bounds N) as HNb. rewrite HdN in HNb.
  change (53 - 1)%Z with 52%Z in HNb.
  assert (0 < 2 ^ k)%Z as HK by (apply Z.pow_pos_nonneg; lia).
  set (K := (2 ^ k)%Z) in *.
  destruct Hme as [[Hm ->]|(Hq' & Hm & ->)].
  - exists m, (105 - k)%Z. split; [f_equal; lia|]. split; [lia|].
    assert (2 ^ 105 = 2 ^ (105 - k) * K)%Z as H105.
    { unfold K. rewrite <- Z.pow_add_r by lia. f_equal. lia. }
    assert (2 ^ 53 = 2 ^ (53 - k) * K)%Z as H53.
    { unfold K. rewrite <- Z.pow_add_r by lia. f_equal. lia. }
    assert (2 ^ (105 - k) = 2 ^ 52 * 2 ^ (53 - k))%Z as HE.
    { rewrite <- Z.pow_add_r by lia. f_equal. lia. }
    set (T := (2 ^ (105 - k))%Z) in *. set (S := (2 ^ (53 - k))%Z) in *.
    assert (Z.pos N * q' - 2 ^ 105 = K * (Z.pos p * Z.pos m - T))%Z as Hfact.
    { rewrite HN, H105, Hm. ring. }
    rewrite Hfact, Z.abs_mul, (Z.abs_eq K) in Herr by lia.
    assert (Z.pos p < S)%Z by nia.
    assert (2 * Z.abs (Z.pos p * Z.pos m - T) ≤ Z.pos p)%Z by nia.
    change (2 ^ 53)%Z with (2 * 2 ^ 52)%Z. nia.
  - exists m, (104 - k)%Z. split; [f_equal; lia|]. split; [lia|].
    assert (Z.pos N = 2 ^ 52)%Z as HN52.
    { rewrite Hq' in Herr.
      change (2 ^ 105)%Z with (2 ^ 52 * 2 ^ 53)%Z in Herr. nia. }
    assert (2 ^ 104 = 2 ^ (104 - k) * K)%Z as H104.
    { unfold K. rewrite <- Z.pow_add_r by lia. f_equal. lia. }
    assert (Z.pos p * Z.pos m - 2 ^ (104 - k) = 0)%Z as ->.
    { assert (K * (Z.pos p * Z.pos m - 2 ^ (104 - k)) = 0)%Z; [|nia].
      rewrite Hm. change (2 ^ 104)%Z with (2 ^ 52 * 2 ^ 52)%Z in H104. nia. }
    assert (0 < 2 ^ (104 - k))%Z by (apply Z.pow_pos_nonneg; lia).
    simpl. lia.
Qed.

Lemma Qpower_2_opp (E : Z) :
  (0 ≤ E)%Z → (2 ^ (- E) == 1 / inject_Z (2 ^ E))%Q.
Proof.
  intros HE. rewrite Qpower_opp.
  rewrite (Zpower_Qpower 2 E HE). change (inject_Z 2) with 2%Q.
  unfold Qdiv. ring.
Qed.

Lemma Qabs_quotient_lt (z T : Z) (P : positive) :
  (0 < T)%Z → (Z.pos P * Z.abs z < T)%Z →
  (Qabs (inject_Z z / inject_Z T) < 1 # P)%Q.
Proof.
  intros HT Hz. destruct T as [|T|T]; try lia.
  apply Qabs_Qlt_condition.
  unfold Qlt, Qdiv, Qopp, Qmult, Qinv, inject_Z. cbn [Qnum Qden].
  split; nia.
Qed.

(** The value of [1.0 / n] is within [2^-53 / n] of [1 / n]. *)
Lemma float_inverse_error (n : nat) :
  0 < n → (Z.of_nat n < 2 ^ 53)%Z →
  ∃ m e,
    float_div float_one (float_of_nat n) = S754_finite false m e ∧
    (Qabs (inject_Z (Z.of_nat n) * float_value (S754_finite false m e) - 1)
     < half_ulp)%Q.
Proof.
  intros Hpos Hn.
  rewrite <- (Nat2Pos.id n) by lia. set (p := Pos.of_nat n).
  rewrite positive_nat_Z.
  assert (Z.pos p = Z.of_nat n) as Hp.
  { unfold p. rewrite <- positive_nat_Z, Nat2Pos.id by lia. done. }
  destruct (float_div_one_of_pos p ltac:(lia)) as (m & E & -> & HE & Herr).
  exists m, (- E)%Z. split; [done|].
  cbn [float_value]. rewrite Qpower_2_opp by done.
  assert (0 < 2 ^ E)%Z as HT by (apply Z.pow_pos_nonneg; lia).
  assert (inject_Z (Z.pos p) * (inject_Z (Z.pos m) * (1 / inject_Z (2 ^ E))) - 1
          == inject_Z (Z.pos p * Z.pos m - 2 ^ E) / inject_Z (2 ^ E))%Q as ->.
  { unfold Z.sub. rewrite inject_Z_plus, inject_Z_mult, inject_Z_opp.
    field. intros H0.
    assert (inject_Z (2 ^ E) == inject_Z 0)%Q as Heq by done.
    apply -> inject_Z_injective in Heq. lia. }
  unfold half_ulp. apply Qabs_quotient_lt; [done|].
  change (Z.pos 9007199254740992) with (2 ^ 53)%Z. done.
Qed.

Lemma float_value_pos (m : positive) (e : Z) :
  (0 < float_value (S754_finite false m e))%Q.
Proof.
  cbn [float_value]. apply Qmult_lt_0_compat; [done|].
  by apply Qpower_0_lt.
Qed.

Example float_one_value :
  float_of_nat 1 = float_one ∧ (float_value float_one == 1)%Q.
Proof. split; reflexivity. Qed.


(** ** The class-balanced weights *)

Lemma zip_map_diag {A B} (f : A → B) (l : list A) :
  zip l (map f l) = map (λ x, (x, f x)) l.
Proof. induction l as [|x l IH]; simpl; by f_equal. Qed.

Lemma class_weights_lookup {A} (h : nat → A) (n : nat → nat) (ks : list nat)
    (d : gmap nat A) (k : nat) :
  foldl (λ d '(cls, count), <[cls := h count]> d) d (map (λ c, (c, n c)) ks) !! k =
    if decide (k ∈ ks) then Some (h (n k)) else d !! k.
Proof.
  revert d. induction ks as [|c ks IH]; intros d; [done|].
  cbn [map foldl]. rewrite IH. destruct (decide (k ∈ ks)) as [Hin|Hnin].
  - rewrite decide_True; [done | by right].
  - destruct (decide (k = c)) as [->|Hne].
    + rewrite decide_True by by left. by rewrite lookup_insert_eq.
    + rewrite decide_False by (by intros [?|?]%elem_of_cons).
      by rewrite lookup_insert_ne.
Qed.

Lemma list_comprehension_map {A B} (f : A → result B) (g : A → B) (l : list A) :
  (∀ x, x ∈ l → f x = inr (g x)) → list_comprehension f l = inr (map g l).
Proof.
  induction l as [|x l IH]; intros Hf; [done|].
  simpl. rewrite Hf by by left. simpl.
  rewrite IH by (intros y Hy; apply Hf; by right). done.
Qed.

Lemma compute_sample_weights_eq (train_targets : list nat) :
  compute_sample_weights train_targets =
    inr (map (inverse_frequency train_targets) train_targets).
Proof.
  unfold compute_sample_weights. apply list_comprehension_map.
  intros t Ht. unfold dict_getitem.
  rewrite zip_map_diag.
  rewrite (class_weights_lookup
             (λ count, float_div float_one (float_of_nat count))
             (λ c, count_of c train_targets)).
  rewrite decide_True by by apply elem_of_np_unique.
  done.
Qed.

Lemma count_of_cons (c t : nat) (l : list nat) :
  count_of c (t :: l) = (if decide (t = c) then 1 else 0) + count_of c l.
Proof. unfold count_of. rewrite filter_cons. by case_decide. Qed.

Lemma count_of_pos (c : nat) (l : list nat) : c ∈ l → 0 < count_of c l.
Proof.
  intros Hc. unfold count_of.
  assert (c ∈ filter (λ y, y = c) l) as Hin by by apply list_elem_of_filter.
  destruct (filter _ l); [by apply elem_of_nil in Hin | simpl; lia].
Qed.

Lemma sum_Q_cons (q : Q) (l : list Q) : sum_Q (q :: l) = (q + sum_Q l)%Q.
Proof. done. Qed.

Lemma weights_of_class_map {A} (g : nat → A) (c : nat) (labels : list nat) :
  weights_of_class c labels (map g labels)
  = replicate (count_of c labels) (g c).
Proof.
  unfold weights_of_class. induction labels as [|t labels IH]; [done|].
  cbn [map zip zip_with]. rewrite filter_cons, count_of_cons. cbn [fst].
  destruct (decide (t = c)) as [->|Hne].
  - cbn [map snd]. by rewrite IH.
  - by rewrite IH.
Qed.

Lemma sum_Q_replicate (n : nat) (q : Q) :
  (sum_Q (replicate n q) == inject_Z (Z.of_nat n) * q)%Q.
Proof.
  induction n as [|n IH].
  - change (0 == inject_Z 0 * q)%Q. ring.
  - cbn [replicate]. rewrite sum_Q_cons, IH.
    rewrite Nat2Z.inj_succ, <- Z.add_1_l, inject_Z_plus.
    change (inject_Z 1) with 1%Q. ring.
Qed.

(** The weights of a class are as many copies of one float as the class
    has members. *)
Lemma sum_weights_of_class (g : nat → float) (c : nat) (labels : list nat) :
  (sum_Q (map float_value (weights_of_class c labels (map g labels)))
   == inject_Z (Z.of_nat (count_of c labels)) * float_value (g c))%Q.
Proof.
  rewrite weights_of_class_map. induction (count_of c labels) as [|n IH].
  - change (0 == inject_Z 0 * float_value (g c))%Q. ring.
  - cbn [replicate map]. rewrite sum_Q_cons, IH.
    rewrite Nat2Z.inj_succ, <- Z.add_1_l, inject_Z_plus.
    change (inject_Z 1) with 1%Q. ring.
Qed.

Lemma count_of_lt_length (c : nat) (l : list nat) :
  (Z.of_nat (length l) < 2 ^ 53)%Z → (Z.of_nat (count_of c l) < 2 ^ 53)%Z.
Proof.
  intros Hl. assert (count_of c l ≤ length l); [|lia].
  unfold count_of. apply length_filter.
Qed.

(** C2 (as the code has it): for fewer than [2^53] training labels, the
    weights are computed without error, one per training label and in the
    same order; the weight at a position of class [t] is the binary64
    quotient [1.0 / n_t], [n_t] the number of training labels equal to
    [t]: a positive finite float whose value [w] has
    [|n_t * w - 1| < 2^-53]; and the exact sum of the weights at the
    positions of any class present is within [2^-53] of 1. *)
Theorem sample_weights_correct (train_targets : list nat) :
  (Z.of_nat (length train_targets) < 2 ^ 53)%Z →
  ∃ w, compute_sample_weights train_targets = inr w ∧
    length w = length train_targets ∧
    (∀ i t, train_targets !! i = Some t →
       ∃ m e,
         w !! i = Some (S754_finite false m e) ∧
         S754_finite false m e
         = float_div float_one (float_of_nat (count_of t train_targets)) ∧
         (Qabs (inject_Z (Z.of_nat (count_of t train_targets))
                * float_value (S754_finite false m e) - 1) < half_ulp)%Q) ∧
    (∀ c, c ∈ train_targets →
       (Qabs (sum_Q (map float_value (weights_of_class c train_targets w)) - 1)
        < half_ulp)%Q).
Proof.
  intros Hlen. eexists. split; [apply compute_sample_weights_eq|]. split_and!.
  - by rewrite length_map.
  - intros i t Ht. rewrite list_lookup_fmap, Ht.
    cbn [fmap option_fmap option_map]. unfold inverse_frequency.
    destruct (float_inverse_error (count_of t train_targets))
      as (m & e & Heq & Hbound).
    { apply count_of_pos. by eapply list_elem_of_lookup_2. }
    { by apply count_of_lt_length. }
    exists m, e. by rewrite Heq.
  - intros c Hc. rewrite sum_weights_of_class. unfold inverse_frequency.
    destruct (float_inverse_error (count_of c train_targets))
      as (m & e & -> & Hbound);
      [by apply count_of_pos | by apply count_of_lt_length | done].
Qed.

Lemma sample_weights_correct_witness :
  (Z.of_nat (length three_and_one) < 2 ^ 53)%Z ∧
  ∃ w, compute_sample_weights three_and_one = inr w ∧
    length w = length three_and_one ∧
    (∀ i t, three_and_one !! i = Some t →
       ∃ m e,
         w !! i = Some (S754_finite false m e) ∧
         S754_finite false m e
         = float_div float_one (float_of_nat (count_of t three_and_one)) ∧
         (Qabs (inject_Z (Z.of_nat (count_of t three_and_one))
                * float_value (S754_finite false m e) - 1) < half_ulp)%Q) ∧
    (∀ c, c ∈ three_and_one →
       (Qabs (sum_Q (map float_value (weights_of_class c three_and_one w)) - 1)
        < half_ulp)%Q).
Proof.
  assert (Z.of_nat (length three_and_one) < 2 ^ 53)%Z as Hlen by reflexivity.
  split; [exact Hlen|].
  exact (sample_weights_correct three_and_one Hlen).
Defined.

(** C2, counterexample: six training labels of one class. Each weight is
    [1.0 / 6 = 6004799503160661 * 2^-55], which is not [1 / 6]; the six
    weights sum to [1 - 2^-54] in exact arithmetic and to [1 - 2^-53]
    when Python adds them up, not to 1. *)
Lemma six_sixths_fall_short_of_one :
  ∃ w, compute_sample_weights six_of_a_class = inr w ∧
    w = replicate 6 (S754_finite false 6004799503160661 (-55)) ∧
    ¬ (float_value (S754_finite false 6004799503160661 (-55)) == 1 # 6)%Q ∧
    ¬ (sum_Q (map float_value (weights_of_class 0 six_of_a_class w)) == 1)%Q ∧
    float_sum (weights_of_class 0 six_of_a_class w)
    = S754_finite false 9007199254740991 (-53) ∧
    float_sum (weights_of_class 0 six_of_a_class w) ≠ float_one.
Proof.
  exists (replicate 6 (S754_finite false 6004799503160661 (-55))).
  split; [vm_compute; reflexivity|]. split; [reflexivity|]. split_and!.
  - intros H. vm_compute in H. discriminate.
  - intros H. vm_compute in H. discriminate.
  - vm_compute. reflexivity.
  - vm_compute. discriminate.
Qed.

Example sample_weights_AAAB :
  compute_sample_weights [0; 0; 0; 1] =
    inr [S754_finite false 6004799503160661 (-54);
         S754_finite false 6004799503160661 (-54);
         S754_finite false 6004799503160661 (-54);
         float_one].
Proof. vm_compute. reflexivity. Qed.

Lemma insert_unique_sorted (x : nat) (l : list nat) :
  StronglySorted lt l → StronglySorted lt (insert_unique x l).
Proof.
  induction 1 as [|y l Hl IH Hy]; simpl.
  - repeat constructor.
  - destruct (Nat.ltb_spec x y) as [Hxy|Hxy].
    + constructor; [by constructor|]. constructor; [done|].
      eapply Forall_impl; [exact Hy|]. simpl. lia.
    + destruct (Nat.eqb_spec x y) as [->|Hne]; [by constructor|].
      constructor; [done|]. apply Forall_forall. intros z Hz.
      apply elem_of_insert_unique in Hz as [->|Hz]; [lia|].
      by eapply Forall_forall in Hy.
Qed.

Lemma np_unique_sorted (a : list nat) : StronglySorted lt (np_unique a).
Proof.
  unfold np_unique. induction a as [|x a IH]; simpl.
  - constructor.
  - by apply insert_unique_sorted.
Qed.

Lemma sorted_lt_NoDup (l : list nat) : StronglySorted lt l → NoDup l.
Proof.
  induction 1 as [|x l _ IH Hx]; constructor; [|done].
  intros Hin. eapply Forall_forall in Hx; [|done]. lia.
Qed.

Lemma np_unique_NoDup (a : list nat) : NoDup (np_unique a).
Proof. apply sorted_lt_NoDup, np_unique_sorted. Qed.

Lemma index_of_lookup (x : nat) (l : list nat) :
  x ∈ l → l !! index_of x l = Some x.
Proof.
  induction l as [|y l IH]; [by intros ?%elem_of_nil|].
  intros Hx. simpl. destruct (Nat.eqb_spec x y) as [->|Hne]; [done|].
  apply elem_of_cons in Hx as [?|Hx]; [done|]. by apply IH.
Qed.

Lemma index_of_unique (x : nat) (l : list nat) (i : nat) :
  NoDup l → l !! i = Some x → index_of x l = i.
Proof.
  intros Hnd Hi.
  assert (x ∈ l) as Hx by (apply list_elem_of_lookup; eauto).
  eapply NoDup_lookup; [done | by apply index_of_lookup | done].
Qed.

(** ** [np.where] *)

Lemma np_where_filter {A} (p : A → bool) (a : list A) :
  np_where p a = filter (λ i, holds_at p a i) (seq 0 (length a)).
Proof.
  unfold np_where. rewrite enumerate_from_0.
  transitivity (map fst (filter (λ it : nat * A, p it.2) (enumerate_from 0 a))).
  - induction (enumerate_from 0 a) as [|[i x] its IH]; [done|].
    rewrite filter_cons. cbn [omap list_omap snd]. rewrite IH.
    destruct (p x); [by rewrite decide_True | by rewrite decide_False by by intros []].
  - rewrite enumerate_from_filter_fst. apply filter_ext_elem.
    intros i _. by rewrite Nat.sub_0_r.
Qed.

Lemma elem_of_np_where {A} (p : A → bool) (a : list A) (i : nat) :
  i ∈ np_where p a ↔ ∃ x, a !! i = Some x ∧ p x = true.
Proof.
  rewrite np_where_filter, list_elem_of_filter, elem_of_seq. unfold holds_at.
  split.
  - intros [Hp _]. destruct (a !! i) as [x|]; [|done].
    exists x. split; [done|]. by apply Is_true_true.
  - intros (x & Hx & Hp). rewrite Hx. split; [by apply Is_true_true|].
    apply lookup_lt_Some in Hx. lia.
Qed.

Lemma np_where_NoDup {A} (p : A → bool) (a : list A) : NoDup (np_where p a).
Proof. rewrite np_where_filter. apply NoDup_filter, NoDup_seq. Qed.

Lemma np_where_length {A} (p : A → bool) (a : list A) :
  length (np_where p a) = length (filter (λ x, p x) a).
Proof.
  rewrite <- (enumerate_from_filter_snd p 0 a), length_map.
  rewrite np_where_filter.
  rewrite <- (length_map fst
                (filter (λ it : nat * A, p it.2) (enumerate_from 0 a))).
  rewrite enumerate_from_filter_fst. f_equal. apply filter_ext_elem.
  intros i _. by rewrite Nat.sub_0_r.
Qed.

(** ** Shuffling and drawing with a [RandomState] *)

Lemma np_take_clip_arange (a : list nat) :
  np_take_clip a (seq 0 (length a)) = a.
Proof.
  unfold np_take_clip. apply list_eq. intros i.
  rewrite list_lookup_fmap.
  destruct (decide (i < length a)) as [Hi|Hi].
  - rewrite lookup_seq_lt by done. cbn [fmap option_fmap option_map].
    replace (0 + i) with i by lia.
    replace (i `min` (length a - 1)) with i by lia.
    destruct (nth_lookup_or_length a i 0) as [->|]; [done | lia].
  - rewrite lookup_seq_ge by lia. by rewrite lookup_ge_None_2 by lia.
Qed.

Lemma np_take_clip_perm (a p : list nat) :
  p ≡ₚ seq 0 (length a) → np_take_clip a p ≡ₚ a.
Proof.
  intros Hp. rewrite <- (np_take_clip_arange a) at 2.
  unfold np_take_clip. by apply fmap_Permutation.
Qed.

Section RandomStateFacts.
Context `{RandomState}.

Lemma rs_shuffled_perm (rng : rs_state) (a : list nat) :
  (rs_shuffled rng a).1 ≡ₚ a.
Proof.
  unfold rs_shuffled.
  pose proof (rs_permutation_perm rng (length a)) as Hp.
  destruct (rs_permutation rng (length a)) as [p rng']. simpl in *.
  by apply np_take_clip_perm.
Qed.

(** A draw without replacement: distinct members of the population, as
    many as asked for when the population is large enough. *)
Lemma rs_choice_spec (rng : rs_state) (a : list nat) (size : nat) :
  NoDup a → size ≤ length a →
  NoDup (rs_choice rng a size).1 ∧
  (rs_choice rng a size).1 ⊆ a ∧
  length (rs_choice rng a size).1 = size.
Proof.
  intros Ha Hsize. unfold rs_choice.
  pose proof (rs_permutation_perm rng (length a)) as Hp.
  destruct (rs_permutation rng (length a)) as [p rng']. simpl in *.
  pose proof (np_take_clip_perm a p Hp) as Hperm.
  assert (np_take_clip a (take size p) = take size (np_take_clip a p)) as ->.
  { unfold np_take_clip. apply fmap_take. }
  split_and!.
  - eapply sublist_NoDup; [|apply sublist_take]. by rewrite Hperm.
  - intros x Hx. apply subseteq_take in Hx. by rewrite Hperm in Hx.
  - rewrite length_take, Hperm. lia.
Qed.
End RandomStateFacts.

(** ** Integer arrays: sums and in-place increments *)

Lemma np_sum_cons (x : Z) (l : list Z) : np_sum (x :: l) = (x + np_sum l)%Z.
Proof. done. Qed.

Lemma np_sum_alter (f : Z → Z) (i : nat) (l : list Z) (x : Z) :
  l !! i = Some x → np_sum (alter f i l) = (np_sum l - x + f x)%Z.
Proof.
  revert i. induction l as [|y l IH]; intros [|i] Hi; try done.
  - simpl in Hi. injection Hi as ->. cbn [alter list_alter]. rewrite !np_sum_cons. lia.
  - cbn [alter list_alter]. rewrite !np_sum_cons.
    fold (alter f i l). rewrite (IH i) by done. lia.
Qed.

Lemma add_at_length (inds : list nat) (a : list Z) :
  length (add_at inds a) = length a.
Proof. unfold add_at. apply length_imap. Qed.

Lemma add_at_lookup (inds : list nat) (a : list Z) (i : nat) :
  add_at inds a !! i =
    (λ x, if bool_decide (i ∈ inds) then (x + 1)%Z else x) <$> a !! i.
Proof. unfold add_at. apply list_lookup_imap. Qed.

Lemma add_at_nil (a : list Z) : add_at [] a = a.
Proof.
  apply list_eq. intros i. rewrite add_at_lookup.
  destruct (a !! i); [|done]. cbn.
  by rewrite bool_decide_eq_false_2 by apply not_elem_of_nil.
Qed.

Lemma add_at_cons (i : nat) (inds : list nat) (a : list Z) :
  i ∉ inds → add_at (i :: inds) a = alter (λ x, x + 1)%Z i (add_at inds a).
Proof.
  intros Hi. apply list_eq. intros j.
  destruct (decide (i = j)) as [<-|Hne].
  - rewrite list_lookup_alter_eq, !add_at_lookup.
    destruct (a !! i); [|done]. cbn.
    rewrite bool_decide_eq_true_2 by by left.
    by rewrite bool_decide_eq_false_2.
  - rewrite list_lookup_alter_ne by done. rewrite !add_at_lookup.
    destruct (a !! j); [|done]. cbn. f_equal.
    destruct (decide (j ∈ inds)).
    + rewrite !bool_decide_eq_true_2; [done | done | by right].
    + rewrite !bool_decide_eq_false_2; [done | done |].
      intros [?|?]%elem_of_cons; congruence.
Qed.

Lemma np_sum_add_at (inds : list nat) (a : list Z) :
  NoDup inds → (∀ i, i ∈ inds → i < length a) →
  np_sum (add_at inds a) = (np_sum a + Z.of_nat (length inds))%Z.
Proof.
  induction 1 as [|i inds Hi _ IH]; intros Hlt.
  - rewrite add_at_nil. simpl. lia.
  - rewrite add_at_cons by done.
    assert (i < length (add_at inds a)) as Hlen.
    { rewrite add_at_length. apply Hlt. by left. }
    apply lookup_lt_is_Some_2 in Hlen as [x Hx].
    rewrite (np_sum_alter _ _ _ x Hx).
    rewrite IH by (intros j Hj; apply Hlt; by right).
    cbn [length]. lia.
Qed.

Lemma add_at_add_at (s1 s2 : list nat) (a : list Z) :
  (∀ i, i ∈ s1 → i ∉ s2) → add_at s2 (add_at s1 a) = add_at (s1 ++ s2) a.
Proof.
  intros Hdisj. apply list_eq. intros i. rewrite !add_at_lookup.
  destruct (a !! i) as [x|]; [|done]. cbn. f_equal.
  destruct (decide (i ∈ s1)) as [H1|H1].
  - rewrite (bool_decide_eq_true_2 (i ∈ s1)) by done.
    rewrite (bool_decide_eq_false_2 (i ∈ s2)) by by apply Hdisj.
    rewrite bool_decide_eq_true_2; [done|]. apply elem_of_app. by left.
  - rewrite (bool_decide_eq_false_2 (i ∈ s1)) by done.
    destruct (decide (i ∈ s2)) as [H2|H2].
    + rewrite !bool_decide_eq_true_2; [done | | done].
      apply elem_of_app. by right.
    + rewrite !bool_decide_eq_false_2; [done | | done].
      rewrite elem_of_app. tauto.
Qed.

(** ** [_approximate_mode] *)

Lemma candidates_nonneg (values remainder : list Q) :
  (0 ≤ candidates values remainder)%Z.
Proof.
  unfold candidates. induction values as [|v vs IH]; simpl; lia.
Qed.

Section ApproximateMode.
Context `{RandomState}.

(** The loop adds one to distinct classes, each with a remainder among
    [values], and to as many as are needed and available. *)
Lemma add_by_remainder_spec (values remainder : list Q) (floored : list Z)
    (need_to_add : Z) (rng : rs_state) :
  descending values → (0 ≤ need_to_add)%Z →
  ∃ S, (add_by_remainder values remainder floored need_to_add rng).1
         = add_at S floored ∧
       NoDup S ∧
       (∀ i, i ∈ S → ∃ r v, remainder !! i = Some r ∧ v ∈ values ∧ (r == v)%Q) ∧
       Z.of_nat (length S) = (need_to_add `min` candidates values remainder)%Z.
Proof.
  intros Hdesc. revert floored need_to_add rng.
  induction Hdesc as [|v vs Hvs IH Hv]; intros floored need rng Hneed.
  - exists []. rewrite add_at_nil. split_and!; [done | constructor | | ].
    + by intros i ?%elem_of_nil.
    + unfold candidates. simpl. lia.
  - cbn [add_by_remainder].
    set (inds := np_where (λ r, Qeq_bool r v) remainder).
    set (add_now := (Z.of_nat (length inds) `min` need)%Z).
    pose proof (np_where_NoDup (λ r, Qeq_bool r v) remainder) as Hinds.
    fold inds in Hinds.
    destruct (rs_choice_spec rng inds (Z.to_nat add_now) Hinds)
      as (Hnd & Hsub & Hlen); [lia|].
    destruct (rs_choice rng inds (Z.to_nat add_now)) as [chosen rng'].
    cbn [fst] in Hnd, Hsub, Hlen.
    assert (candidates (v :: vs) remainder
            = (Z.of_nat (length inds) + candidates vs remainder)%Z) as Hcand.
    { done. }
    pose proof (candidates_nonneg vs remainder) as Hcand0.
    assert (∀ i, i ∈ chosen → ∃ r, remainder !! i = Some r ∧ (r == v)%Q)
      as Hchosen.
    { intros i Hi. apply Hsub, elem_of_np_where in Hi as (r & Hr & Hrv).
      exists r. split; [done|]. by apply Qeq_bool_iff. }
    destruct (Z.eqb_spec (need - add_now) 0) as [Hz|Hnz].
    + exists chosen. split_and!; [done | done | | lia].
      intros i Hi. destruct (Hchosen i Hi) as (r & Hr & Hrv).
      exists r, v. split_and!; [done | by left | done].
    + destruct (IH (add_at chosen floored) (need - add_now)%Z rng')
        as (S & HS & HndS & HSrem & HSlen); [lia|].
      exists (chosen ++ S). split_and!.
      * rewrite HS. apply add_at_add_at.
        intros i Hi HiS. destruct (Hchosen i Hi) as (r & Hr & Hrv).
        destruct (HSrem i HiS) as (r' & v' & Hr' & Hv' & Hrv').
        rewrite Hr in Hr'. injection Hr' as <-.
        eapply Forall_forall in Hv; [|done].
        rewrite <- Hrv', Hrv in Hv. by apply Qlt_irrefl in Hv.
      * apply NoDup_app. split_and!; [done | | done].
        intros i Hi HiS. destruct (Hchosen i Hi) as (r & Hr & Hrv).
        destruct (HSrem i HiS) as (r' & v' & Hr' & Hv' & Hrv').
        rewrite Hr in Hr'. injection Hr' as <-.
        eapply Forall_forall in Hv; [|done].
        rewrite <- Hrv', Hrv in Hv. by apply Qlt_irrefl in Hv.
      * intros i [Hi|Hi]%elem_of_app.
        -- destruct (Hchosen i Hi) as (r & Hr & Hrv).
           exists r, v. split_and!; [done | by left | done].
        -- destruct (HSrem i Hi) as (r & v' & Hr & Hv' & Hrv).
           exists r, v'. split_and!; [done | by right | done].
      * rewrite length_app, Hcand. lia.
Qed.
End ApproximateMode.

(** *** The distinct remainders *)

Lemma elem_of_insert_desc (x y : Q) (l : list Q) :
  y ∈ insert_desc x l → y = x ∨ y ∈ l.
Proof.
  induction l as [|z l IH]; simpl.
  - intros ->%list_elem_of_singleton. by left.
  - destruct (x ?= z)%Q.
    + by right.
    + intros [->|Hy]%elem_of_cons; [right; by left|].
      destruct (IH Hy) as [->|?]; [by left | right; by right].
    + intros [->|Hy]%elem_of_cons; [by left | by right].
Qed.

Lemma insert_desc_descending (x : Q) (l : list Q) :
  descending l → descending (insert_desc x l).
Proof.
  unfold descending. induction 1 as [|z l Hl IH Hz]; simpl.
  - repeat constructor.
  - destruct (x ?= z)%Q eqn:Hcmp.
    + by constructor.
    + apply Qlt_alt in Hcmp. constructor; [done|].
      apply Forall_forall. intros y Hy.
      apply elem_of_insert_desc in Hy as [->|Hy]; [done|].
      by eapply Forall_forall in Hz.
    + apply Qgt_alt in Hcmp. constructor; [by constructor|].
      constructor; [done|]. eapply Forall_impl; [exact Hz|].
      intros y Hy. simpl in Hy. by apply Qlt_trans with z.
Qed.

Lemma insert_desc_covers (x y : Q) (l : list Q) :
  (y == x)%Q ∨ (∃ v, v ∈ l ∧ (y == v)%Q) →
  ∃ v, v ∈ insert_desc x l ∧ (y == v)%Q.
Proof.
  induction l as [|z l IH]; simpl.
  - intros [Hy|(v & Hv & _)]; [|by apply elem_of_nil in Hv].
    exists x. split; [by left | done].
  - destruct (x ?= z)%Q eqn:Hcmp.
    + apply Qeq_alt in Hcmp. intros [Hy|Hy]; [|done].
      exists z. split; [by left | by rewrite Hy].
    + intros [Hy|(v & [->|Hv]%elem_of_cons & Hyv)].
      * destruct IH as (v & Hv & Hyv); [by left|].
        exists v. split; [by right | done].
      * exists z. split; [by left | done].
      * destruct IH as (v' & Hv' & Hyv'); [right; by exists v|].
        exists v'. split; [by right | done].
    + intros [Hy|(v & Hv & Hyv)].
      * exists x. split; [by left | done].
      * exists v. split; [by right | done].
Qed.

Lemma unique_desc_descending (a : list Q) : descending (unique_desc a).
Proof.
  unfold unique_desc. induction a as [|x a IH]; simpl.
  - constructor.
  - by apply insert_desc_descending.
Qed.

Lemma unique_desc_covers (a : list Q) (y : Q) :
  y ∈ a → ∃ v, v ∈ unique_desc a ∧ (y == v)%Q.
Proof.
  unfold unique_desc. induction a as [|x a IH]; [by intros ?%elem_of_nil|].
  intros [->|Hy]%elem_of_cons; simpl; apply insert_desc_covers.
  - by left.
  - right. by apply IH.
Qed.

Lemma np_sum_map_add {A} (f g : A → Z) (l : list A) :
  np_sum (map (λ x, f x + g x)%Z l) = (np_sum (map f l) + np_sum (map g l))%Z.
Proof.
  induction l as [|x l IH]; [done|].
  cbn [map]. rewrite !np_sum_cons, IH. lia.
Qed.

Lemma np_sum_map_zero {A} (f : A → Z) (l : list A) :
  (∀ x, x ∈ l → f x = 0%Z) → np_sum (map f l) = 0%Z.
Proof.
  induction l as [|x l IH]; intros Hf; [done|].
  cbn [map]. rewrite np_sum_cons, Hf by by left.
  rewrite IH; [done|]. intros y Hy. apply Hf. by right.
Qed.

(** A value equals exactly one entry of a descending list that covers it. *)
Lemma descending_matches_once (r : Q) (values : list Q) :
  descending values → (∃ v, v ∈ values ∧ (r == v)%Q) →
  np_sum (map (λ v, if Qeq_bool r v then 1 else 0)%Z values) = 1%Z.
Proof.
  unfold descending. induction 1 as [|v vs Hvs IH Hv]; intros (v' & Hv' & Hr).
  - by apply elem_of_nil in Hv'.
  - cbn [map]. rewrite np_sum_cons. destruct (Qeq_bool r v) eqn:Hrv.
    + apply Qeq_bool_iff in Hrv. rewrite np_sum_map_zero; [done|].
      intros w Hw. destruct (Qeq_bool r w) eqn:Hrw; [|done].
      apply Qeq_bool_iff in Hrw. eapply Forall_forall in Hv; [|done].
      rewrite <- Hrw, Hrv in Hv. by apply Qlt_irrefl in Hv.
    + apply elem_of_cons in Hv' as [->|Hv'].
      * apply Qeq_bool_iff in Hr. congruence.
      * rewrite IH; [done|]. by exists v'.
Qed.

Lemma candidates_unique_desc (remainder : list Q) :
  candidates (unique_desc remainder) remainder = Z.of_nat (length remainder).
Proof.
  pose proof (unique_desc_descending remainder) as Hdesc.
  pose proof (unique_desc_covers remainder) as Hcov.
  unfold candidates.
  generalize dependent (unique_desc remainder). intros values Hdesc Hcov.
  induction remainder as [|r rem IH].
  - apply np_sum_map_zero. intros v _. by rewrite np_where_length.
  - transitivity
      (np_sum (map (λ v, (if Qeq_bool r v then 1 else 0)
                          + Z.of_nat (length (np_where (λ r, Qeq_bool r v) rem)))%Z
                 values)).
    + f_equal. apply map_ext. intros v. rewrite !np_where_length.
      rewrite filter_cons. destruct (Qeq_bool r v); simpl; lia.
    + rewrite np_sum_map_add, IH by (intros y Hy; apply Hcov; by right).
      rewrite descending_matches_once; [cbn [length]; lia | done |].
      apply Hcov. by left.
Qed.

(** *** Floors *)

Lemma Qfloor_share (c n_draws total : Z) :
  (0 < total)%Z →
  Qfloor (inject_Z c / inject_Z total * inject_Z n_draws) = share c n_draws total.
Proof.
  intros Htotal. unfold share.
  destruct total as [|p|p]; [lia | | lia].
  assert (inject_Z c / inject_Z (Z.pos p) * inject_Z n_draws == (c * n_draws) # p)%Q
    as ->.
  { unfold Qeq, Qdiv, Qmult, Qinv, inject_Z. simpl. lia. }
  done.
Qed.

Lemma sum_share_bounds (counts : list Z) (n_draws total : Z) :
  (0 < total)%Z →
  (total * np_sum (map (λ c, share c n_draws total) counts)
     ≤ n_draws * np_sum counts
     ≤ total * np_sum (map (λ c, share c n_draws total) counts)
       + (total - 1) * Z.of_nat (length counts))%Z.
Proof.
  intros Htotal. induction counts as [|c counts IH].
  - simpl. lia.
  - cbn [map length]. rewrite !np_sum_cons. unfold share at 1 3.
    pose proof (Z.div_mod (c * n_draws) total ltac:(lia)) as Hdiv.
    pose proof (Z.mod_pos_bound (c * n_draws) total Htotal) as Hmod.
    nia.
Qed.

Section ApproximateModeSpec.
Context `{RandomState}.

(** [_approximate_mode] hands out exactly [n_draws] samples, and to each
    class its whole share or one more. *)
Lemma approximate_mode_spec (class_counts : list Z) (n_draws : Z)
    (rng : rs_state) :
  (0 < np_sum class_counts)%Z → (0 ≤ n_draws)%Z →
  let out := (approximate_mode class_counts n_draws rng).1 in
  length out = length class_counts ∧
  np_sum out = n_draws ∧
  ∀ i c, class_counts !! i = Some c →
    ∃ o, out !! i = Some o ∧
         (share c n_draws (np_sum class_counts) ≤ o
            ≤ share c n_draws (np_sum class_counts) + 1)%Z.
Proof.
  intros Htotal Hn. unfold approximate_mode.
  set (total := np_sum class_counts) in *.
  set (continuous := map _ class_counts).
  assert (map Qfloor continuous = map (λ c, share c n_draws total) class_counts)
    as Hfloor.
  { unfold continuous. rewrite map_map. apply map_ext. intros c.
    by apply Qfloor_share. }
  rewrite Hfloor.
  set (floored := map (λ c, share c n_draws total) class_counts).
  pose proof (sum_share_bounds class_counts n_draws total Htotal) as Hsum.
  fold floored in Hsum. fold total in Hsum.
  assert (∀ i c, class_counts !! i = Some c →
            floored !! i = Some (share c n_draws total)) as Hlook.
  { intros i c Hc. unfold floored. by rewrite list_lookup_fmap, Hc. }
  destruct (Z.ltb_spec 0 (n_draws - np_sum floored)) as [Hneed|Hneed].
  - set (remainder := zip_with _ continuous floored).
    assert (length remainder = length class_counts) as Hlen.
    { unfold remainder, continuous, floored.
      rewrite length_zip_with, !length_map. lia. }
    destruct (add_by_remainder_spec (unique_desc remainder) remainder floored
                (n_draws - np_sum floored) rng)
      as (S & -> & HndS & HSrem & HSlen);
      [apply unique_desc_descending | lia |].
    rewrite candidates_unique_desc, Hlen in HSlen.
    assert (∀ i, i ∈ S → i < length floored) as HSlt.
    { intros i Hi. destruct (HSrem i Hi) as (r & _ & Hr & _).
      apply lookup_lt_Some in Hr. unfold floored. rewrite length_map. lia. }
    simpl. split_and!.
    + rewrite add_at_length. unfold floored. by rewrite length_map.
    + rewrite np_sum_add_at by done. nia.
    + intros i c Hc. rewrite add_at_lookup, (Hlook i c Hc). cbn.
      eexists. split; [done|]. case_bool_decide; lia.
  - simpl. split_and!.
    + unfold floored. by rewrite length_map.
    + nia.
    + intros i c Hc. exists (share c n_draws total).
      split; [by apply Hlook | lia].
Qed.

(** Drawing as many samples as there are leaves every class whole. *)
Lemma approximate_mode_all (class_counts : list Z) (rng : rs_state) :
  (0 < np_sum class_counts)%Z →
  approximate_mode class_counts (np_sum class_counts) rng = (class_counts, rng).
Proof.
  intros Htotal. unfold approximate_mode.
  assert (map Qfloor
            (map (λ c, (inject_Z c / inject_Z (np_sum class_counts)
                        * inject_Z (np_sum class_counts))%Q) class_counts)
          = class_counts) as ->.
  { rewrite map_map. rewrite <- (map_id class_counts) at 2.
    apply map_ext. intros c. rewrite Qfloor_share by done.
    unfold share. apply Z.div_mul. lia. }
  rewrite Z.sub_diag. done.
Qed.
End ApproximateModeSpec.

(** ** Classes, their counts and their positions *)

Lemma np_min_le (a : list Z) (x : Z) : x ∈ a → (np_min a ≤ x)%Z.
Proof.
  unfold np_min. generalize (hd 0%Z a). intros d.
  induction a as [|y a IH]; [by intros ?%elem_of_nil|].
  intros [->|Hx]%elem_of_cons; simpl; [lia|]. specialize (IH Hx). lia.
Qed.

Lemma sum_indicator_seq (i s n : nat) :
  s ≤ i < s + n →
  np_sum (map (λ k, if decide (i = k) then 1 else 0)%Z (seq s n)) = 1%Z.
Proof.
  revert s. induction n as [|n IH]; intros s Hi; [lia|].
  cbn [seq map]. rewrite np_sum_cons. destruct (decide (i = s)) as [->|Hne].
  - rewrite np_sum_map_zero; [done|]. intros k Hk%elem_of_seq.
    rewrite decide_False; [done | lia].
  - rewrite IH; [done | lia].
Qed.

Lemma sum_count_of (l : list nat) (K : nat) :
  (∀ x, x ∈ l → x < K) →
  np_sum (map (λ k, Z.of_nat (count_of k l)) (seq 0 K)) = Z.of_nat (length l).
Proof.
  induction l as [|x l IH]; intros Hl.
  - apply np_sum_map_zero. done.
  - transitivity
      (np_sum (map (λ k, (if decide (x = k) then 1 else 0)
                          + Z.of_nat (count_of k l))%Z (seq 0 K))).
    + f_equal. apply map_ext. intros k. rewrite count_of_cons.
      case_decide; lia.
    + rewrite np_sum_map_add, IH by (intros y Hy; apply Hl; by right).
      rewrite sum_indicator_seq; [cbn [length]; lia|].
      split; [lia|]. apply Hl. by left.
Qed.

Lemma filter_map_length {A B} (f : A → B) (P : B → Prop)
    `{!∀ x, Decision (P x)} (l : list A) :
  length (filter P (map f l)) = length (filter (λ x, P (f x)) l).
Proof.
  induction l as [|x l IH]; [done|].
  cbn [map]. rewrite !filter_cons. case_decide; simpl; by rewrite IH.
Qed.

Section Classes.
(** The labels to stratify by, their distinct values and the class index
    of every position, as [_iter_indices] sets them up. *)
Context (y : list nat).
Local Abbreviation classes := (np_unique y).
Local Abbreviation y_indices := (map (λ t, index_of t (np_unique y)) y).

Lemma y_indices_length : length y_indices = length y.
Proof. apply length_map. Qed.

Lemma y_indices_lt (k : nat) : k ∈ y_indices → k < length classes.
Proof.
  intros (t & -> & Ht)%list_elem_of_fmap.
  eapply lookup_lt_Some, index_of_lookup. by apply elem_of_np_unique.
Qed.

Lemma y_indices_lookup (p k c : nat) :
  classes !! k = Some c →
  y_indices !! p = Some k ↔ y !! p = Some c.
Proof.
  intros Hk. rewrite list_lookup_fmap. split.
  - destruct (y !! p) as [t|] eqn:Ht; [|done]. intros [= Hidx].
    assert (t ∈ classes) as Hin.
    { apply elem_of_np_unique, list_elem_of_lookup. eauto. }
    apply index_of_lookup in Hin. rewrite Hidx, Hk in Hin. by injection Hin as ->.
  - intros ->. cbn. f_equal.
    apply index_of_unique; [apply np_unique_NoDup | done].
Qed.

Lemma class_count_of (k c : nat) :
  classes !! k = Some c → count_of k y_indices = count_of c y.
Proof.
  intros Hk. unfold count_of. rewrite filter_map_length.
  f_equal. apply filter_ext_elem. intros t Ht.
  assert (t ∈ classes) as Hin by by apply elem_of_np_unique.
  split.
  - intros Hidx. apply index_of_lookup in Hin. rewrite Hidx, Hk in Hin.
    by injection Hin.
  - intros ->. apply index_of_unique; [apply np_unique_NoDup | done].
Qed.

Lemma class_counts_sum :
  np_sum (map (λ k, Z.of_nat (count_of k y_indices)) (seq 0 (length classes)))
  = Z.of_nat (length y).
Proof.
  rewrite sum_count_of; [by rewrite y_indices_length|].
  intros k. apply y_indices_lt.
Qed.

Lemma count_class_index (k c : nat) (ps : list nat) :
  classes !! k = Some c →
  count_class y_indices ps k = count_class y ps c.
Proof.
  intros Hk. unfold count_class. f_equal. apply filter_ext_elem.
  intros p _. by apply y_indices_lookup.
Qed.
End Classes.

Lemma filter_all {A} (P : A → Prop) `{!∀ x, Decision (P x)} (l : list A) :
  (∀ x, x ∈ l → P x) → filter P l = l.
Proof.
  induction l as [|x l IH]; intros HP; [done|].
  rewrite filter_cons, decide_True by (apply HP; by left).
  f_equal. apply IH. intros y Hy. apply HP. by right.
Qed.

Lemma filter_none {A} (P : A → Prop) `{!∀ x, Decision (P x)} (l : list A) :
  (∀ x, x ∈ l → ¬ P x) → filter P l = [].
Proof.
  induction l as [|x l IH]; intros HP; [done|].
  rewrite filter_cons, decide_False by (apply HP; by left).
  apply IH. intros y Hy. apply HP. by right.
Qed.

Lemma count_class_app (labels ps qs : list nat) (c : nat) :
  count_class labels (ps ++ qs) c = count_class labels ps c + count_class labels qs c.
Proof. unfold count_class. by rewrite filter_app, length_app. Qed.

Lemma count_class_perm (labels ps qs : list nat) (c : nat) :
  ps ≡ₚ qs → count_class labels ps c = count_class labels qs c.
Proof. intros Hp. unfold count_class. by rewrite Hp. Qed.

Lemma elem_of_concat_map {A B} (f : A → list B) (l : list A) (x : B) :
  x ∈ concat (map f l) ↔ ∃ a, a ∈ l ∧ x ∈ f a.
Proof.
  induction l as [|a l IH]; simpl.
  - split; [by intros ?%elem_of_nil | by intros (a & ?%elem_of_nil & _)].
  - rewrite elem_of_app, IH. split.
    + intros [Hx|(b & Hb & Hx)]; [exists a; split; [by left | done]|].
      exists b. split; [by right | done].
    + intros (b & [->|Hb]%elem_of_cons & Hx); [by left|].
      right. by exists b.
Qed.

Section ClassIndices.
(** The class index of every position, and the number of classes. *)
Context (y_indices : list nat) (n_classes : nat).

Local Abbreviation positions_of k := (np_where (λ c, c =? k) y_indices).

Lemma elem_of_positions_of (k p : nat) :
  p ∈ positions_of k ↔ y_indices !! p = Some k.
Proof.
  rewrite elem_of_np_where. split.
  - intros (x & Hx & Heq). apply Nat.eqb_eq in Heq. by subst.
  - intros Hp. exists k. split; [done | apply Nat.eqb_refl].
Qed.

Lemma positions_of_length (k : nat) :
  length (positions_of k) = count_of k y_indices.
Proof.
  rewrite np_where_length. unfold count_of. f_equal.
  apply filter_ext_elem. intros x _. rewrite Is_true_true. apply Nat.eqb_eq.
Qed.

Lemma class_indices_NoDup (K : nat) :
  NoDup (concat (map (λ k, positions_of k) (seq 0 K))).
Proof.
  induction K as [|K IH]; [constructor|].
  rewrite seq_S, map_app, concat_app. cbn [map concat]. rewrite app_nil_r.
  apply NoDup_app. split_and!; [done | | apply np_where_NoDup].
  intros p (k & Hk%elem_of_seq & Hp)%elem_of_concat_map Hp'.
  apply elem_of_positions_of in Hp, Hp'. rewrite Hp in Hp'.
  injection Hp' as ->. lia.
Qed.

Lemma class_indices_cover :
  (∀ k, k ∈ y_indices → k < n_classes) →
  concat (map (λ k, positions_of k) (seq 0 n_classes))
  ≡ₚ seq 0 (length y_indices).
Proof.
  intros Hlt. apply NoDup_Permutation;
    [apply class_indices_NoDup | apply NoDup_seq |].
  intros p. rewrite elem_of_concat_map, elem_of_seq. split.
  - intros (k & _ & Hp). apply elem_of_positions_of, lookup_lt_Some in Hp. lia.
  - intros [_ Hp]. apply lookup_lt_is_Some_2 in Hp as [k Hk].
    exists k. split; [|by apply elem_of_positions_of].
    apply elem_of_seq. split; [lia|]. simpl. apply Hlt.
    apply list_elem_of_lookup. eauto.
Qed.

Local Abbreviation class_counts :=
  (map (λ k, Z.of_nat (count_of k y_indices)) (seq 0 n_classes)).
Local Abbreviation class_indices :=
  (map (λ k, positions_of k) (seq 0 n_classes)).

Lemma nth_class_counts (i : nat) :
  i < n_classes → nth i class_counts 0%Z = Z.of_nat (count_of i y_indices).
Proof.
  intros Hi. apply nth_lookup_Some.
  by rewrite list_lookup_fmap, lookup_seq_lt.
Qed.

Lemma nth_class_indices (i : nat) :
  i < n_classes → nth i class_indices [] = positions_of i.
Proof.
  intros Hi. apply nth_lookup_Some.
  by rewrite list_lookup_fmap, lookup_seq_lt.
Qed.

Context `{RandomState}.

(** The class loop hands every class's positions out, the first [n_i] of
    each to the train part and the rest to the test part. *)
Lemma split_classes_spec (range : list nat) (n_i t_i : list Z)
    (train test : list nat) (rng : rs_state) :
  NoDup range → (∀ i, i ∈ range → i < n_classes) →
  (∀ i, i ∈ range →
     (0 ≤ nth i n_i 0 ∧ 0 ≤ nth i t_i 0 ∧
      nth i n_i 0 + nth i t_i 0 = Z.of_nat (count_of i y_indices))%Z) →
  let res := split_classes range class_counts class_indices n_i t_i
               train test rng in
  res.1.1 ++ res.1.2
    ≡ₚ train ++ test ++ concat (map (λ k, positions_of k) range) ∧
  ∀ k, count_class y_indices res.1.1 k =
         count_class y_indices train k
         + (if decide (k ∈ range) then Z.to_nat (nth k n_i 0%Z) else 0).
Proof.
  intros Hnd. revert train test rng.
  induction Hnd as [|i range Hi Hnd IH]; intros train test rng Hlt Hn.
  - simpl. split; [by rewrite app_nil_r | intros k; lia].
  - cbn [split_classes].
    assert (i < n_classes) as HiK by (apply Hlt; by left).
    destruct (Hn i) as (Hn0 & Ht0 & Hnt); [by left|].
    rewrite nth_class_counts, nth_class_indices, Nat2Z.id by done.
    pose proof (rs_permutation_perm rng (count_of i y_indices)) as Hp.
    destruct (rs_permutation rng (count_of i y_indices)) as [p rng'].
    cbn [fst] in Hp. rewrite <- positions_of_length in Hp.
    apply np_take_clip_perm in Hp.
    set (P := np_take_clip (positions_of i) p) in *.
    assert (length P = count_of i y_indices) as HlenP.
    { by rewrite Hp, positions_of_length. }
    assert (py_slice P 0 (nth i n_i 0%Z) = take (Z.to_nat (nth i n_i 0%Z)) P)
      as ->.
    { unfold py_slice. by rewrite Z.sub_0_r. }
    assert (py_slice P (nth i n_i 0%Z) (nth i n_i 0 + nth i t_i 0)%Z
            = drop (Z.to_nat (nth i n_i 0%Z)) P) as ->.
    { unfold py_slice. apply take_ge. rewrite length_drop. lia. }
    set (n := Z.to_nat (nth i n_i 0%Z)) in *.
    destruct (IH (train ++ take n P) (test ++ drop n P) rng') as [IHp IHc].
    { intros j Hj. apply Hlt. by right. }
    { intros j Hj. apply Hn. by right. }
    split.
    + rewrite IHp. cbn [map concat].
      transitivity (train ++ test ++ (take n P ++ drop n P)
                      ++ concat (map (λ k, positions_of k) range)).
      * rewrite <- !app_assoc. f_equiv.
        rewrite (app_assoc (take n P) test),
          (Permutation_app_comm (take n P) test).
        by rewrite <- !app_assoc.
      * rewrite take_drop. by rewrite Hp.
    + intros k. rewrite IHc, count_class_app.
      assert (count_class y_indices (take n P) k = if decide (k = i) then n else 0)
        as ->.
      { unfold count_class. case_decide as Hk.
        - subst k. rewrite filter_all.
          + rewrite length_take. lia.
          + intros q Hq%subseteq_take. rewrite Hp in Hq.
            by apply elem_of_positions_of.
        - rewrite filter_none; [done|].
          intros q Hq%subseteq_take Hqk. rewrite Hp in Hq.
          apply elem_of_positions_of in Hq. congruence. }
      destruct (decide (k = i)) as [->|Hne].
      * rewrite decide_False by done. rewrite decide_True by by left. lia.
      * destruct (decide (k ∈ range)) as [Hk|Hk].
        -- rewrite decide_True by by right. lia.
        -- rewrite decide_False; [lia|]. by intros [?|?]%elem_of_cons.
Qed.
End ClassIndices.

Lemma np_sum_zip_sub (a b : list Z) :
  length a = length b →
  np_sum (zip_with Z.sub a b) = (np_sum a - np_sum b)%Z.
Proof.
  revert b. induction a as [|x a IH]; intros [|z b] Hlen; try done.
  cbn [zip_with]. rewrite !np_sum_cons, IH by (simpl in Hlen; lia). lia.
Qed.

Lemma share_nonneg (c n_draws total : Z) :
  (0 ≤ c)%Z → (0 ≤ n_draws)%Z → (0 < total)%Z → (0 ≤ share c n_draws total)%Z.
Proof. intros. unfold share. apply Z.div_pos; nia. Qed.

Lemma share_lt (c n_draws total : Z) :
  (0 < c)%Z → (0 ≤ n_draws < total)%Z → (share c n_draws total < c)%Z.
Proof. intros. unfold share. apply Z.div_lt_upper_bound; nia. Qed.

(** ** [StratifiedShuffleSplit] and [train_test_split] *)

Section SplitSpec.
Context `{RandomState}.

(** One stratified split: the two parts partition the positions, and the
    train part holds of every class as many positions as
    [_approximate_mode] allots to it. *)
Lemma stratified_shuffle_split_spec (n_train n_test : Z) (y : list nat)
    (rng : rs_state) (train test : list nat) :
  (1 ≤ n_train)%Z → (1 ≤ n_test)%Z →
  (n_train + n_test = Z.of_nat (length y))%Z →
  stratified_shuffle_split n_train n_test y rng = inr (train, test) →
  train ++ test ≡ₚ seq 0 (length y) ∧
  ∀ c, c ∈ y →
    Z.of_nat (count_class y train c)
    = nth (index_of c (np_unique y))
        (approximate_mode (class_counts_of y) n_train rng).1 0%Z.
Proof.
  intros Htrain Htest Hn. unfold stratified_shuffle_split, class_counts_of.
  set (y_indices := map (λ t, index_of t (np_unique y)) y).
  set (n_classes := length (np_unique y)).
  set (class_counts := map (λ k, Z.of_nat (count_of k y_indices)) (seq 0 n_classes)).
  destruct (Z.ltb_spec (np_min class_counts) 2) as [|Hmin]; [done|].
  destruct (Z.ltb_spec n_train (Z.of_nat n_classes)) as [|_]; [done|].
  destruct (Z.ltb_spec n_test (Z.of_nat n_classes)) as [|_]; [done|].
  pose proof (class_counts_sum y) as Htotal.
  fold y_indices n_classes class_counts in Htotal.
  assert (∀ i, i < n_classes →
            (2 ≤ Z.of_nat (count_of i y_indices))%Z) as Hcount2.
  { intros i Hi. etransitivity; [exact Hmin|]. apply np_min_le.
    unfold class_counts. apply list_elem_of_fmap. exists i.
    split; [done|]. apply elem_of_seq. lia. }
  destruct (approximate_mode_spec class_counts n_train rng)
    as (Hlen & Hsum & Hbound); [lia | lia |].
  destruct (approximate_mode class_counts n_train rng) as [n_i rng1].
  cbn [fst] in Hlen, Hsum, Hbound. rewrite Htotal in Hbound.
  assert (n_test = np_sum (zip_with Z.sub class_counts n_i)) as Hrest.
  { rewrite np_sum_zip_sub by done. lia. }
  rewrite Hrest at 1. rewrite approximate_mode_all by lia.
  assert (∀ i, i < n_classes →
            ∃ o, nth i n_i 0%Z = o ∧
                 (share (Z.of_nat (count_of i y_indices)) n_train
                    (Z.of_nat (length y)) ≤ o
                  ≤ share (Z.of_nat (count_of i y_indices)) n_train
                      (Z.of_nat (length y)) + 1)%Z) as Hni.
  { intros i Hi.
    destruct (Hbound i (Z.of_nat (count_of i y_indices))) as (o & Ho & Hb).
    { unfold class_counts. by rewrite list_lookup_fmap, lookup_seq_lt. }
    exists o. split; [by apply nth_lookup_Some | done]. }
  assert (∀ i, i < n_classes →
            nth i (zip_with Z.sub class_counts n_i) 0%Z
            = (Z.of_nat (count_of i y_indices) - nth i n_i 0)%Z) as Hti.
  { intros i Hi. apply nth_lookup_Some. rewrite lookup_zip_with.
    unfold class_counts at 1. rewrite list_lookup_fmap, lookup_seq_lt by done.
    cbn. destruct (Hni i Hi) as (o & Ho & _).
    destruct (nth_lookup_or_length n_i i 0%Z) as [->|Hge].
    - done.
    - rewrite Hlen in Hge. unfold class_counts in Hge.
      rewrite length_map, length_seq in Hge. lia. }
  pose proof (split_classes_spec y_indices n_classes (seq 0 n_classes) n_i
                (zip_with Z.sub class_counts n_i) [] [] rng1
                (NoDup_seq 0 n_classes)) as Hsplit.
  fold class_counts in Hsplit.
  destruct (split_classes (seq 0 n_classes) class_counts _ n_i _ [] [] rng1)
    as [[train' test'] rng2].
  destruct Hsplit as [Hperm Hcnt].
  { intros i Hi%elem_of_seq. lia. }
  { intros i Hi%elem_of_seq. rewrite Hti by lia.
    destruct (Hni i) as (o & -> & Ho); [lia|].
    pose proof (Hcount2 i ltac:(lia)).
    pose proof (share_nonneg (Z.of_nat (count_of i y_indices)) n_train
                  (Z.of_nat (length y))).
    pose proof (share_lt (Z.of_nat (count_of i y_indices)) n_train
                  (Z.of_nat (length y))).
    lia. }
  cbn [fst snd app] in Hperm, Hcnt.
  pose proof (rs_shuffled_perm rng2 train') as Hs1.
  destruct (rs_shuffled rng2 train') as [train1 rng3]. cbn [fst] in Hs1.
  pose proof (rs_shuffled_perm rng3 test') as Hs2.
  destruct (rs_shuffled rng3 test') as [test1 rng4]. cbn [fst] in Hs2.
  intros [= <- <-]. split.
  - rewrite Hs1, Hs2, Hperm.
    rewrite (class_indices_cover y_indices n_classes).
    + unfold y_indices. by rewrite y_indices_length.
    + intros k Hk. by apply y_indices_lt in Hk.
  - intros c Hc.
    assert (c ∈ np_unique y) as Hcls by by apply elem_of_np_unique.
    apply index_of_lookup in Hcls.
    set (k := index_of c (np_unique y)) in *.
    assert (k < n_classes) as Hk by by eapply lookup_lt_Some.
    rewrite <- (count_class_index y k c) by done.
    fold y_indices. rewrite (count_class_perm y_indices train1 train') by done.
    rewrite Hcnt. rewrite decide_True by (apply elem_of_seq; lia).
    cbn [fst]. destruct (Hni k Hk) as (o & -> & Ho).
    pose proof (share_nonneg (Z.of_nat (count_of k y_indices)) n_train
                  (Z.of_nat (length y))).
    unfold count_class at 1. simpl. lia.
Qed.

(** What [_approximate_mode] allots to the class of a label: its whole
    share of [n_draws] or one more. *)
Lemma train_count_bounds (y : list nat) (n_draws : Z) (rng : rs_state)
    (c : nat) :
  c ∈ y → (0 ≤ n_draws)%Z →
  (share (Z.of_nat (count_of c y)) n_draws (Z.of_nat (length y))
     ≤ nth (index_of c (np_unique y))
         (approximate_mode (class_counts_of y) n_draws rng).1 0%Z
     ≤ share (Z.of_nat (count_of c y)) n_draws (Z.of_nat (length y)) + 1)%Z.
Proof.
  intros Hc Hn.
  pose proof (class_counts_sum y) as Htotal. fold (class_counts_of y) in Htotal.
  assert (0 < length y) as Hlen.
  { destruct y; [by apply elem_of_nil in Hc | simpl; lia]. }
  destruct (approximate_mode_spec (class_counts_of y) n_draws rng)
    as (_ & _ & Hbound); [lia | lia |].
  rewrite Htotal in Hbound.
  assert (c ∈ np_unique y) as Hcls by by apply elem_of_np_unique.
  apply index_of_lookup in Hcls.
  destruct (Hbound (index_of c (np_unique y)) (Z.of_nat (count_of c y)))
    as (o & Ho & Hb).
  { unfold class_counts_of. rewrite list_lookup_fmap.
    rewrite lookup_seq_lt by by eapply lookup_lt_Some.
    cbn. by rewrite (class_count_of y _ c). }
  by rewrite (nth_lookup_Some _ _ _ _ Ho).
Qed.

(** Past its checks, [_iter_indices] returns a split. *)
Lemma stratified_shuffle_split_total (n_train n_test : Z) (y : list nat)
    (rng : rs_state) :
  strata_ok n_train n_test y = true →
  ∃ train test,
    stratified_shuffle_split n_train n_test y rng = inr (train, test).
Proof.
  unfold strata_ok, stratified_shuffle_split, class_counts_of.
  intros [[H1 H2]%andb_prop H3]%andb_prop.
  apply negb_true_iff in H1, H2, H3. rewrite H1, H2, H3.
  repeat match goal with
    | |- context [let '(_, _) := ?e in _] => destruct e
    end.
  by eexists _, _.
Qed.
End SplitSpec.

Lemma np_index_total {A} (a : list A) (idx : list nat) :
  (∀ p, p ∈ idx → p < length a) → ∃ l, np_index a idx = inr l.
Proof.
  intros Hlt. unfold np_index.
  destruct (mapM (λ i, a !! i) idx) as [l|] eqn:Hm; [by exists l|].
  apply mapM_None, Exists_exists in Hm as (p & Hp & Hnone).
  apply lookup_ge_None in Hnone. specialize (Hlt p Hp). lia.
Qed.

Lemma np_index_nth (a idx l : list nat) :
  np_index a idx = inr l → l = map (λ p, nth p a 0) idx.
Proof.
  rewrite np_index_inr. induction 1 as [|p x idx l Hx _ IH]; [done|].
  cbn [map]. f_equal; [|done]. symmetry. by apply nth_lookup_Some.
Qed.

Lemma map_nth_arange (a : list nat) : map (λ p, nth p a 0) (seq 0 (length a)) = a.
Proof.
  apply list_eq. intros i. rewrite list_lookup_fmap.
  destruct (decide (i < length a)) as [Hi|Hi].
  - rewrite lookup_seq_lt by done. cbn.
    destruct (nth_lookup_or_length a i 0) as [->|]; [done | lia].
  - rewrite lookup_seq_ge by lia. by rewrite lookup_ge_None_2 by lia.
Qed.

Lemma validate_shuffle_split_inr (n_samples : nat) (test_size : Q)
    (n_train n_test : Z) :
  validate_shuffle_split n_samples test_size = inr (n_train, n_test) →
  n_test = Qceiling (test_size * inject_Z (Z.of_nat n_samples)) ∧
  n_train = (Z.of_nat n_samples - n_test)%Z ∧
  (1 ≤ n_train)%Z ∧ (1 ≤ n_test)%Z.
Proof.
  unfold validate_shuffle_split.
  destruct (Qle_bool test_size 0) eqn:H0; [done|].
  destruct (Qle_bool 1 test_size) eqn:H1; [done|]. cbn [orb].
  set (x := (test_size * inject_Z (Z.of_nat n_samples))%Q).
  destruct (Z.eqb_spec (Z.of_nat n_samples - Qceiling x) 0) as [|Hne]; [done|].
  intros [= <- <-]. split; [done|]. split; [done|].
  assert (0 < test_size)%Q as Hpos.
  { apply Qnot_le_lt. intros Hle. apply Qle_bool_iff in Hle. congruence. }
  assert (test_size < 1)%Q as Hlt1.
  { apply Qnot_le_lt. intros Hle. apply Qle_bool_iff in Hle. congruence. }
  assert (0 <= inject_Z (Z.of_nat n_samples))%Q as Hn0.
  { change 0%Q with (inject_Z 0). rewrite <- Zle_Qle. lia. }
  assert (x <= inject_Z (Z.of_nat n_samples))%Q as Hxn.
  { unfold x. rewrite <- (Qmult_1_l (inject_Z (Z.of_nat n_samples))) at 2.
    apply Qmult_le_compat_r; [by apply Qlt_le_weak | done]. }
  apply Qceiling_resp_le in Hxn. rewrite Qceiling_Z in Hxn.
  assert (1 ≤ Z.of_nat n_samples - Qceiling x)%Z as Htrain by lia.
  split; [done|].
  assert (0 <= x)%Q as Hx0.
  { unfold x. apply Qmult_le_0_compat; [by apply Qlt_le_weak | done]. }
  apply Qceiling_resp_le in Hx0. change (Qceiling 0) with 0%Z in Hx0.
  assert (0 < x)%Q as Hx.
  { unfold x. apply Qmult_lt_0_compat; [done|].
    change 0%Q with (inject_Z 0). rewrite <- Zlt_Qlt. lia. }
  pose proof (Qle_ceiling x) as Hceil.
  assert (inject_Z 0 < inject_Z (Qceiling x))%Q as Hc
    by by eapply Qlt_le_trans.
  rewrite <- Zlt_Qlt in Hc. lia.
Qed.

Section TrainTestSplitSpec.
Context `{RandomState}.

(** [train_test_split] returns the entries of [arrays] at the positions
    of a stratified split: the two parts together are [arrays] again, up
    to order, and the first holds of every class what
    [_approximate_mode] allots to it. *)
Lemma train_test_split_spec (ambient : rs_state) (arrays : list nat)
    (test_size : Q) (y : list nat) (seed : option Z) (a b : list nat) :
  train_test_split ambient arrays test_size y seed = inr (a, b) →
  length y = length arrays ∧
  ∃ n_train train test,
    (1 ≤ n_train)%Z ∧
    n_train = (Z.of_nat (length arrays)
               - Qceiling (test_size * inject_Z (Z.of_nat (length arrays))))%Z ∧
    train ++ test ≡ₚ seq 0 (length arrays) ∧
    a = map (λ p, nth p arrays 0) train ∧
    b = map (λ p, nth p arrays 0) test ∧
    ∀ c, c ∈ y →
      Z.of_nat (count_class y train c)
      = nth (index_of c (np_unique y))
          (approximate_mode (class_counts_of y) n_train
             (check_random_state ambient seed)).1 0%Z.
Proof.
  unfold train_test_split. intros Hsplit.
  bind_inv Hsplit as [n_train n_test] Hval.
  apply validate_shuffle_split_inr in Hval as (Htest & Htrain & Hn1 & Hn2).
  destruct (Nat.eqb_spec (length y) (length arrays)) as [Hlen|]; [|done].
  cbn [negb] in Hsplit.
  bind_inv Hsplit as [train test] Hsss.
  apply stratified_shuffle_split_spec in Hsss as [Hperm Hcnt]; [|lia..].
  bind_inv Hsplit as a_train Ha. apply np_index_nth in Ha.
  bind_inv Hsplit as a_test Hb. apply np_index_nth in Hb.
  injection Hsplit as <- <-. split; [done|].
  exists n_train, train, test. rewrite Hlen in Hperm.
  split_and!; try done. by rewrite Htrain, Htest.
Qed.

Lemma train_test_split_perm (ambient : rs_state) (arrays : list nat)
    (test_size : Q) (y : list nat) (seed : option Z) (a b : list nat) :
  train_test_split ambient arrays test_size y seed = inr (a, b) →
  a ++ b ≡ₚ arrays.
Proof.
  intros (_ & n_train & train & test & _ & _ & Hperm & -> & -> & _)
    %train_test_split_spec.
  rewrite <- map_app, Hperm. by rewrite map_nth_arange.
Qed.

(** Past the checks of [_validate_shuffle_split] and [_iter_indices],
    [train_test_split] returns. *)
Lemma train_test_split_total (ambient : rs_state) (arrays : list nat)
    (test_size : Q) (y : list nat) (seed : option Z) (n_train n_test : Z) :
  validate_shuffle_split (length arrays) test_size = inr (n_train, n_test) →
  length y = length arrays →
  strata_ok n_train n_test y = true →
  ∃ a b, train_test_split ambient arrays test_size y seed = inr (a, b).
Proof.
  intros Hval Hlen Hok. unfold train_test_split. rewrite Hval. cbn [bind].
  rewrite Hlen, Nat.eqb_refl. cbn [negb].
  destruct (stratified_shuffle_split_total n_train n_test y
              (check_random_state ambient seed) Hok) as (train & test & Hs).
  rewrite Hs. cbn [bind].
  apply validate_shuffle_split_inr in Hval as (Htest & Htrain & Hn1 & Hn2).
  apply stratified_shuffle_split_spec in Hs as [Hperm _]; [|lia..].
  destruct (np_index_total arrays train) as [a Ha].
  { intros p Hp. assert (p ∈ train ++ test) as Hin by (apply elem_of_app; by left).
    rewrite Hperm in Hin. apply elem_of_seq in Hin. lia. }
  destruct (np_index_total arrays test) as [b Hb].
  { intros p Hp. assert (p ∈ train ++ test) as Hin by (apply elem_of_app; by right).
    rewrite Hperm in Hin. apply elem_of_seq in Hin. lia. }
  rewrite Ha, Hb. cbn [bind]. by exists a, b.
Qed.
End TrainTestSplitSpec.

(** ** The stratified split of [create_dataloaders] *)

Section StratifiedSplit.
Context `{RandomState}.

Lemma stratified_split_inr (ambient : rs_state) (n : nat) (targets : list nat)
    (train_idx val_idx test_idx : list nat) :
  stratified_split ambient n targets = inr (train_idx, val_idx, test_idx) →
  ∃ temp_idx targets_temp,
    train_test_split ambient (seq 0 n) 0.2 targets (Some 42%Z)
      = inr (train_idx, temp_idx) ∧
    np_index targets temp_idx = inr targets_temp ∧
    train_test_split ambient temp_idx 0.5 targets_temp (Some 42%Z)
      = inr (val_idx, test_idx).
Proof.
  unfold stratified_split. intros Hs.
  bind_inv Hs as [tr temp_idx] H1.
  bind_inv Hs as targets_temp Ht.
  bind_inv Hs as [va te] H2.
  injection Hs as <- <- <-. by exists temp_idx, targets_temp.
Qed.

Lemma stratified_split_length (ambient : rs_state) (n : nat)
    (targets : list nat) (train_idx val_idx test_idx : list nat) :
  stratified_split ambient n targets = inr (train_idx, val_idx, test_idx) →
  length targets = n.
Proof.
  intros (temp_idx & targets_temp & H1 & _)%stratified_split_inr.
  apply train_test_split_spec in H1 as [Hlen _].
  by rewrite length_seq in Hlen.
Qed.

Lemma stratified_split_perm (ambient : rs_state) (n : nat)
    (targets : list nat) (train_idx val_idx test_idx : list nat) :
  stratified_split ambient n targets = inr (train_idx, val_idx, test_idx) →
  train_idx ++ val_idx ++ test_idx ≡ₚ seq 0 n.
Proof.
  intros (temp_idx & targets_temp & H1 & _ & H2)%stratified_split_inr.
  apply train_test_split_perm in H1, H2. by rewrite H2.
Qed.
End StratifiedSplit.

Section CreateDataloaders.
Context {Image : Type} `{RandomState}.
Context (os_path_exists : string → bool).
Context (datasets_ImageFolder : string → result (ImageFolder Image)).
Context (transform_table : string → Image → Image).

Local Abbreviation create :=
  (create_dataloaders os_path_exists datasets_ImageFolder transform_table).

(** What a successful call has gone through. *)
Lemma create_dataloaders_inr (ambient : rs_state) (dataset_dir : string)
    (batch_size num_workers : Z) (out : Loaders) :
  create ambient dataset_dir batch_size num_workers = inr out →
  ∃ full_dataset filtered_dataset train_idx val_idx test_idx train_targets
    sample_weights,
    datasets_ImageFolder dataset_dir = inr full_dataset ∧
    FilteredDataset_init full_dataset class_names = inr filtered_dataset ∧
    stratified_split ambient (ds_len filtered_dataset)
      (targets filtered_dataset) = inr (train_idx, val_idx, test_idx) ∧
    np_index (targets filtered_dataset) train_idx = inr train_targets ∧
    compute_sample_weights train_targets = inr sample_weights ∧
    train_dataset out =
      {| subset := {| sub_dataset := filtered_dataset; indices := train_idx |};
         transform := Some (transform_table "train") |} ∧
    val_dataset out =
      {| subset := {| sub_dataset := filtered_dataset; indices := val_idx |};
         transform := Some (transform_table "val") |} ∧
    test_dataset out =
      {| subset := {| sub_dataset := filtered_dataset; indices := test_idx |};
         transform := Some (transform_table "test") |} ∧
    train_loader out =
      {| dl_dataset := train_dataset out; dl_batch_size := batch_size;
         dl_sampler := Weighted {| weights := sample_weights;
                                   num_samples := Z.of_nat (length sample_weights);
                                   replacement := true |};
         dl_num_workers := num_workers |} ∧
    val_loader out =
      {| dl_dataset := val_dataset out; dl_batch_size := batch_size;
         dl_sampler := Sequential (length val_idx);
         dl_num_workers := num_workers |} ∧
    test_loader out =
      {| dl_dataset := test_dataset out; dl_batch_size := batch_size;
         dl_sampler := Sequential (length test_idx);
         dl_num_workers := num_workers |}.
Proof.
  unfold create_dataloaders. intros Hc.
  destruct (os_path_exists dataset_dir); [|done]. cbn [negb] in Hc.
  bind_inv Hc as full_dataset Hfull.
  bind_inv Hc as filtered_dataset Hfd.
  bind_inv Hc as [[train_idx val_idx] test_idx] Hsplit.
  bind_inv Hc as train_targets Htt.
  bind_inv Hc as sample_weights Hw.
  bind_inv Hc as train_sampler Hsampler.
  unfold WeightedRandomSampler_init in Hsampler.
  destruct (Z.leb_spec (Z.of_nat (length sample_weights)) 0); [done|].
  injection Hsampler as <-.
  unfold DataLoader_init in Hc.
  destruct (Z.ltb_spec num_workers 0); [done|].
  destruct (Z.leb_spec batch_size 0); [done|].
  cbn [bind ret] in Hc. injection Hc as <-. cbn.
  exists full_dataset, filtered_dataset, train_idx, val_idx, test_idx,
    train_targets, sample_weights.
  split_and!; done.
Qed.

(** C1: the three views share one filtered dataset, and the positions
    handed to them partition [range(len(filtered_dataset))]: pairwise
    disjoint, and their union is the whole range. *)
Theorem split_partitions_filtered_index (ambient : rs_state)
    (dataset_dir : string) (batch_size num_workers : Z) (out : Loaders) :
  create ambient dataset_dir batch_size num_workers = inr out →
  sub_dataset (subset (val_dataset out))
    = sub_dataset (subset (train_dataset out)) ∧
  sub_dataset (subset (test_dataset out))
    = sub_dataset (subset (train_dataset out)) ∧
  is_partition (indices (subset (train_dataset out)))
    (indices (subset (val_dataset out)))
    (indices (subset (test_dataset out)))
    (ds_len (sub_dataset (subset (train_dataset out)))).
Proof.
  intros (full & fd & tr & va & te & tt & w & _ & _ & Hsplit & _ & _
          & -> & -> & -> & _)%create_dataloaders_inr.
  cbn. apply stratified_split_perm in Hsplit. unfold is_partition.
  split_and!; try done.
  - rewrite Hsplit. apply NoDup_seq.
  - intros p. rewrite <- !elem_of_app, Hsplit, elem_of_seq.
    cbn [ds_len FilteredDataset_Dataset]. lia.
Qed.

(** C7: the training loader draws through a [WeightedRandomSampler] with
    [replacement=True], whose weights are the class-balanced weights of
    the training positions, in their order, and whose pass has as many
    draws as there are training positions. *)
Theorem train_sampler_policy (ambient : rs_state) (dataset_dir : string)
    (batch_size num_workers : Z) (out : Loaders) :
  create ambient dataset_dir batch_size num_workers = inr out →
  dl_dataset (train_loader out) = train_dataset out ∧
  ∃ s train_targets,
    dl_sampler (train_loader out) = Weighted s ∧
    replacement s = true ∧
    np_index (targets (sub_dataset (subset (train_dataset out))))
      (indices (subset (train_dataset out))) = inr train_targets ∧
    weights s = map (inverse_frequency train_targets) train_targets ∧
    length (weights s) = length (indices (subset (train_dataset out))) ∧
    WeightedRandomSampler_len s
      = Z.of_nat (length (indices (subset (train_dataset out)))) ∧
    WeightedRandomSampler_len s = Z.of_nat (ds_len (train_dataset out)).
Proof.
  intros (full & fd & tr & va & te & tt & w & _ & _ & _ & Htt & Hw
          & Htrain & _ & _ & -> & _)%create_dataloaders_inr.
  rewrite Htrain. cbn. split; [done|].
  rewrite compute_sample_weights_eq in Hw. injection Hw as <-.
  apply np_index_length in Htt as Hlen.
  eexists _, tt. split_and!; try done; cbn; rewrite ?length_map; lia.
Qed.
End CreateDataloaders.

Lemma split_partitions_filtered_index_witness :
  ∃ out, demo_loaders = inr out ∧
    sub_dataset (subset (val_dataset out))
      = sub_dataset (subset (train_dataset out)) ∧
    sub_dataset (subset (test_dataset out))
      = sub_dataset (subset (train_dataset out)) ∧
    is_partition (indices (subset (train_dataset out)))
      (indices (subset (val_dataset out)))
      (indices (subset (test_dataset out)))
      (ds_len (sub_dataset (subset (train_dataset out)))).
Proof.
  destruct demo_loaders as [e|out] eqn:Hout.
  - vm_compute in Hout. discriminate.
  - exists out. split; [done|].
    exact (split_partitions_filtered_index _ _ _ _ _ _ _ out Hout).
Defined.

Lemma train_sampler_policy_witness :
  ∃ out, demo_loaders = inr out ∧
    dl_dataset (train_loader out) = train_dataset out ∧
    ∃ s train_targets,
      dl_sampler (train_loader out) = Weighted s ∧
      replacement s = true ∧
      np_index (targets (sub_dataset (subset (train_dataset out))))
        (indices (subset (train_dataset out))) = inr train_targets ∧
      weights s = map (inverse_frequency train_targets) train_targets ∧
      length (weights s) = length (indices (subset (train_dataset out))) ∧
      WeightedRandomSampler_len s
        = Z.of_nat (length (indices (subset (train_dataset out)))) ∧
      WeightedRandomSampler_len s = Z.of_nat (ds_len (train_dataset out)).
Proof.
  destruct demo_loaders as [e|out] eqn:Hout.
  - vm_compute in Hout. discriminate.
  - exists out. split; [done|].
    exact (train_sampler_policy _ _ _ _ _ _ _ out Hout).
Defined.

Example demo_split :
  (out ← match demo_loaders with inr out => Some out | inl _ => None end;
   Some (indices (subset (train_dataset out)),
         indices (subset (val_dataset out)),
         indices (subset (test_dataset out))))
  = Some ([21; 12; 13; 9; 10; 11; 0; 1; 2; 3; 4; 5; 16; 17; 18; 19; 20],
          [14; 6], [7; 8; 15]).
Proof. vm_compute. reflexivity. Qed.

(** ** Determinism *)

Section Determinism.
Context {Image : Type} `{RandomState}.
Context (os_path_exists : string → bool).
Context (datasets_ImageFolder : string → result (ImageFolder Image)).
Context (transform_table : string → Image → Image).

(** With an integer [random_state], [train_test_split] seeds a generator
    of its own and never reads the process-wide one. *)
Lemma train_test_split_seeded (g1 g2 : rs_state) (arrays : list nat)
    (test_size : Q) (stratify : list nat) (seed : Z) :
  train_test_split g1 arrays test_size stratify (Some seed)
  = train_test_split g2 arrays test_size stratify (Some seed).
Proof. reflexivity. Qed.

(** C5: the split is a function of the filtered index alone. Both calls
    of [train_test_split] are given the seed 42 explicitly, so whatever
    the state of the process-wide generator, two runs on the same
    filtered index return the same three lists of positions, and
    [create_dataloaders] as a whole returns the same loaders and views. *)
Theorem split_is_deterministic (g1 g2 : rs_state) (n : nat)
    (targets : list nat) (dataset_dir : string) (batch_size num_workers : Z) :
  stratified_split g1 n targets = stratified_split g2 n targets ∧
  create_dataloaders os_path_exists datasets_ImageFolder transform_table
    g1 dataset_dir batch_size num_workers
  = create_dataloaders os_path_exists datasets_ImageFolder transform_table
      g2 dataset_dir batch_size num_workers.
Proof.
  assert (∀ m l, stratified_split g1 m l = stratified_split g2 m l) as Hsplit.
  { intros m l. unfold stratified_split.
    rewrite (train_test_split_seeded g1 g2).
    destruct (train_test_split g2 (seq 0 m) 0.2 l (Some 42%Z))
      as [e|[train_idx temp_idx]]; [done|].
    cbn [bind]. destruct (np_index l temp_idx) as [e|targets_temp]; [done|].
    cbn [bind]. by rewrite (train_test_split_seeded g1 g2). }
  split; [apply Hsplit|].
  unfold create_dataloaders.
  destruct (os_path_exists dataset_dir); [|done]. cbn [negb].
  destruct (datasets_ImageFolder dataset_dir) as [e|full_dataset]; [done|].
  cbn [bind].
  destruct (FilteredDataset_init full_dataset class_names)
    as [e|filtered_dataset]; [done|].
  cbn [bind]. by rewrite Hsplit.
Qed.
End Determinism.

(** ** Classes with a single member *)

Section SmallClasses.
Context `{RandomState}.

Lemma count_of_elem (c : nat) (l : list nat) : 0 < count_of c l → c ∈ l.
Proof.
  unfold count_of. intros Hpos.
  destruct (filter (λ y, y = c) l) as [|x xs] eqn:Hf; [simpl in Hpos; lia|].
  assert (x ∈ filter (λ y, y = c) l) as Hx by (rewrite Hf; by left).
  by apply list_elem_of_filter in Hx as [-> ?].
Qed.

(** scikit-learn refuses to stratify by labels one of which occurs once. *)
Lemma train_test_split_single_member (ambient : rs_state)
    (arrays y : list nat) (seed : option Z) (c : nat) :
  count_of c y = 1 → length y = length arrays →
  ∃ why, train_test_split ambient arrays 0.2 y seed = inl (ValueError why) ∧
         (why = TrainSetEmpty ∨ why = LeastPopulatedClass).
Proof.
  intros Hc Hlen. unfold train_test_split, validate_shuffle_split.
  change (Qle_bool 0.2 0 || Qle_bool 1 0.2) with false. cbv iota.
  match goal with
  | |- context [(?a =? 0)%Z] => destruct (Z.eqb_spec a 0) as [|_]
  end.
  { exists TrainSetEmpty. split; [done | by left]. }
  cbn [bind ret]. rewrite Hlen, Nat.eqb_refl. cbn [negb].
  exists LeastPopulatedClass. split; [|by right].
  unfold stratified_shuffle_split.
  assert (c ∈ np_unique y) as Hcls.
  { apply elem_of_np_unique, count_of_elem. lia. }
  apply index_of_lookup in Hcls.
  set (k := index_of c (np_unique y)) in *.
  set (class_counts := map _ (seq 0 (length (np_unique y)))).
  assert (np_min class_counts ≤ 1)%Z as Hmin.
  { apply np_min_le. unfold class_counts. apply list_elem_of_fmap.
    exists k. split.
    - by rewrite (class_count_of y k c), Hc.
    - apply elem_of_seq. split; [lia|]. simpl. by eapply lookup_lt_Some. }
  destruct (Z.ltb_spec (np_min class_counts) 2); [done | lia].
Qed.

(** C6 (as the code has it): when a class of the filtered index has a
    single member, the split raises the [ValueError] of scikit-learn's
    [train_test_split] ("the least populated class ...", or "the resulting
    train set will be empty" for a one-sample index) and returns no
    partition. *)
Theorem single_member_class_raises_ValueError (ambient : rs_state)
    (targets : list nat) (c : nat) :
  c ∈ targets → count_of c targets < 2 →
  ∃ why,
    stratified_split ambient (length targets) targets = inl (ValueError why) ∧
    (why = TrainSetEmpty ∨ why = LeastPopulatedClass).
Proof.
  intros Hc Hlt. apply count_of_pos in Hc.
  destruct (train_test_split_single_member ambient (seq 0 (length targets))
              targets (Some 42%Z) c) as (why & Hwhy & Hor);
    [lia | by rewrite length_seq |].
  exists why. split; [|done]. unfold stratified_split. by rewrite Hwhy.
Qed.
End SmallClasses.

Lemma single_member_class_raises_ValueError_witness :
  2 ∈ [0; 0; 0; 7; 7; 7; 7; 7; 7; 7; 2] ∧
  count_of 2 [0; 0; 0; 7; 7; 7; 7; 7; 7; 7; 2] < 2 ∧
  ∃ why,
    stratified_split (0 : @rs_state lcg) 11 [0; 0; 0; 7; 7; 7; 7; 7; 7; 7; 2]
      = inl (ValueError why) ∧
    (why = TrainSetEmpty ∨ why = LeastPopulatedClass).
Proof.
  assert (2 ∈ [0; 0; 0; 7; 7; 7; 7; 7; 7; 7; 2]) as Hin by set_solver.
  assert (count_of 2 [0; 0; 0; 7; 7; 7; 7; 7; 7; 7; 2] < 2) as Hlt
    by (vm_compute; lia).
  split; [exact Hin|]. split; [exact Hlt|].
  exact (single_member_class_raises_ValueError (0 : @rs_state lcg)
           [0; 0; 0; 7; 7; 7; 7; 7; 7; 7; 2] 2 Hin Hlt).
Defined.

(** C6, counterexample: three basophils, seven platelets and a single
    erythroblast. Whatever the generator, the split raises scikit-learn's
    [ValueError], which is no [SplitError] and carries no class name. *)
Lemma single_erythroblast_raises_plain_ValueError :
  split_raises_for_every_generator [0; 0; 0; 7; 7; 7; 7; 7; 7; 7; 2]
    (ValueError LeastPopulatedClass).
Proof. intros R g. reflexivity. Qed.

(** ** Stratification *)

Lemma Qceiling_fifth (n : Z) : Qceiling (0.2 * inject_Z n) = ((n + 4) / 5)%Z.
Proof.
  unfold Qceiling, Qfloor, Qopp, Qmult, inject_Z. cbn [Qnum Qden].
  change (Z.pos (10 * 1)) with 10%Z.
  Z.div_mod_to_equations. lia.
Qed.

Lemma Qceiling_half (n : Z) : Qceiling (0.5 * inject_Z n) = ((n + 1) / 2)%Z.
Proof.
  unfold Qceiling, Qfloor, Qopp, Qmult, inject_Z. cbn [Qnum Qden].
  change (Z.pos (10 * 1)) with 10%Z.
  Z.div_mod_to_equations. lia.
Qed.

(** A class of [c] among [n] samples keeps between [0.8 c - 1.6] and
    [0.8 c + 1] of its members in the train part. *)
Lemma train_share_bound (c n x : Z) :
  (0 < c ≤ n)%Z →
  (share c (n - (n + 4) / 5) n ≤ x ≤ share c (n - (n + 4) / 5) n + 1)%Z →
  (4 * c - 8 ≤ 5 * x ≤ 4 * c + 5)%Z.
Proof.
  intros Hc Hx. unfold share in Hx.
  set (m := (n - (n + 4) / 5)%Z) in *.
  assert (4 * n - 4 ≤ 5 * m ≤ 4 * n)%Z as Hm.
  { unfold m. Z.div_mod_to_equations. lia. }
  pose proof (Z.div_mod (c * m) n ltac:(lia)) as Hdiv.
  pose proof (Z.mod_pos_bound (c * m) n ltac:(lia)) as Hmod.
  set (s := (c * m / n)%Z) in *. set (r := ((c * m) mod n)%Z) in *.
  assert (5 * n * s ≤ 4 * c * n)%Z by nia.
  assert (4 * c * n - 4 * c < 5 * n * s + 5 * n)%Z by nia.
  assert (5 * s ≤ 4 * c)%Z by nia.
  assert (4 * c - 9 < 5 * s)%Z by nia.
  lia.
Qed.

(** Of the [t] held-out members of a class, between [t/2 - 1] and
    [t/2 + 1] go to the first half of the second split. *)
Lemma half_share_bound (t T x : Z) :
  (0 < t ≤ T)%Z →
  (share t (T - (T + 1) / 2) T ≤ x ≤ share t (T - (T + 1) / 2) T + 1)%Z →
  (t - 2 ≤ 2 * x ≤ t + 2)%Z.
Proof.
  intros Ht Hx. unfold share in Hx.
  set (m := (T - (T + 1) / 2)%Z) in *.
  assert (T - 1 ≤ 2 * m ≤ T)%Z as Hm.
  { unfold m. Z.div_mod_to_equations. lia. }
  pose proof (Z.div_mod (t * m) T ltac:(lia)) as Hdiv.
  pose proof (Z.mod_pos_bound (t * m) T ltac:(lia)) as Hmod.
  set (s := (t * m / T)%Z) in *. set (r := ((t * m) mod T)%Z) in *.
  assert (2 * T * s ≤ t * T)%Z by nia.
  assert (t * T - t < 2 * T * s + 2 * T)%Z by nia.
  assert (2 * s ≤ t)%Z by nia.
  assert (t - 3 < 2 * s)%Z by nia.
  lia.
Qed.

Lemma Qabs_fraction_le (x c k : Z) (p q : positive) :
  (0 < c)%Z → (Z.abs (x * Z.pos q - Z.pos p * c) ≤ k * Z.pos q)%Z →
  (Qabs (inject_Z x / inject_Z c - (Z.pos p # q)) <= inject_Z k / inject_Z c)%Q.
Proof.
  intros Hc Hk. destruct c as [|c|c]; try lia.
  apply Qabs_Qle_condition.
  unfold Qle, Qdiv, Qminus, Qplus, Qopp, Qmult, Qinv, inject_Z. cbn [Qnum Qden].
  split; nia.
Qed.

Lemma count_class_arange (l : list nat) (c : nat) :
  count_class l (seq 0 (length l)) c = count_of c l.
Proof.
  unfold count_class, count_of.
  transitivity (length (np_where (λ x, bool_decide (x = c)) l)).
  - rewrite np_where_filter. f_equal.
    apply filter_ext_elem. intros p _. unfold holds_at.
    destruct (l !! p) as [x|]; [|done].
    rewrite bool_decide_spec. split; congruence.
  - rewrite np_where_length. f_equal.
    apply filter_ext_elem. intros x _. by rewrite bool_decide_spec.
Qed.

Lemma count_of_np_index (l ps ts : list nat) (c : nat) :
  np_index l ps = inr ts → count_of c ts = count_class l ps c.
Proof.
  rewrite np_index_inr. unfold count_of, count_class.
  induction 1 as [|p t ps ts Ht _ IH]; [done|].
  rewrite !filter_cons, Ht.
  destruct (decide (t = c)) as [->|Hne].
  - rewrite decide_True by done. simpl. by rewrite IH.
  - rewrite decide_False by congruence. done.
Qed.

Lemma count_class_reindex (l temp ts pos : list nat) (c : nat) :
  np_index l temp = inr ts →
  (∀ q, q ∈ pos → q < length temp) →
  count_class l (map (λ q, nth q temp 0) pos) c = count_class ts pos c.
Proof.
  rewrite np_index_inr. intros Hts Hpos. unfold count_class.
  rewrite filter_map_length. f_equal. apply filter_ext_elem.
  intros q Hq. apply Hpos, lookup_lt_is_Some_2 in Hq as [p Hp].
  rewrite (nth_lookup_Some _ _ _ _ Hp).
  destruct (Forall2_lookup_l _ _ _ _ _ Hts Hp) as (t & Ht & Hlt).
  by rewrite Ht, Hlt.
Qed.

Lemma map_nth_seq (n : nat) (ps : list nat) :
  (∀ p, p ∈ ps → p < n) → map (λ p, nth p (seq 0 n) 0) ps = ps.
Proof.
  intros Hps. rewrite <- (map_id ps) at 2. apply map_ext_in.
  intros p Hp%list_elem_of_In. by rewrite seq_nth by by apply Hps.
Qed.

Lemma count_of_le_length (c : nat) (l : list nat) : count_of c l ≤ length l.
Proof. unfold count_of. apply length_filter. Qed.

Section Stratification.
Context `{RandomState}.

(** The class counts of the three parts: the train part keeps
    [0.8 n_c] members of a class up to rounding, the held-out rest is
    shared between val and test, half each up to rounding. *)
Lemma stratified_split_counts (ambient : rs_state) (n : nat)
    (targets train_idx val_idx test_idx : list nat) (c : nat) :
  stratified_split ambient n targets = inr (train_idx, val_idx, test_idx) →
  c ∈ targets →
  (4 * Z.of_nat (count_of c targets) - 8
     ≤ 5 * Z.of_nat (count_class targets train_idx c)
     ≤ 4 * Z.of_nat (count_of c targets) + 5)%Z ∧
  count_class targets val_idx c + count_class targets test_idx c
    = count_of c targets - count_class targets train_idx c ∧
  count_class targets train_idx c ≤ count_of c targets ∧
  (Z.of_nat (count_of c targets) - Z.of_nat (count_class targets train_idx c) - 2
     ≤ 2 * Z.of_nat (count_class targets val_idx c)
     ≤ Z.of_nat (count_of c targets)
       - Z.of_nat (count_class targets train_idx c) + 2)%Z.
Proof.
  intros (temp_idx & targets_temp & H1 & Ht & H2)%stratified_split_inr Hc.
  pose proof (train_test_split_perm _ _ _ _ _ _ _ H1) as Hperm1.
  apply train_test_split_spec in H1
    as (Hlen & n1 & train & temp & Hn1 & Hn1eq & Hp1 & Htr & _ & Hcnt1).
  rewrite length_seq in *.
  rewrite map_nth_seq in Htr.
  2:{ intros p Hp. assert (p ∈ train ++ temp) as Hin by (apply elem_of_app; by left).
      rewrite Hp1 in Hin. apply elem_of_seq in Hin. lia. }
  subst train.
  (* the train part *)
  pose proof (train_count_bounds targets n1 (check_random_state ambient (Some 42%Z))
                c Hc ltac:(lia)) as Hb1.
  rewrite <- (Hcnt1 c Hc) in Hb1.
  rewrite Hlen, Hn1eq, Qceiling_fifth in Hb1.
  pose proof (count_of_pos c targets Hc) as Hpos.
  pose proof (count_of_le_length c targets) as Hle.
  apply train_share_bound in Hb1; [|lia].
  (* what is held out *)
  assert (count_class targets train_idx c + count_class targets temp_idx c
          = count_of c targets) as Hsum1.
  { rewrite <- count_class_app, (count_class_perm _ _ _ _ Hperm1).
    rewrite <- Hlen. apply count_class_arange. }
  pose proof (count_of_np_index _ _ _ c Ht) as Htemp.
  (* the second split *)
  apply train_test_split_spec in H2
    as (Hlen2 & n2 & pos_val & pos_test & Hn2 & Hn2eq & Hp2 & -> & -> & Hcnt2).
  assert (∀ q, q ∈ pos_val ++ pos_test → q < length temp_idx) as Hlt2.
  { intros q Hq. rewrite Hp2 in Hq. apply elem_of_seq in Hq. lia. }
  rewrite !(count_class_reindex targets temp_idx targets_temp) by
    (try done; intros q Hq; apply Hlt2, elem_of_app; auto).
  assert (count_class targets_temp pos_val c + count_class targets_temp pos_test c
          = count_of c targets_temp) as Hsum2.
  { rewrite <- count_class_app, (count_class_perm _ _ _ _ Hp2).
    rewrite <- Hlen2. apply count_class_arange. }
  split; [done|]. split; [lia|]. split; [lia|].
  destruct (decide (count_of c targets_temp = 0)) as [H0|Hne]; [lia|].
  assert (c ∈ targets_temp) as Hc2 by (apply count_of_elem; lia).
  pose proof (train_count_bounds targets_temp n2
                (check_random_state ambient (Some 42%Z)) c Hc2 ltac:(lia)) as Hb2.
  rewrite <- (Hcnt2 c Hc2) in Hb2.
  rewrite Hlen2, Hn2eq, Qceiling_half in Hb2.
  pose proof (count_of_le_length c targets_temp) as Hle2.
  apply half_share_bound in Hb2; lia.
Qed.

(** C4 (as the code has it): for every class [c] of the filtered index,
    the fraction of its positions in train, val and test differs from
    0.8, 0.1 and 0.1 by at most [2 / n_c]. *)
Theorem stratification_within_two_samples (ambient : rs_state) (n : nat)
    (targets train_idx val_idx test_idx : list nat) :
  stratified_split ambient n targets = inr (train_idx, val_idx, test_idx) →
  stratified_within 2 targets train_idx val_idx test_idx.
Proof.
  intros Hsplit c Hc.
  destruct (stratified_split_counts _ _ _ _ _ _ c Hsplit Hc)
    as (Htrain & Hsum & Hle & Hval).
  pose proof (count_of_pos c targets Hc) as Hpos.
  unfold class_fraction. split_and!.
  - apply (Qabs_fraction_le _ _ 2 8 10); lia.
  - apply (Qabs_fraction_le _ _ 2 1 10); lia.
  - apply (Qabs_fraction_le _ _ 2 1 10); lia.
Qed.
End Stratification.

Lemma stratification_within_two_samples_witness :
  ∃ train_idx val_idx test_idx,
    stratified_split (0 : @rs_state lcg) 22 demo_targets
      = inr (train_idx, val_idx, test_idx) ∧
    stratified_within 2 demo_targets train_idx val_idx test_idx.
Proof.
  destruct (stratified_split (0 : @rs_state lcg) 22 demo_targets)
    as [e|[[train_idx val_idx] test_idx]] eqn:Hsplit.
  - vm_compute in Hsplit. discriminate.
  - exists train_idx, val_idx, test_idx. split; [done|].
    exact (stratification_within_two_samples _ _ _ _ _ _ Hsplit).
Defined.

(** *** Two basophils and nineteen eosinophils *)

Section TwoAndNineteen.
Context `{RandomState}.

(** No tie arises, so the generator has no say in the class counts: both
    basophils go to the train part, with fourteen of the eosinophils. *)
Lemma approximate_mode_two_and_nineteen (rng : rs_state) :
  (approximate_mode [2; 19]%Z 16 rng).1 = [2; 14]%Z.
Proof.
  pose proof (rs_permutation_perm rng 1) as Hp.
  unfold approximate_mode. cbv -[rs_permutation].
  destruct (rs_permutation rng 1) as [p rng']. cbn in Hp.
  apply Permutation_singleton_r in Hp. subst p. reflexivity.
Qed.

Lemma binary_labels (l : list nat) :
  Forall (λ t, t = 0 ∨ t = 1) l → count_of 0 l = 0 →
  l = replicate (count_of 1 l) 1.
Proof.
  induction 1 as [|t l Ht _ IH]; [done|].
  rewrite !count_of_cons. intros H0.
  destruct Ht as [-> | ->]; repeat case_decide; try done; try lia.
  cbn. by rewrite <- IH by lia.
Qed.

Lemma two_and_nineteen_labels (c : nat) :
  c ∈ two_and_nineteen ↔ c = 0 ∨ c = 1.
Proof.
  rewrite <- elem_of_np_unique.
  change (np_unique two_and_nineteen) with [0; 1].
  rewrite !elem_of_cons, elem_of_nil. tauto.
Qed.

Lemma two_and_nineteen_split (ambient : rs_state) :
  ∃ train_idx val_idx test_idx,
    stratified_split ambient 21 two_and_nineteen
      = inr (train_idx, val_idx, test_idx) ∧
    count_class two_and_nineteen train_idx 1 = 14.
Proof.
  destruct (train_test_split_total ambient (seq 0 21) 0.2 two_and_nineteen
              (Some 42%Z) 16 5) as (train_idx & temp_idx & H1);
    [reflexivity..|].
  pose proof (train_test_split_perm _ _ _ _ _ _ _ H1) as Hperm1.
  pose proof H1 as Hspec.
  apply train_test_split_spec in Hspec
    as (_ & n1 & train & temp & _ & Hn1 & Hp1 & Htr & _ & Hcnt).
  rewrite map_nth_seq in Htr.
  2:{ intros p Hp. assert (p ∈ train ++ temp) as Hin by (apply elem_of_app; by left).
      rewrite Hp1 in Hin. apply elem_of_seq in Hin. simpl in Hin. lia. }
  subst train. vm_compute in Hn1. subst n1.
  assert (∀ c, c ∈ two_and_nineteen →
            Z.of_nat (count_class two_and_nineteen train_idx c)
            = nth c [2; 14]%Z 0%Z) as Hcounts.
  { intros c Hc. rewrite (Hcnt c Hc).
    change (class_counts_of two_and_nineteen) with [2; 19]%Z.
    rewrite approximate_mode_two_and_nineteen.
    by apply two_and_nineteen_labels in Hc as [-> | ->]. }
  assert (count_class two_and_nineteen train_idx 0 = 2) as Hc0.
  { apply Nat2Z.inj. rewrite Hcounts; [done|].
    apply two_and_nineteen_labels. by left. }
  assert (count_class two_and_nineteen train_idx 1 = 14) as Hc1.
  { apply Nat2Z.inj. rewrite Hcounts; [done|].
    apply two_and_nineteen_labels. by right. }
  (* the held-out labels: five eosinophils *)
  destruct (np_index_total two_and_nineteen temp_idx) as [targets_temp Ht].
  { intros p Hp. assert (p ∈ train_idx ++ temp_idx) as Hin
      by (apply elem_of_app; by right).
    rewrite Hperm1 in Hin. by apply elem_of_seq in Hin as [_ ?]. }
  assert (∀ c, count_class two_and_nineteen train_idx c + count_of c targets_temp
               = count_of c two_and_nineteen) as Hsum.
  { intros c. rewrite (count_of_np_index _ _ _ c Ht), <- count_class_app.
    rewrite (count_class_perm _ _ _ _ Hperm1).
    apply (count_class_arange two_and_nineteen). }
  assert (targets_temp = replicate 5 1) as ->.
  { pose proof (Hsum 0) as Hs0. pose proof (Hsum 1) as Hs1.
    rewrite Hc0 in Hs0. rewrite Hc1 in Hs1.
    change (count_of 0 two_and_nineteen) with 2 in Hs0.
    change (count_of 1 two_and_nineteen) with 19 in Hs1.
    replace 5 with (count_of 1 targets_temp) by lia.
    apply binary_labels; [|lia].
    apply np_index_inr in Ht. apply Forall_forall. intros t Hin.
    apply list_elem_of_lookup in Hin as [i Hi].
    destruct (Forall2_lookup_r _ _ _ _ _ Ht Hi) as (p & _ & Hp).
    apply list_elem_of_lookup_2 in Hp. by apply two_and_nineteen_labels. }
  apply np_index_length in Ht as Hlen. cbn in Hlen.
  destruct (train_test_split_total ambient temp_idx 0.5 (replicate 5 1)
              (Some 42%Z) 2 3) as (val_idx & test_idx & H2);
    [by rewrite <- Hlen | done | reflexivity |].
  exists train_idx, val_idx, test_idx. split; [|done].
  unfold stratified_split. rewrite H1. cbn [bind]. rewrite Ht. cbn [bind].
  by rewrite H2.
Qed.
End TwoAndNineteen.

(** C4, counterexample: with two basophils and nineteen eosinophils,
    whatever the generator, fourteen eosinophils land in the train part:
    [14 / 19] is more than [1 / 19] below 0.8. *)
Lemma two_and_nineteen_exceeds_one_sample :
  bound_fails_for_every_generator 1 two_and_nineteen.
Proof.
  intros R g.
  destruct (two_and_nineteen_split g) as (train_idx & val_idx & test_idx & Hs & Hc).
  exists train_idx, val_idx, test_idx. split; [exact Hs|].
  intros Hwithin. destruct (Hwithin 1) as [Htrain _].
  { apply two_and_nineteen_labels. by right. }
  revert Htrain. unfold class_fraction. rewrite Hc.
  apply Qlt_not_le. reflexivity.
Qed.

(** * Further properties *)

(** ** The dict comprehension of [FilteredDataset.__init__] *)

Lemma enumerate_snoc {A} (l : list A) (x : A) :
  enumerate (l ++ [x]) = enumerate l ++ [(length l, x)].
Proof.
  unfold enumerate. rewrite imap_app. cbn [imap]. by rewrite Nat.add_0_r.
Qed.

Lemma make_class_to_idx_snoc (L : list string) (x : string) :
  make_class_to_idx (L ++ [x]) = <[x := length L]> (make_class_to_idx L).
Proof. unfold make_class_to_idx. by rewrite enumerate_snoc, foldl_app. Qed.

Lemma make_class_to_idx_lookup (L : list string) (c : string) (t : nat) :
  make_class_to_idx L !! c = Some t ↔
  L !! t = Some c ∧ ∀ j, t < j → L !! j ≠ Some c.
Proof.
  revert t. induction L as [|x L IH] using rev_ind; intros t.
  - unfold make_class_to_idx. cbn. rewrite lookup_empty. split; [done|].
    by intros [? _].
  - rewrite make_class_to_idx_snoc. destruct (decide (x = c)) as [->|Hne].
    + rewrite lookup_insert_eq. split.
      * intros [= <-]. split.
        -- by rewrite lookup_app_r, Nat.sub_diag by lia.
        -- intros j Hj. rewrite lookup_ge_None_2; [done|].
           rewrite length_app. simpl. lia.
      * intros [Ht Hlast]. f_equal.
        apply lookup_lt_Some in Ht as Hlt. rewrite length_app in Hlt.
        simpl in Hlt. destruct (decide (t = length L)) as [|Hneq]; [done|].
        exfalso. apply (Hlast (length L)); [lia|].
        by rewrite lookup_app_r, Nat.sub_diag by lia.
    + rewrite lookup_insert_ne by done. rewrite IH. split.
      * intros [Ht Hlast]. split.
        -- by apply lookup_app_l_Some.
        -- intros j Hj Hc. apply lookup_app_Some in Hc as [Hc|[_ Hc]].
           ++ by apply (Hlast j).
           ++ apply list_lookup_singleton_Some in Hc as [_ ?]. done.
      * intros [Ht Hlast].
        apply lookup_app_Some in Ht as [Ht|[_ Ht]].
        -- split; [done|]. intros j Hj Hc. apply (Hlast j Hj).
           by apply lookup_app_l_Some.
        -- apply list_lookup_singleton_Some in Ht as [_ ?]. done.
Qed.

(** X1: the dict comprehension [{cls: idx for idx, cls in
    enumerate(class_names)}] records for a name its last position in
    [class_names]: [class_to_idx[c] = t] exactly when [class_names[t]] is
    [c] and no later entry is; a name is a key exactly when it occurs in
    [class_names]; and when [class_names] has no duplicates,
    [class_to_idx[class_names[i]] = i] for every position [i]. *)
Theorem class_to_idx_last_position (L : list string) (c : string) :
  (∀ t, make_class_to_idx L !! c = Some t ↔
        L !! t = Some c ∧ ∀ j, t < j → L !! j ≠ Some c) ∧
  (is_Some (make_class_to_idx L !! c) ↔ c ∈ L) ∧
  (NoDup L → ∀ i, L !! i = Some c → make_class_to_idx L !! c = Some i).
Proof.
  split_and!.
  - intros t. apply make_class_to_idx_lookup.
  - split.
    + intros [t Ht]. apply make_class_to_idx_lookup in Ht as [Ht _].
      by eapply list_elem_of_lookup_2.
    + apply make_class_to_idx_is_Some.
  - intros Hnd i Hi. apply make_class_to_idx_lookup. split; [done|].
    intros j Hj Hc. pose proof (NoDup_lookup _ _ _ _ Hnd Hi Hc). lia.
Qed.

Lemma class_to_idx_last_position_witness :
  NoDup class_names ∧ class_names !! 7 = Some "platelet"%string ∧
  make_class_to_idx class_names !! "platelet"%string = Some 7.
Proof.
  assert (NoDup class_names) as Hnd by compute_done.
  split; [exact Hnd|]. split; [reflexivity|].
  exact (proj2 (proj2 (class_to_idx_last_position class_names "platelet"))
           Hnd 7 eq_refl).
Defined.

(** ** [FilteredDataset.__init__]: when it raises *)

Lemma enumerate_Forall_inv {A} (P : A → Prop) (l : list A) :
  Forall (λ it : nat * A, P it.2) (enumerate l) → Forall P l.
Proof.
  rewrite !Forall_forall. intros Hall x Hx.
  apply list_elem_of_lookup in Hx as [i Hi].
  apply (Hall (i, x)). rewrite enumerate_from_0. apply enumerate_from_elem.
  split; [lia|]. by rewrite Nat.sub_0_r.
Qed.

Lemma filter_and_remap_bad_label {Image} (ds : ImageFolder Image)
    (L : list string) (items : list (nat * (string * nat))) (fi tg : list nat) :
  ¬ Forall (λ it : nat * (string * nat), it.2.2 < length (classes ds)) items →
  filter_and_remap (classes ds) (make_class_to_idx L) L items fi tg
  = inl IndexError.
Proof.
  revert fi tg.
  induction items as [|[idx [path label]] items IH]; intros fi tg Hbad.
  - destruct Hbad. constructor.
  - cbn [filter_and_remap]. rewrite py_getitem_nat.
    destruct (classes ds !! label) as [c|] eqn:Hc; [|done].
    cbn [bind].
    assert (¬ Forall (λ it : nat * (string * nat),
                        it.2.2 < length (classes ds)) items) as Hbad'.
    { intros Hall. apply Hbad. constructor; [|done].
      simpl. by eapply lookup_lt_Some. }
    destruct (bool_decide (c ∈ L)) eqn:HcL; [|by apply IH].
    apply bool_decide_eq_true in HcL.
    destruct (make_class_to_idx_is_Some L c HcL) as [t Ht].
    unfold dict_getitem. rewrite Ht. cbn [bind ret]. by apply IH.
Qed.

Lemma FilteredDataset_init_wf {Image} (ds : ImageFolder Image) (L : list string) :
  wf_ImageFolder ds →
  FilteredDataset_init ds L =
    inr {| dataset := ds; class_to_idx := make_class_to_idx L;
           filtered_indices :=
             map fst (filter (λ it, in_catalog L ds it.2) (enumerate (samples ds)));
           targets :=
             map (λ it, remapped L ds it.2)
               (filter (λ it, in_catalog L ds it.2) (enumerate (samples ds))) |}.
Proof.
  intros Hwf. unfold FilteredDataset_init.
  rewrite filter_and_remap_spec
    by (rewrite enumerate_from_0;
        by apply (enumerate_from_Forall
                    (λ s : string * nat, s.2 < length (classes ds)))).
  done.
Qed.

Lemma FilteredDataset_init_not_wf {Image} (ds : ImageFolder Image)
    (L : list string) :
  ¬ wf_ImageFolder ds → FilteredDataset_init ds L = inl IndexError.
Proof.
  intros Hwf. unfold FilteredDataset_init.
  rewrite filter_and_remap_bad_label; [done|].
  intros Hall. apply Hwf.
  by apply (enumerate_Forall_inv (λ s : string * nat, s.2 < length (classes ds))).
Qed.

Lemma FilteredDataset_init_inr {Image} (ds : ImageFolder Image)
    (L : list string) (fd : FilteredDataset Image) :
  FilteredDataset_init ds L = inr fd →
  wf_ImageFolder ds ∧
  fd = {| dataset := ds; class_to_idx := make_class_to_idx L;
          filtered_indices :=
            map fst (filter (λ it, in_catalog L ds it.2) (enumerate (samples ds)));
          targets :=
            map (λ it, remapped L ds it.2)
              (filter (λ it, in_catalog L ds it.2) (enumerate (samples ds))) |}.
Proof.
  destruct (decide (wf_ImageFolder ds)) as [Hwf|Hwf].
  - rewrite FilteredDataset_init_wf by done. by intros [= <-].
  - by rewrite FilteredDataset_init_not_wf.
Qed.

(** X2: [FilteredDataset.__init__] never raises [KeyError]: the lookup
    [self.class_to_idx[class_name]] is guarded by
    [class_name in class_names]. It raises only [IndexError], and only
    when a sample carries a label that is no position of
    [dataset.classes]; otherwise it returns a dataset over the same
    corpus whose [targets] and [filtered_indices] have the same length,
    at most [len(dataset.samples)]. *)
Theorem FilteredDataset_init_raises_only_IndexError {Image}
    (ds : ImageFolder Image) (L : list string) :
  match FilteredDataset_init ds L with
  | inr fd =>
      wf_ImageFolder ds ∧ dataset fd = ds ∧
      length (targets fd) = length (filtered_indices fd) ∧
      ds_len fd ≤ length (samples ds)
  | inl e => e = IndexError ∧ ¬ wf_ImageFolder ds
  end.
Proof.
  destruct (decide (wf_ImageFolder ds)) as [Hwf|Hwf].
  - rewrite FilteredDataset_init_wf by done. cbn.
    unfold FilteredDataset_len. cbn. rewrite !length_map.
    split_and!; try done.
    etransitivity; [apply length_filter|].
    unfold enumerate. by rewrite length_imap.
  - by rewrite FilteredDataset_init_not_wf.
Qed.

(** ** [FilteredDataset.__getitem__] *)

Lemma FilteredDataset_init_lookup {Image} (ds : ImageFolder Image)
    (L : list string) (fd : FilteredDataset Image) (i o : nat) :
  FilteredDataset_init ds L = inr fd →
  filtered_indices fd !! i = Some o →
  ∃ path raw c t,
    samples ds !! o = Some (path, raw) ∧ classes ds !! raw = Some c ∧
    c ∈ L ∧ make_class_to_idx L !! c = Some t ∧ targets fd !! i = Some t ∧
    dataset fd = ds.
Proof.
  intros [_ ->]%FilteredDataset_init_inr. cbn.
  rewrite !list_lookup_fmap.
  destruct (filter _ (enumerate (samples ds)) !! i) as [[o' [path raw]]|] eqn:Hf;
    [|done].
  cbn. intros [= ->].
  apply list_elem_of_lookup_2, list_elem_of_filter in Hf as [Hkeep Hin].
  rewrite enumerate_from_0 in Hin.
  apply enumerate_from_elem in Hin as [_ Hs]. rewrite Nat.sub_0_r in Hs.
  cbn [snd] in Hkeep. unfold in_catalog, raw_class in Hkeep. cbn [snd] in Hkeep.
  destruct (classes ds !! raw) as [c|] eqn:Hc; [|done].
  apply bool_decide_unpack in Hkeep.
  destruct (make_class_to_idx_is_Some L c Hkeep) as [t Ht].
  exists path, raw, c, t. split_and!; try done.
  cbn. by rewrite Ht.
Qed.

Lemma FilteredDataset_getitem_at {Image} (fd : FilteredDataset Image)
    (i o t label : nat) (path : string) :
  filtered_indices fd !! i = Some o →
  targets fd !! i = Some t →
  samples (dataset fd) !! o = Some (path, label) →
  ds_getitem fd (Z.of_nat i) =
    match loader (dataset fd) path with
    | inl e => inl e
    | inr image => inr (image, t)
    end.
Proof.
  intros Ho Ht Hs.
  cbn [ds_getitem FilteredDataset_Dataset]. unfold FilteredDataset_getitem.
  rewrite !py_getitem_nat, Ho, Ht. cbn [bind].
  cbn [ds_getitem ImageFolder_Dataset]. unfold ImageFolder_getitem.
  rewrite py_getitem_nat, Hs. cbn [bind].
  by destruct (loader (dataset fd) path).
Qed.

(** X3: on a dataset built by [FilteredDataset.__init__], [fd[i]] for
    [0 <= i < len(fd)] is the image of the sample at
    [filtered_indices[i]] of the corpus, and its label is not the
    corpus's class index of that sample but the position of its class
    name in [class_names]. The access raises only what the image loader
    raises on that sample's path. *)
Theorem FilteredDataset_getitem_remaps_label {Image} (ds : ImageFolder Image)
    (L : list string) (fd : FilteredDataset Image) (i : nat) :
  FilteredDataset_init ds L = inr fd → i < ds_len fd →
  ∃ o path raw c t,
    filtered_indices fd !! i = Some o ∧
    samples ds !! o = Some (path, raw) ∧ classes ds !! raw = Some c ∧
    make_class_to_idx L !! c = Some t ∧ L !! t = Some c ∧
    ds_getitem fd (Z.of_nat i) =
      match loader ds path with
      | inl e => inl e
      | inr image => inr (image, t)
      end.
Proof.
  intros Hinit Hi.
  destruct (lookup_lt_is_Some_2 (filtered_indices fd) i Hi) as [o Ho].
  destruct (FilteredDataset_init_lookup ds L fd i o Hinit Ho)
    as (path & raw & c & t & Hs & Hc & _ & Ht & Htg & Hds).
  exists o, path, raw, c, t. split_and!; try done.
  - by apply make_class_to_idx_Some.
  - rewrite <- Hds in Hs |- *. by eapply FilteredDataset_getitem_at.
Qed.

Lemma FilteredDataset_getitem_remaps_label_witness :
  FilteredDataset_init demo_folder class_names = inr demo_filtered ∧
  13 < ds_len demo_filtered ∧
  ∃ o path raw c t,
    filtered_indices demo_filtered !! 13 = Some o ∧
    samples demo_folder !! o = Some (path, raw) ∧
    classes demo_folder !! raw = Some c ∧
    make_class_to_idx class_names !! c = Some t ∧ class_names !! t = Some c ∧
    ds_getitem demo_filtered (Z.of_nat 13) =
      match loader demo_folder path with
      | inl e => inl e
      | inr image => inr (image, t)
      end.
Proof.
  assert (FilteredDataset_init demo_folder class_names = inr demo_filtered)
    as Hinit by reflexivity.
  assert (13 < ds_len demo_filtered) as Hlt by (vm_compute; lia).
  split; [exact Hinit|]. split; [exact Hlt|].
  exact (FilteredDataset_getitem_remaps_label demo_folder class_names
           demo_filtered 13 Hinit Hlt).
Defined.

(** ** The views handed out by [create_dataloaders] *)

Lemma split_view_getitem_at {Image} (fd : FilteredDataset Image)
    (idxs : list nat) (f : Image → Image) (i p o t label : nat)
    (path : string) :
  idxs !! i = Some p →
  filtered_indices fd !! p = Some o →
  targets fd !! p = Some t →
  samples (dataset fd) !! o = Some (path, label) →
  ds_getitem {| subset := {| sub_dataset := fd; indices := idxs |};
                transform := Some f |} (Z.of_nat i) =
    match loader (dataset fd) path with
    | inl e => inl e
    | inr image => inr (f image, t)
    end.
Proof.
  intros Hp Ho Ht Hs.
  cbn [ds_getitem TransformSubset_Dataset]. unfold TransformSubset_getitem.
  cbn [ds_getitem Subset_Dataset subset]. unfold Subset_getitem.
  cbn [indices sub_dataset]. rewrite py_getitem_nat, Hp. cbn [bind].
  rewrite (FilteredDataset_getitem_at fd p o t label path) by done.
  by destruct (loader (dataset fd) path).
Qed.

Lemma split_view_serves {Image} (ds : ImageFolder Image) (L : list string)
    (fd : FilteredDataset Image) (idxs : list nat) (f : Image → Image) :
  FilteredDataset_init ds L = inr fd →
  (∀ p, p ∈ idxs → p < ds_len fd) →
  serves {| subset := {| sub_dataset := fd; indices := idxs |};
            transform := Some f |} ds L f.
Proof.
  intros Hinit Hidx i Hi.
  destruct (lookup_lt_is_Some_2 idxs i Hi) as [p Hp].
  assert (p < ds_len fd) as Hlt
    by (apply Hidx; by eapply list_elem_of_lookup_2).
  destruct (lookup_lt_is_Some_2 (filtered_indices fd) p Hlt) as [o Ho].
  destruct (FilteredDataset_init_lookup ds L fd p o Hinit Ho)
    as (path & raw & c & t & Hs & Hc & _ & Ht & Htg & Hds).
  exists p, o, path, raw, c, t. split_and!; try done.
  - by apply make_class_to_idx_Some.
  - rewrite <- Hds in Hs |- *. by eapply split_view_getitem_at.
Qed.

Section Views.
Context {Image : Type} `{RandomState}.
Context (os_path_exists : string → bool).
Context (datasets_ImageFolder : string → result (ImageFolder Image)).
Context (transform_table : string → Image → Image).

(** X4: every position [0 <= i < len(view)] of each of the three datasets
    [create_dataloaders] returns is served from the corpus that was
    loaded: the item is the image of the sample at
    [filtered_indices[indices[i]]], whose class name is one of
    [class_names], passed through the transform of its own split
    (['train'], ['val'], ['test']), labelled with the position of that
    name in [class_names]. Such an access raises nothing but what the
    image loader raises. *)
Theorem returned_views_serve_the_corpus (ambient : rs_state)
    (dataset_dir : string) (batch_size num_workers : Z) (out : Loaders) :
  create_dataloaders os_path_exists datasets_ImageFolder transform_table
    ambient dataset_dir batch_size num_workers = inr out →
  ∃ full, datasets_ImageFolder dataset_dir = inr full ∧
    serves (train_dataset out) full class_names (transform_table "train") ∧
    serves (val_dataset out) full class_names (transform_table "val") ∧
    serves (test_dataset out) full class_names (transform_table "test").
Proof.
  intros (full & fd & tr & va & te & tt & w & Hfull & Hinit & Hsplit & _ & _
          & -> & -> & -> & _)%create_dataloaders_inr.
  apply stratified_split_perm in Hsplit.
  assert (∀ p, p ∈ tr ++ va ++ te → p < ds_len fd) as Hlt.
  { intros p Hp. rewrite Hsplit in Hp. apply elem_of_seq in Hp. lia. }
  exists full. split; [done|].
  split_and!; apply split_view_serves; try done;
    intros p Hp; apply Hlt; rewrite !elem_of_app; auto.
Qed.
End Views.

Lemma returned_views_serve_the_corpus_witness :
  ∃ out, demo_loaders = inr out ∧
    ∃ full, (λ _ : string, ret demo_folder) "data"%string = inr full ∧
      serves (train_dataset out) full class_names
        (λ image, String.append "train" (String.append ":" image)) ∧
      serves (val_dataset out) full class_names
        (λ image, String.append "val" (String.append ":" image)) ∧
      serves (test_dataset out) full class_names
        (λ image, String.append "test" (String.append ":" image)).
Proof.
  destruct demo_loaders as [e|out] eqn:Hout.
  - vm_compute in Hout. discriminate.
  - exists out. split; [done|].
    exact (returned_views_serve_the_corpus _ _ _ _ _ _ _ out Hout).
Defined.

(** ** The sizes of the parts *)

Lemma sum_indicator_NoDup (x : nat) (U : list nat) :
  NoDup U → x ∈ U →
  np_sum (map (λ c, if decide (x = c) then 1 else 0)%Z U) = 1%Z.
Proof.
  induction 1 as [|c U Hc Hnd IH]; [by intros ?%elem_of_nil|].
  intros Hx. cbn [map]. rewrite np_sum_cons.
  destruct (decide (x = c)) as [->|Hne].
  - rewrite np_sum_map_zero; [done|]. intros k Hk.
    rewrite decide_False; [done|]. by intros ->.
  - rewrite IH; [done|]. by apply elem_of_cons in Hx as [?|?].
Qed.

Lemma count_class_cons (labels : list nat) (p : nat) (ps : list nat) (c : nat) :
  count_class labels (p :: ps) c =
    (if decide (labels !! p = Some c) then 1 else 0) + count_class labels ps c.
Proof. unfold count_class. rewrite filter_cons. by case_decide. Qed.

(** Counting the positions class by class counts them all. *)
Lemma length_count_class (labels ps U : list nat) :
  NoDup U → (∀ p, p ∈ ps → ∃ c, labels !! p = Some c ∧ c ∈ U) →
  np_sum (map (λ c, Z.of_nat (count_class labels ps c)) U)
  = Z.of_nat (length ps).
Proof.
  intros Hnd. induction ps as [|p ps IH]; intros Hps.
  - by apply np_sum_map_zero.
  - destruct (Hps p) as (c0 & Hc0 & Hin); [by left|].
    transitivity
      (np_sum (map (λ c, (if decide (c0 = c) then 1 else 0)
                          + Z.of_nat (count_class labels ps c))%Z U)).
    + f_equal. apply map_ext. intros c. rewrite count_class_cons, Hc0.
      destruct (decide (c0 = c)) as [->|Hne].
      * rewrite decide_True by done. lia.
      * rewrite decide_False by congruence. lia.
    + rewrite np_sum_map_add, IH, sum_indicator_NoDup
        by (try done; intros q Hq; apply Hps; by right).
      cbn [length]. lia.
Qed.

Lemma map_nth_index_of (U : list nat) (v : list Z) :
  NoDup U → length v = length U →
  map (λ c, nth (index_of c U) v 0%Z) U = v.
Proof.
  intros Hnd Hlen. apply list_eq. intros i. rewrite list_lookup_fmap.
  destruct (U !! i) as [c|] eqn:Hc; cbn.
  - rewrite (index_of_unique c U i) by done.
    destruct (nth_lookup_or_length v i 0%Z) as [->|Hge]; [done|].
    apply lookup_lt_Some in Hc. lia.
  - symmetry. apply lookup_ge_None. apply lookup_ge_None in Hc. lia.
Qed.

Lemma class_counts_of_length (y : list nat) :
  length (class_counts_of y) = length (np_unique y).
Proof. unfold class_counts_of. by rewrite length_map, length_seq. Qed.

Lemma class_counts_of_sum (y : list nat) :
  np_sum (class_counts_of y) = Z.of_nat (length y).
Proof. apply class_counts_sum. Qed.

Lemma Qceiling_of_none (test_size : Q) :
  Qceiling (test_size * inject_Z 0) = 0%Z.
Proof.
  assert (test_size * inject_Z 0 == 0)%Q as -> by ring. done.
Qed.

Section Sizes.
Context `{RandomState}.

(** [train_test_split] returns [n_samples - ceil(test_size * n_samples)]
    entries in its first part and the others in its second. *)
Lemma train_test_split_length (ambient : rs_state) (arrays : list nat)
    (test_size : Q) (y : list nat) (seed : option Z) (a b : list nat) :
  train_test_split ambient arrays test_size y seed = inr (a, b) →
  (Z.of_nat (length a)
   = Z.of_nat (length arrays)
     - Qceiling (test_size * inject_Z (Z.of_nat (length arrays))))%Z ∧
  length a + length b = length arrays ∧ 1 ≤ length a.
Proof.
  intros Hs.
  apply train_test_split_spec in Hs
    as (Hlen & n_train & train & test & Hn1 & Hn & Hp & -> & -> & Hcnt).
  rewrite !length_map.
  assert (0 < length y) as Hy.
  { destruct y as [|t y]; [|simpl; lia].
    destruct arrays; [|done]. cbn [length] in Hn.
    change (Z.of_nat 0) with 0%Z in Hn. rewrite Qceiling_of_none in Hn. lia. }
  assert (Z.of_nat (length train) = n_train) as Htrain.
  { rewrite <- (length_count_class y train (np_unique y)).
    - transitivity
        (np_sum (map (λ c, nth (index_of c (np_unique y))
                             (approximate_mode (class_counts_of y) n_train
                                (check_random_state ambient seed)).1 0%Z)
                   (np_unique y))).
      + f_equal. apply map_ext_in. intros c Hc%list_elem_of_In.
        apply Hcnt. by apply elem_of_np_unique.
      + destruct (approximate_mode_spec (class_counts_of y) n_train
                    (check_random_state ambient seed))
          as (Hl & Hsum & _); [rewrite class_counts_of_sum; lia | lia |].
        rewrite map_nth_index_of; [done | apply np_unique_NoDup |].
        by rewrite Hl, class_counts_of_length.
    - apply np_unique_NoDup.
    - intros p Hin.
      assert (p ∈ train ++ test) as Hin' by (apply elem_of_app; by left).
      rewrite Hp in Hin'. apply elem_of_seq in Hin' as [_ Hlt].
      rewrite <- Hlen in Hlt.
      destruct (lookup_lt_is_Some_2 y p Hlt) as [c Hc]. exists c.
      split; [done|]. apply elem_of_np_unique. by eapply list_elem_of_lookup_2. }
  apply Permutation_length in Hp. rewrite length_app, length_seq in Hp.
  split_and!; lia.
Qed.

(** The sizes of the three parts: a fifth of the positions, rounded up,
    is held out, and the larger half of it is the test part. *)
Lemma stratified_split_sizes (ambient : rs_state) (n : nat)
    (targets train_idx val_idx test_idx : list nat) :
  stratified_split ambient n targets = inr (train_idx, val_idx, test_idx) →
  length train_idx = n - (n + 4) / 5 ∧
  length val_idx = (n + 4) / 5 / 2 ∧
  length test_idx = ((n + 4) / 5 + 1) / 2 ∧
  1 ≤ length train_idx ∧ 1 ≤ length val_idx.
Proof.
  intros (temp_idx & targets_temp & H1 & _ & H2)%stratified_split_inr.
  apply train_test_split_length in H1 as (Ha1 & Hsum1 & Hpos1).
  apply train_test_split_length in H2 as (Ha2 & Hsum2 & Hpos2).
  rewrite length_seq, Qceiling_fifth in *. rewrite Qceiling_half in Ha2.
  pose proof (Nat.div_mod_eq (n + 4) 5) as Hd1.
  pose proof (Nat.mod_upper_bound (n + 4) 5 ltac:(lia)) as Hm1.
  pose proof (Nat.div_mod_eq ((n + 4) / 5) 2) as Hd2.
  pose proof (Nat.mod_upper_bound ((n + 4) / 5) 2 ltac:(lia)) as Hm2.
  pose proof (Nat.div_mod_eq ((n + 4) / 5 + 1) 2) as Hd3.
  pose proof (Nat.mod_upper_bound ((n + 4) / 5 + 1) 2 ltac:(lia)) as Hm3.
  zify. Z.div_mod_to_equations. lia.
Qed.
End Sizes.

(** ** The checks of the stratified split *)

Lemma np_min_ge (a : list Z) (m : Z) :
  a ≠ [] → (∀ x, x ∈ a → (m ≤ x)%Z) → (m ≤ np_min a)%Z.
Proof.
  intros Hne Ha. unfold np_min.
  assert (m ≤ hd 0 a)%Z as Hd.
  { destruct a as [|x a]; [done|]. apply Ha. by left. }
  revert Hd. generalize (hd 0%Z a). intros d Hd. clear Hne.
  induction a as [|x a IH]; simpl; [done|].
  assert (m ≤ x)%Z by (apply Ha; by left).
  assert (m ≤ foldr Z.min d a)%Z by (apply IH; intros z Hz; apply Ha; by right).
  lia.
Qed.

Lemma np_sum_ge (l : list Z) (m : Z) :
  (∀ x, x ∈ l → (m ≤ x)%Z) → (m * Z.of_nat (length l) ≤ np_sum l)%Z.
Proof.
  induction l as [|x l IH]; intros Hl; [simpl; lia|].
  rewrite np_sum_cons. cbn [length].
  assert (m ≤ x)%Z by (apply Hl; by left).
  assert (m * Z.of_nat (length l) ≤ np_sum l)%Z
    by (apply IH; intros z Hz; apply Hl; by right).
  lia.
Qed.

Lemma elem_of_class_counts_of (y : list nat) (x : Z) :
  x ∈ class_counts_of y ↔ ∃ c, c ∈ y ∧ x = Z.of_nat (count_of c y).
Proof.
  unfold class_counts_of. rewrite list_elem_of_fmap. split.
  - intros (k & -> & Hk%elem_of_seq).
    destruct (lookup_lt_is_Some_2 (np_unique y) k ltac:(lia)) as [c Hc].
    exists c. split.
    + by eapply elem_of_np_unique, list_elem_of_lookup_2.
    + by rewrite (class_count_of y k c).
  - intros (c & Hc & ->). apply elem_of_np_unique, index_of_lookup in Hc.
    exists (index_of c (np_unique y)). split.
    + by rewrite (class_count_of y _ c).
    + apply elem_of_seq. apply lookup_lt_Some in Hc. lia.
Qed.

(** Every class has at least [m] members: there are at most
    [len(y) / m] classes. *)
Lemma classes_le_length (y : list nat) (m : nat) :
  (∀ c, c ∈ y → m ≤ count_of c y) → m * length (np_unique y) ≤ length y.
Proof.
  intros Hm.
  pose proof (np_sum_ge (class_counts_of y) (Z.of_nat m)) as Hsum.
  rewrite class_counts_of_sum, class_counts_of_length in Hsum.
  assert (Z.of_nat m * Z.of_nat (length (np_unique y)) ≤ Z.of_nat (length y))%Z;
    [|lia].
  apply Hsum. intros x (c & Hc & ->)%elem_of_class_counts_of.
  apply Hm in Hc. lia.
Qed.

Lemma strata_ok_true (n_train n_test : Z) (y : list nat) :
  strata_ok n_train n_test y = true ↔
  (2 ≤ np_min (class_counts_of y))%Z ∧
  (Z.of_nat (length (np_unique y)) ≤ n_train)%Z ∧
  (Z.of_nat (length (np_unique y)) ≤ n_test)%Z.
Proof.
  unfold strata_ok. rewrite !andb_true_iff, !negb_true_iff, !Z.ltb_ge. tauto.
Qed.

Lemma strata_ok_min_count (n_train n_test : Z) (y : list nat) (c : nat) :
  strata_ok n_train n_test y = true → c ∈ y → 2 ≤ count_of c y.
Proof.
  intros (Hmin & _)%strata_ok_true Hc.
  assert (np_min (class_counts_of y) ≤ Z.of_nat (count_of c y))%Z; [|lia].
  apply np_min_le. apply elem_of_class_counts_of. by exists c.
Qed.

Lemma strata_ok_intro (n_train n_test : Z) (y : list nat) :
  y ≠ [] → (∀ c, c ∈ y → 2 ≤ count_of c y) →
  (Z.of_nat (length (np_unique y)) ≤ n_train)%Z →
  (Z.of_nat (length (np_unique y)) ≤ n_test)%Z →
  strata_ok n_train n_test y = true.
Proof.
  intros Hne Hcount Htrain Htest. apply strata_ok_true. split_and!; try done.
  apply np_min_ge.
  - intros Hnil. destruct y as [|t y]; [done|].
    assert (Z.of_nat (count_of t (t :: y)) ∈ class_counts_of (t :: y)) as Hin.
    { apply elem_of_class_counts_of. exists t. split; [by left | done]. }
    rewrite Hnil in Hin. by apply elem_of_nil in Hin.
  - intros x (c & Hc & ->)%elem_of_class_counts_of. apply Hcount in Hc. lia.
Qed.

Lemma validate_shuffle_split_inl (n_samples : nat) (test_size : Q) (e : exn) :
  validate_shuffle_split n_samples test_size = inl e →
  ∃ why, e = ValueError why.
Proof.
  unfold validate_shuffle_split.
  destruct (_ || _); [intros [= <-]; by eexists|].
  destruct (_ =? _)%Z; [intros [= <-]; by eexists | done].
Qed.

Section Checks.
Context `{RandomState}.

Lemma stratified_shuffle_split_inr_ok (n_train n_test : Z) (y : list nat)
    (rng : rs_state) (r : list nat * list nat) :
  stratified_shuffle_split n_train n_test y rng = inr r →
  strata_ok n_train n_test y = true.
Proof.
  unfold stratified_shuffle_split, strata_ok, class_counts_of.
  destruct (_ <? 2)%Z; [done|].
  destruct (n_train <? _)%Z; [done|].
  by destruct (n_test <? _)%Z.
Qed.

Lemma stratified_shuffle_split_inl (n_train n_test : Z) (y : list nat)
    (rng : rs_state) (e : exn) :
  stratified_shuffle_split n_train n_test y rng = inl e →
  ∃ why, e = ValueError why.
Proof.
  intros He.
  destruct (strata_ok n_train n_test y) eqn:Hok.
  - destruct (stratified_shuffle_split_total n_train n_test y rng Hok)
      as (train & test & Hs). congruence.
  - revert He Hok.
    unfold stratified_shuffle_split, strata_ok, class_counts_of.
    destruct (_ <? 2)%Z; [intros [= <-]; by eexists|].
    destruct (n_train <? _)%Z; [intros [= <-]; by eexists|].
    destruct (n_test <? _)%Z; [intros [= <-]; by eexists | done].
Qed.

(** What a successful [train_test_split] has checked. *)
Lemma train_test_split_inr_ok (ambient : rs_state) (arrays : list nat)
    (test_size : Q) (y : list nat) (seed : option Z) (a b : list nat) :
  train_test_split ambient arrays test_size y seed = inr (a, b) →
  ∃ n_train n_test,
    validate_shuffle_split (length arrays) test_size = inr (n_train, n_test) ∧
    length y = length arrays ∧
    strata_ok n_train n_test y = true.
Proof.
  unfold train_test_split. intros Hs.
  bind_inv Hs as [n_train n_test] Hval.
  destruct (Nat.eqb_spec (length y) (length arrays)) as [Hlen|]; [|done].
  cbn [negb] in Hs. bind_inv Hs as r Hsss.
  apply stratified_shuffle_split_inr_ok in Hsss.
  by exists n_train, n_test.
Qed.

(** [train_test_split] raises nothing but [ValueError]. *)
Lemma train_test_split_inl (ambient : rs_state) (arrays : list nat)
    (test_size : Q) (y : list nat) (seed : option Z) (e : exn) :
  train_test_split ambient arrays test_size y seed = inl e →
  ∃ why, e = ValueError why.
Proof.
  intros He.
  destruct (validate_shuffle_split (length arrays) test_size)
    as [e'|[n_train n_test]] eqn:Hval.
  { unfold train_test_split in He. rewrite Hval in He. cbn in He.
    injection He as <-. by eapply validate_shuffle_split_inl. }
  destruct (Nat.eqb_spec (length y) (length arrays)) as [Hlen|Hlen].
  - destruct (strata_ok n_train n_test y) eqn:Hok.
    + destruct (train_test_split_total ambient arrays test_size y seed
                  n_train n_test Hval Hlen Hok) as (a & b & Hs). congruence.
    + unfold train_test_split in He. rewrite Hval in He. cbn [bind] in He.
      rewrite Hlen, Nat.eqb_refl in He. cbn [negb] in He.
      destruct (stratified_shuffle_split n_train n_test y _) as [e'|r] eqn:Hs.
      * cbn in He. injection He as <-.
        by eapply stratified_shuffle_split_inl.
      * apply stratified_shuffle_split_inr_ok in Hs. congruence.
  - unfold train_test_split in He. rewrite Hval in He. cbn [bind] in He.
    apply Nat.eqb_neq in Hlen. rewrite Hlen in He. cbn in He.
    injection He as <-. by eexists.
Qed.

(** The two splits of [create_dataloaders] raise nothing but
    [ValueError]: the positions handed from the first split to the second
    are positions of the labels. *)
Lemma stratified_split_inl (ambient : rs_state) (n : nat) (targets : list nat)
    (e : exn) :
  stratified_split ambient n targets = inl e → ∃ why, e = ValueError why.
Proof.
  unfold stratified_split. intros He.
  destruct (train_test_split ambient (seq 0 n) 0.2 targets (Some 42%Z))
    as [e'|[train_idx temp_idx]] eqn:H1.
  { cbn in He. injection He as <-. by eapply train_test_split_inl. }
  cbn [bind] in He.
  pose proof (train_test_split_perm _ _ _ _ _ _ _ H1) as Hperm.
  apply train_test_split_spec in H1 as [Hlen _]. rewrite length_seq in Hlen.
  destruct (np_index_total targets temp_idx) as [targets_temp Ht].
  { intros p Hp.
    assert (p ∈ train_idx ++ temp_idx) as Hin by (apply elem_of_app; by right).
    rewrite Hperm in Hin. apply elem_of_seq in Hin. lia. }
  rewrite Ht in He. cbn [bind] in He.
  destruct (train_test_split ambient temp_idx 0.5 targets_temp (Some 42%Z))
    as [e'|[val_idx test_idx]] eqn:H2; [|done].
  cbn in He. injection He as <-. by eapply train_test_split_inl.
Qed.
End Checks.

(** ** Every class reaches the train part *)

Section TrainClasses.
Context `{RandomState}.

Lemma stratified_split_first (ambient : rs_state) (n : nat)
    (targets train_idx val_idx test_idx : list nat) :
  stratified_split ambient n targets = inr (train_idx, val_idx, test_idx) →
  length targets = n ∧
  (∀ c, c ∈ targets → 2 ≤ count_of c targets) ∧
  ∀ c, c ∈ targets →
    (share (Z.of_nat (count_of c targets))
       (Z.of_nat n - (Z.of_nat n + 4) / 5) (Z.of_nat n)
     ≤ Z.of_nat (count_class targets train_idx c)
     ≤ share (Z.of_nat (count_of c targets))
         (Z.of_nat n - (Z.of_nat n + 4) / 5) (Z.of_nat n) + 1)%Z.
Proof.
  intros (temp_idx & targets_temp & H1 & _ & _)%stratified_split_inr.
  pose proof H1 as Hok.
  apply train_test_split_inr_ok in Hok as (n_train & n_test & _ & _ & Hok).
  apply train_test_split_spec in H1
    as (Hlen & n1 & train & temp & Hn1 & Hn1eq & Hp1 & Htr & _ & Hcnt1).
  rewrite length_seq in *.
  rewrite map_nth_seq in Htr.
  2:{ intros p Hp. assert (p ∈ train ++ temp) as Hin by (apply elem_of_app; by left).
      rewrite Hp1 in Hin. apply elem_of_seq in Hin. lia. }
  subst train. split; [done|]. split.
  - intros c Hc. by eapply strata_ok_min_count.
  - intros c Hc.
    pose proof (train_count_bounds targets n1
                  (check_random_state ambient (Some 42%Z)) c Hc ltac:(lia)) as Hb.
    rewrite <- (Hcnt1 c Hc) in Hb.
    by rewrite Hlen, Hn1eq, Qceiling_fifth in Hb.
Qed.

Lemma stratified_split_train_has_class (ambient : rs_state) (n : nat)
    (targets train_idx val_idx test_idx : list nat) (c : nat) :
  stratified_split ambient n targets = inr (train_idx, val_idx, test_idx) →
  c ∈ targets → 1 ≤ count_class targets train_idx c.
Proof.
  intros (Hlen & Hmin & Hshare)%stratified_split_first Hc.
  specialize (Hmin c Hc). destruct (Hshare c Hc) as [Hlow _].
  pose proof (count_of_le_length c targets) as Hle.
  assert (1 ≤ share (Z.of_nat (count_of c targets))
                (Z.of_nat n - (Z.of_nat n + 4) / 5) (Z.of_nat n))%Z; [|lia].
  unfold share. apply Z.div_le_lower_bound; [lia|].
  assert (Z.of_nat n ≤ 2 * (Z.of_nat n - (Z.of_nat n + 4) / 5))%Z
    by (Z.div_mod_to_equations; lia).
  nia.
Qed.
End TrainClasses.

(** ** When the split returns *)

Lemma validate_shuffle_split_fifth (n : nat) :
  2 ≤ n →
  validate_shuffle_split n 0.2 =
    inr (Z.of_nat n - (Z.of_nat n + 4) / 5, (Z.of_nat n + 4) / 5)%Z.
Proof.
  intros Hn. unfold validate_shuffle_split.
  change (Qle_bool 0.2 0 || Qle_bool 1 0.2) with false. cbv iota.
  rewrite Qceiling_fifth.
  destruct (Z.eqb_spec (Z.of_nat n - (Z.of_nat n + 4) / 5) 0) as [H0|]; [|done].
  exfalso. revert H0. Z.div_mod_to_equations. lia.
Qed.

Lemma validate_shuffle_split_half (n : nat) :
  2 ≤ n →
  validate_shuffle_split n 0.5 =
    inr (Z.of_nat n - (Z.of_nat n + 1) / 2, (Z.of_nat n + 1) / 2)%Z.
Proof.
  intros Hn. unfold validate_shuffle_split.
  change (Qle_bool 0.5 0 || Qle_bool 1 0.5) with false. cbv iota.
  rewrite Qceiling_half.
  destruct (Z.eqb_spec (Z.of_nat n - (Z.of_nat n + 1) / 2) 0) as [H0|]; [|done].
  exfalso. revert H0. Z.div_mod_to_equations. lia.
Qed.

Lemma np_index_elem_of {A} (a : list A) (idx : list nat) (l : list A) (x : A) :
  np_index a idx = inr l → x ∈ l → x ∈ a.
Proof.
  rewrite np_index_inr. intros Hl [i Hi]%list_elem_of_lookup.
  destruct (Forall2_lookup_r _ _ _ _ _ Hl Hi) as (p & _ & Hp).
  by eapply list_elem_of_lookup_2.
Qed.

Lemma nonempty_elem_of {A} (l : list A) : l ≠ [] → ∃ x, x ∈ l.
Proof. destruct l as [|x l]; [done|]. intros _. exists x. by left. Qed.

Section SplitReturns.
Context `{RandomState}.

(** With eleven members or more in every class, both splits pass their
    checks: each class keeps two members or more in the held-out part,
    and no part is smaller than the number of classes. *)
Lemma stratified_split_total (ambient : rs_state) (targets : list nat) :
  targets ≠ [] → (∀ c, c ∈ targets → 11 ≤ count_of c targets) →
  ∃ train_idx val_idx test_idx,
    stratified_split ambient (length targets) targets
    = inr (train_idx, val_idx, test_idx).
Proof.
  intros Hne Hcount.
  set (n := length targets).
  pose proof (classes_le_length targets 11 Hcount) as HK. fold n in HK.
  assert (11 ≤ n) as Hn.
  { destruct (nonempty_elem_of targets Hne) as [t Hin].
    pose proof (Hcount t Hin). pose proof (count_of_le_length t targets). lia. }
  (* the first split *)
  destruct (train_test_split_total ambient (seq 0 n) 0.2 targets (Some 42%Z)
              (Z.of_nat n - (Z.of_nat n + 4) / 5) ((Z.of_nat n + 4) / 5))
    as (train_idx & temp_idx & H1).
  { rewrite length_seq. apply validate_shuffle_split_fifth. lia. }
  { by rewrite length_seq. }
  { apply strata_ok_intro; [done | |
      Z.div_mod_to_equations; lia | Z.div_mod_to_equations; lia].
    intros c Hc. apply Hcount in Hc. lia. }
  assert (stratified_split ambient n targets
          = let* targets_temp := np_index targets temp_idx in
            let* '(val_idx, test_idx) :=
              train_test_split ambient temp_idx 0.5 targets_temp (Some 42%Z) in
            ret (train_idx, val_idx, test_idx)) as Hrest.
  { unfold stratified_split. by rewrite H1. }
  rewrite Hrest. clear Hrest.
  pose proof (train_test_split_perm _ _ _ _ _ _ _ H1) as Hperm1.
  apply train_test_split_spec in H1
    as (_ & n1 & train & temp & Hn1 & Hn1eq & Hp1 & Htr & _ & Hcnt1).
  rewrite length_seq in *.
  rewrite map_nth_seq in Htr.
  2:{ intros p Hp. assert (p ∈ train ++ temp) as Hin by (apply elem_of_app; by left).
      rewrite Hp1 in Hin. apply elem_of_seq in Hin. lia. }
  subst train.
  (* the labels of the held-out part *)
  destruct (np_index_total targets temp_idx) as [targets_temp Ht].
  { intros p Hp.
    assert (p ∈ train_idx ++ temp_idx) as Hin by (apply elem_of_app; by right).
    rewrite Hperm1 in Hin. apply elem_of_seq in Hin. lia. }
  rewrite Ht. cbn [bind].
  assert (∀ c, c ∈ targets → 2 ≤ count_of c targets_temp) as Hheld.
  { intros c Hc.
    pose proof (train_count_bounds targets n1
                  (check_random_state ambient (Some 42%Z)) c Hc ltac:(lia)) as Hb.
    rewrite <- (Hcnt1 c Hc) in Hb. fold n in Hb. rewrite Hn1eq in Hb.
    rewrite Qceiling_fifth in Hb.
    pose proof (Hcount c Hc) as H11.
    pose proof (count_of_le_length c targets) as Hle. fold n in Hle.
    apply train_share_bound in Hb; [|lia].
    rewrite (count_of_np_index _ _ _ c Ht).
    assert (count_class targets train_idx c + count_class targets temp_idx c
            = count_of c targets) as Hsum.
    { rewrite <- count_class_app, (count_class_perm _ _ _ _ Hperm1).
      apply count_class_arange. }
    lia. }
  assert (∀ c, c ∈ targets_temp → 2 ≤ count_of c targets_temp) as Hcount2.
  { intros c Hc. apply Hheld. by eapply np_index_elem_of. }
  pose proof (classes_le_length targets_temp 2 Hcount2) as HK2.
  apply np_index_length in Ht as Hlen2.
  assert (2 ≤ length targets_temp) as HT.
  { destruct (nonempty_elem_of targets Hne) as [t Hin].
    pose proof (Hheld t Hin). pose proof (count_of_le_length t targets_temp).
    lia. }
  destruct (train_test_split_total ambient temp_idx 0.5 targets_temp (Some 42%Z)
              (Z.of_nat (length temp_idx) - (Z.of_nat (length temp_idx) + 1) / 2)
              ((Z.of_nat (length temp_idx) + 1) / 2))
    as (val_idx & test_idx & H2).
  { apply validate_shuffle_split_half. lia. }
  { done. }
  { apply strata_ok_intro;
      [ | done | Z.div_mod_to_equations; lia | Z.div_mod_to_equations; lia].
    intros ->. simpl in HT. lia. }
  rewrite H2. by exists train_idx, val_idx, test_idx.
Qed.
End SplitReturns.

(** ** [create_dataloaders] past the filter *)

Lemma FilteredDataset_init_kept {Image} (ds : ImageFolder Image)
    (L : list string) (fd : FilteredDataset Image) :
  FilteredDataset_init ds L = inr fd →
  filtered_indices fd = kept_positions L ds.
Proof.
  intros [_ ->]%FilteredDataset_init_inr. cbn. unfold kept_positions.
  rewrite enumerate_from_0, enumerate_from_filter_fst.
  apply filter_ext_elem. intros i _. by rewrite Nat.sub_0_r.
Qed.

Lemma count_class_elem (labels ps : list nat) (c : nat) :
  1 ≤ count_class labels ps c → ∃ p, p ∈ ps ∧ labels !! p = Some c.
Proof.
  unfold count_class. intros Hpos.
  destruct (filter (λ p, labels !! p = Some c) ps) as [|p l] eqn:Hf;
    [simpl in Hpos; lia|].
  assert (p ∈ filter (λ p, labels !! p = Some c) ps) as Hp
    by (rewrite Hf; by left).
  apply list_elem_of_filter in Hp as [Hc Hin]. by exists p.
Qed.

Section PastTheFilter.
Context {Image : Type} `{RandomState}.
Context (os_path_exists : string → bool).
Context (datasets_ImageFolder : string → result (ImageFolder Image)).
Context (transform_table : string → Image → Image).

Local Abbreviation create :=
  (create_dataloaders os_path_exists datasets_ImageFolder transform_table).

Lemma stratified_split_tiny (ambient : rs_state) (n : nat) (targets : list nat) :
  n ≤ 1 → stratified_split ambient n targets = inl (ValueError TrainSetEmpty).
Proof.
  intros Hn. unfold stratified_split, train_test_split. rewrite length_seq.
  destruct n as [|[|n]]; [reflexivity | reflexivity | lia].
Qed.

Lemma create_dataloaders_split_inl (ambient : rs_state) (dataset_dir : string)
    (batch_size num_workers : Z) (full : ImageFolder Image)
    (fd : FilteredDataset Image) (e : exn) :
  os_path_exists dataset_dir = true →
  datasets_ImageFolder dataset_dir = inr full →
  FilteredDataset_init full class_names = inr fd →
  stratified_split ambient (ds_len fd) (targets fd) = inl e →
  create ambient dataset_dir batch_size num_workers = inl e.
Proof.
  intros Hexists Hfull Hinit Hsplit. unfold create_dataloaders.
  rewrite Hexists. cbn [negb]. rewrite Hfull. cbn [bind].
  rewrite Hinit. cbn [bind]. by rewrite Hsplit.
Qed.

(** Once the split has returned, only the arguments of the loaders can
    still be refused. *)
Lemma create_dataloaders_split_inr (ambient : rs_state) (dataset_dir : string)
    (batch_size num_workers : Z) (full : ImageFolder Image)
    (fd : FilteredDataset Image) (train_idx val_idx test_idx : list nat) :
  os_path_exists dataset_dir = true →
  datasets_ImageFolder dataset_dir = inr full →
  FilteredDataset_init full class_names = inr fd →
  stratified_split ambient (ds_len fd) (targets fd)
    = inr (train_idx, val_idx, test_idx) →
  ∃ out,
    create ambient dataset_dir batch_size num_workers =
      if (num_workers <? 0)%Z then inl (ValueError NumWorkersNegative)
      else if (batch_size <=? 0)%Z then inl (ValueError BatchSizeNotPositive)
      else inr out.
Proof.
  intros Hexists Hfull Hinit Hsplit. unfold create_dataloaders.
  rewrite Hexists. cbn [negb]. rewrite Hfull. cbn [bind].
  rewrite Hinit. cbn [bind]. rewrite Hsplit. cbn [bind].
  pose proof (stratified_split_perm _ _ _ _ _ _ Hsplit) as Hperm.
  pose proof (stratified_split_length _ _ _ _ _ _ Hsplit) as Hlen.
  pose proof (stratified_split_sizes _ _ _ _ _ _ Hsplit) as (_ & _ & _ & Hpos & _).
  destruct (np_index_total (targets fd) train_idx) as [train_targets Htt].
  { intros p Hp.
    assert (p ∈ train_idx ++ val_idx ++ test_idx) as Hin
      by (apply elem_of_app; by left).
    rewrite Hperm in Hin. apply elem_of_seq in Hin. lia. }
  rewrite Htt. cbn [bind]. rewrite compute_sample_weights_eq. cbn [bind].
  apply np_index_length in Htt.
  unfold WeightedRandomSampler_init. rewrite length_map.
  destruct (Z.leb_spec (Z.of_nat (length train_targets)) 0); [lia|].
  cbn [bind ret]. unfold DataLoader_init. eexists.
  destruct (num_workers <? 0)%Z; [reflexivity|].
  destruct (batch_size <=? 0)%Z; reflexivity.
Qed.

(** X5: of the [n] samples of the corpus that belong to the working
    classes, [create_dataloaders] holds out [ceil(n / 5)]; the test
    dataset gets the larger half of those, [ceil(ceil(n / 5) / 2)], the
    validation dataset the other half, and the training dataset the
    [n - ceil(n / 5)] that remain. The three sizes add up to [n] (the
    "Total dataset size" the script prints), none of the three is empty,
    and [n] is at least 6. *)
Theorem dataset_sizes_after_split (ambient : rs_state) (dataset_dir : string)
    (batch_size num_workers : Z) (out : Loaders) :
  create ambient dataset_dir batch_size num_workers = inr out →
  ∃ full n, datasets_ImageFolder dataset_dir = inr full ∧
    n = length (kept_positions class_names full) ∧
    ds_len (sub_dataset (subset (train_dataset out))) = n ∧
    ds_len (train_dataset out) = n - (n + 4) / 5 ∧
    ds_len (val_dataset out) = (n + 4) / 5 / 2 ∧
    ds_len (test_dataset out) = ((n + 4) / 5 + 1) / 2 ∧
    ds_len (train_dataset out) + ds_len (val_dataset out)
      + ds_len (test_dataset out) = n ∧
    1 ≤ ds_len (train_dataset out) ∧ 1 ≤ ds_len (val_dataset out) ∧
    1 ≤ ds_len (test_dataset out) ∧ 6 ≤ n.
Proof.
  intros (full & fd & tr & va & te & tt & w & Hfull & Hinit & Hsplit & _ & _
          & -> & -> & -> & _)%create_dataloaders_inr.
  unfold ds_len at 1 2 3 4 5 6 7 8 9 10. cbn [TransformSubset_Dataset].
  unfold TransformSubset_len.
  cbn [ds_len Subset_Dataset FilteredDataset_Dataset subset sub_dataset indices].
  pose proof (stratified_split_perm _ _ _ _ _ _ Hsplit) as Hperm.
  apply Permutation_length in Hperm. rewrite !length_app, length_seq in Hperm.
  apply stratified_split_sizes in Hsplit as (Htr & Hva & Hte & Hpos1 & Hpos2).
  exists full, (FilteredDataset_len fd). split; [done|].
  split; [unfold FilteredDataset_len;
          by rewrite (FilteredDataset_init_kept _ _ _ Hinit)|].
  split; [done|].
  cbn [ds_len FilteredDataset_Dataset] in *.
  set (n := FilteredDataset_len fd) in *.
  pose proof (Nat.div_mod_eq (n + 4) 5) as Hd1.
  pose proof (Nat.mod_upper_bound (n + 4) 5 ltac:(lia)) as Hm1.
  pose proof (Nat.div_mod_eq ((n + 4) / 5) 2) as Hd2.
  pose proof (Nat.mod_upper_bound ((n + 4) / 5) 2 ltac:(lia)) as Hm2.
  pose proof (Nat.div_mod_eq ((n + 4) / 5 + 1) 2) as Hd3.
  pose proof (Nat.mod_upper_bound ((n + 4) / 5 + 1) 2 ltac:(lia)) as Hm3.
  split_and!; lia.
Qed.

(** X6: when fewer than six samples of the corpus belong to the working
    classes, [create_dataloaders] raises a [ValueError] of scikit-learn:
    the held-out part would have a single sample, which cannot be split
    again. With at most one sample, and so for a corpus that holds none
    of the working classes, it is "the resulting train set will be
    empty". *)
Theorem fewer_than_six_samples_raise_ValueError (ambient : rs_state)
    (dataset_dir : string) (batch_size num_workers : Z)
    (full : ImageFolder Image) (fd : FilteredDataset Image) :
  os_path_exists dataset_dir = true →
  datasets_ImageFolder dataset_dir = inr full →
  FilteredDataset_init full class_names = inr fd →
  ds_len fd < 6 →
  ∃ why,
    create ambient dataset_dir batch_size num_workers = inl (ValueError why) ∧
    (ds_len fd ≤ 1 → why = TrainSetEmpty).
Proof.
  intros Hexists Hfull Hinit Hsmall.
  destruct (stratified_split ambient (ds_len fd) (targets fd))
    as [e|[[tr va] te]] eqn:Hsplit.
  - destruct (stratified_split_inl _ _ _ _ Hsplit) as [why ->].
    exists why. split.
    + by eapply create_dataloaders_split_inl.
    + intros Htiny. rewrite stratified_split_tiny in Hsplit by done.
      by injection Hsplit.
  - apply stratified_split_sizes in Hsplit as (_ & Hva & _ & _ & Hpos).
    exfalso. rewrite Hva in Hpos.
    pose proof (Nat.div_mod_eq (ds_len fd + 4) 5) as Hd1.
    pose proof (Nat.mod_upper_bound (ds_len fd + 4) 5 ltac:(lia)) as Hm1.
    pose proof (Nat.div_mod_eq ((ds_len fd + 4) / 5) 2) as Hd2.
    pose proof (Nat.mod_upper_bound ((ds_len fd + 4) / 5) 2 ltac:(lia)) as Hm2.
    lia.
Qed.

(** X7: what [create_dataloaders] can raise. When the directory does not
    exist it raises [FileNotFoundError] with the message "Dataset
    directory '<dataset_dir>' not found.", before the corpus is opened.
    When the directory exists and [ImageFolder] only ever returns a
    well-formed corpus, an exception is either the one [ImageFolder]
    raised or a [ValueError]; [IndexError] and [KeyError] never leave the
    function. *)
Theorem create_dataloaders_raises (ambient : rs_state) (dataset_dir : string)
    (batch_size num_workers : Z) :
  (∀ full, datasets_ImageFolder dataset_dir = inr full → wf_ImageFolder full) →
  (os_path_exists dataset_dir = false →
     create ambient dataset_dir batch_size num_workers =
       inl (FileNotFoundError
              ("Dataset directory '" +:+ dataset_dir +:+ "' not found."))) ∧
  (os_path_exists dataset_dir = true →
     ∀ e, create ambient dataset_dir batch_size num_workers = inl e →
       datasets_ImageFolder dataset_dir = inl e ∨ ∃ why, e = ValueError why).
Proof.
  intros Hwf. split.
  - intros Hno. unfold create_dataloaders. by rewrite Hno.
  - intros Hexists e He.
    destruct (datasets_ImageFolder dataset_dir) as [e'|full] eqn:Hfull.
    { left. unfold create_dataloaders in He. rewrite Hexists, Hfull in He.
      cbn in He. congruence. }
    right. specialize (Hwf full eq_refl).
    pose proof (FilteredDataset_init_wf full class_names Hwf) as Hinit.
    set (fd := {| dataset := full |}) in Hinit.
    destruct (stratified_split ambient (ds_len fd) (targets fd))
      as [e'|[[tr va] te]] eqn:Hsplit.
    + rewrite (create_dataloaders_split_inl _ _ _ _ full fd e') in He by done.
      injection He as <-. by eapply stratified_split_inl.
    + destruct (create_dataloaders_split_inr ambient dataset_dir batch_size
                  num_workers full fd tr va te) as [out Hout]; try done.
      rewrite Hout in He.
      destruct (num_workers <? 0)%Z; [injection He as <-; by eexists|].
      destruct (batch_size <=? 0)%Z; [injection He as <-; by eexists | done].
Qed.

(** X8: when [create_dataloaders] returns, every class that occurs in the
    filtered dataset has two samples or more there, and at least one of
    them in the training dataset, so every class gets a sampling
    weight. *)
Theorem every_class_reaches_train (ambient : rs_state) (dataset_dir : string)
    (batch_size num_workers : Z) (out : Loaders) :
  create ambient dataset_dir batch_size num_workers = inr out →
  ∀ c, c ∈ targets (sub_dataset (subset (train_dataset out))) →
    2 ≤ count_of c (targets (sub_dataset (subset (train_dataset out)))) ∧
    ∃ p, p ∈ indices (subset (train_dataset out)) ∧
         targets (sub_dataset (subset (train_dataset out))) !! p = Some c.
Proof.
  intros (full & fd & tr & va & te & tt & w & _ & _ & Hsplit & _ & _
          & -> & _)%create_dataloaders_inr c Hc.
  cbn [subset sub_dataset indices] in *. split.
  - apply stratified_split_first in Hsplit as (_ & Hmin & _). by apply Hmin.
  - apply count_class_elem. by eapply stratified_split_train_has_class.
Qed.

(** X9: [create_dataloaders] returns whenever the directory exists, the
    corpus loads, at least one of its samples belongs to the working
    classes, every working class that occurs has eleven samples or more,
    [batch_size] is positive and [num_workers] is not negative. This
    holds whatever the random generator does. *)
Theorem create_dataloaders_returns (ambient : rs_state) (dataset_dir : string)
    (batch_size num_workers : Z) (full : ImageFolder Image)
    (fd : FilteredDataset Image) :
  os_path_exists dataset_dir = true →
  datasets_ImageFolder dataset_dir = inr full →
  FilteredDataset_init full class_names = inr fd →
  targets fd ≠ [] →
  (∀ t, t ∈ targets fd → 11 ≤ count_of t (targets fd)) →
  (0 < batch_size)%Z → (0 ≤ num_workers)%Z →
  ∃ out, create ambient dataset_dir batch_size num_workers = inr out.
Proof.
  intros Hexists Hfull Hinit Hne Hcount Hbs Hnw.
  destruct (stratified_split_total ambient (targets fd) Hne Hcount)
    as (tr & va & te & Hsplit).
  assert (length (targets fd) = ds_len fd) as Hlen.
  { apply FilteredDataset_init_inr in Hinit as [_ ->]. cbn.
    unfold FilteredDataset_len. cbn. by rewrite !length_map. }
  rewrite Hlen in Hsplit.
  destruct (create_dataloaders_split_inr ambient dataset_dir batch_size
              num_workers full fd tr va te) as [out Hout]; try done.
  exists out. rewrite Hout.
  destruct (Z.ltb_spec num_workers 0); [lia|].
  destruct (Z.leb_spec batch_size 0); [lia | done].
Qed.
End PastTheFilter.

Lemma dataset_sizes_after_split_witness :
  ∃ out, demo_loaders = inr out ∧
    ∃ full n, (λ _ : string, ret demo_folder) "data"%string = inr full ∧
      n = length (kept_positions class_names full) ∧
      ds_len (sub_dataset (subset (train_dataset out))) = n ∧
      ds_len (train_dataset out) = n - (n + 4) / 5 ∧
      ds_len (val_dataset out) = (n + 4) / 5 / 2 ∧
      ds_len (test_dataset out) = ((n + 4) / 5 + 1) / 2 ∧
      ds_len (train_dataset out) + ds_len (val_dataset out)
        + ds_len (test_dataset out) = n ∧
      1 ≤ ds_len (train_dataset out) ∧ 1 ≤ ds_len (val_dataset out) ∧
      1 ≤ ds_len (test_dataset out) ∧ 6 ≤ n.
Proof.
  destruct demo_loaders as [e|out] eqn:Hout.
  - vm_compute in Hout. discriminate.
  - exists out. split; [done|].
    exact (dataset_sizes_after_split _ _ _ _ _ _ _ out Hout).
Defined.

Lemma tiny_folder_wf : wf_ImageFolder tiny_folder.
Proof. unfold wf_ImageFolder. compute_done. Qed.

Lemma fewer_than_six_samples_raise_ValueError_witness :
  FilteredDataset_init tiny_folder class_names = inr tiny_filtered ∧
  ds_len tiny_filtered < 6 ∧
  ∃ why,
    create_dataloaders (λ _, true) (λ _, ret tiny_folder)
      (λ split image, String.append split (String.append ":" image))
      (0 : @rs_state lcg) "data" default_batch_size default_num_workers
    = inl (ValueError why) ∧
    (ds_len tiny_filtered ≤ 1 → why = TrainSetEmpty).
Proof.
  assert (FilteredDataset_init tiny_folder class_names = inr tiny_filtered)
    as Hinit by reflexivity.
  assert (ds_len tiny_filtered < 6) as Hsmall by (vm_compute; lia).
  split; [exact Hinit|]. split; [exact Hsmall|].
  exact (fewer_than_six_samples_raise_ValueError (λ _, true)
           (λ _, ret tiny_folder)
           (λ split image, String.append split (String.append ":" image))
           (0 : @rs_state lcg) "data" default_batch_size default_num_workers
           tiny_folder tiny_filtered eq_refl eq_refl Hinit Hsmall).
Defined.

Lemma create_dataloaders_raises_witness :
  (∀ full, ret tiny_folder = inr full → wf_ImageFolder full) ∧
  create_dataloaders (String.eqb "data") (λ _, ret tiny_folder)
    (λ split image, String.append split (String.append ":" image))
    (0 : @rs_state lcg) "missing" default_batch_size default_num_workers
  = inl (FileNotFoundError "Dataset directory 'missing' not found.") ∧
  ∀ e,
    create_dataloaders (String.eqb "data") (λ _, ret tiny_folder)
      (λ split image, String.append split (String.append ":" image))
      (0 : @rs_state lcg) "data" default_batch_size default_num_workers
    = inl e →
    ret tiny_folder = inl e ∨ ∃ why, e = ValueError why.
Proof.
  assert (∀ full, ret tiny_folder = inr full → wf_ImageFolder full) as Hwf.
  { intros full [= <-]. exact tiny_folder_wf. }
  split; [exact Hwf|]. split.
  - exact (proj1 (create_dataloaders_raises (String.eqb "data")
                    (λ _, ret tiny_folder)
                    (λ split image, String.append split (String.append ":" image))
                    (0 : @rs_state lcg) "missing" default_batch_size
                    default_num_workers Hwf) eq_refl).
  - exact (proj2 (create_dataloaders_raises (String.eqb "data")
                    (λ _, ret tiny_folder)
                    (λ split image, String.append split (String.append ":" image))
                    (0 : @rs_state lcg) "data" default_batch_size
                    default_num_workers Hwf) eq_refl).
Defined.

Lemma every_class_reaches_train_witness :
  ∃ out, demo_loaders = inr out ∧
    ∀ c, c ∈ targets (sub_dataset (subset (train_dataset out))) →
      2 ≤ count_of c (targets (sub_dataset (subset (train_dataset out)))) ∧
      ∃ p, p ∈ indices (subset (train_dataset out)) ∧
           targets (sub_dataset (subset (train_dataset out))) !! p = Some c.
Proof.
  destruct demo_loaders as [e|out] eqn:Hout.
  - vm_compute in Hout. discriminate.
  - exists out. split; [done|].
    exact (every_class_reaches_train _ _ _ _ _ _ _ out Hout).
Defined.

Lemma populated_filtered_counts (t : nat) :
  t ∈ targets populated_filtered → 11 ≤ count_of t (targets populated_filtered).
Proof.
  rewrite <- elem_of_np_unique.
  change (np_unique (targets populated_filtered)) with [4; 5].
  rewrite !elem_of_cons, elem_of_nil. intros [-> | [-> | []]]; vm_compute; lia.
Qed.

Lemma create_dataloaders_returns_witness :
  FilteredDataset_init populated_folder class_names = inr populated_filtered ∧
  targets populated_filtered ≠ [] ∧
  (∀ t, t ∈ targets populated_filtered →
        11 ≤ count_of t (targets populated_filtered)) ∧
  (0 < default_batch_size)%Z ∧ (0 ≤ default_num_workers)%Z ∧
  ∃ out,
    create_dataloaders (λ _, true) (λ _, ret populated_folder)
      (λ split image, String.append split (String.append ":" image))
      (0 : @rs_state lcg) "data" default_batch_size default_num_workers
    = inr out.
Proof.
  assert (FilteredDataset_init populated_folder class_names
          = inr populated_filtered) as Hinit by reflexivity.
  assert (targets populated_filtered ≠ []) as Hne by discriminate.
  assert (0 < default_batch_size)%Z as Hbs by reflexivity.
  assert (0 ≤ default_num_workers)%Z as Hnw by discriminate.
  split; [exact Hinit|]. split; [exact Hne|].
  split; [exact populated_filtered_counts|].
  split; [exact Hbs|]. split; [exact Hnw|].
  exact (create_dataloaders_returns (λ _, true) (λ _, ret populated_folder)
           (λ split image, String.append split (String.append ":" image))
           (0 : @rs_state lcg) "data" default_batch_size default_num_workers
           populated_folder populated_filtered eq_refl eq_refl Hinit Hne
           populated_filtered_counts Hbs Hnw).
Defined.

(** ** The weights of the sampler *)

Lemma sum_Q_map_ext {A} (f g : A → Q) (l : list A) :
  (∀ x, x ∈ l → (f x == g x)%Q) → (sum_Q (map f l) == sum_Q (map g l))%Q.
Proof.
  induction l as [|x l IH]; intros Hfg; [done|].
  cbn [map]. rewrite !sum_Q_cons.
  rewrite (Hfg x) by by left.
  rewrite IH by (intros y Hy; apply Hfg; by right). done.
Qed.

Lemma sum_Q_map_plus {A} (f g : A → Q) (l : list A) :
  (sum_Q (map (λ x, f x + g x) l) == sum_Q (map f l) + sum_Q (map g l))%Q.
Proof.
  induction l as [|x l IH]; [done|].
  cbn [map]. rewrite !sum_Q_cons, IH. ring.
Qed.

Lemma sum_Q_map_const {A} (q : Q) (l : list A) :
  (sum_Q (map (λ _, q) l) == inject_Z (Z.of_nat (length l)) * q)%Q.
Proof.
  induction l as [|x l IH].
  - change (0 == inject_Z 0 * q)%Q. ring.
  - cbn [map length]. rewrite sum_Q_cons, IH.
    rewrite Nat2Z.inj_succ, <- Z.add_1_l, inject_Z_plus.
    change (inject_Z 1) with 1%Q. ring.
Qed.

Lemma sum_Q_indicator (h : nat → Q) (t : nat) (U : list nat) :
  NoDup U → t ∈ U →
  (sum_Q (map (λ c, if decide (t = c) then h c else 0) U) == h t)%Q.
Proof.
  induction 1 as [|c U Hc Hnd IH]; [by intros ?%elem_of_nil|].
  intros Ht. cbn [map]. rewrite sum_Q_cons.
  destruct (decide (t = c)) as [->|Hne].
  - rewrite (sum_Q_map_ext _ (λ _, 0%Q)).
    + rewrite sum_Q_map_const. ring.
    + intros x Hx. rewrite decide_False; [done|]. by intros ->.
  - rewrite IH; [ring|]. by apply elem_of_cons in Ht as [?|?].
Qed.

(** A sum over labelled positions, taken class by class. *)
Lemma sum_Q_by_class (h : nat → Q) (l U : list nat) :
  NoDup U → (∀ t, t ∈ l → t ∈ U) →
  (sum_Q (map h l)
   == sum_Q (map (λ c, inject_Z (Z.of_nat (count_of c l)) * h c) U))%Q.
Proof.
  intros Hnd. induction l as [|t l IH]; intros HU.
  - rewrite (sum_Q_map_ext
               (λ c, inject_Z (Z.of_nat (count_of c [])) * h c)%Q (λ _, 0%Q)).
    + rewrite sum_Q_map_const. cbn [map]. change (sum_Q []) with 0%Q. ring.
    + intros c _. change (inject_Z 0 * h c == 0)%Q. ring.
  - cbn [map]. rewrite sum_Q_cons.
    rewrite IH by (intros x Hx; apply HU; by right).
    rewrite <- (sum_Q_indicator h t U) at 1 by (try done; apply HU; by left).
    rewrite <- sum_Q_map_plus. apply sum_Q_map_ext.
    intros c _. rewrite count_of_cons.
    destruct (decide (t = c)) as [->|Hne].
    + rewrite Nat2Z.inj_add, inject_Z_plus.
      change (inject_Z (Z.of_nat 1)) with 1%Q. ring.
    + change (0 + count_of c l) with (count_of c l). ring.
Qed.

Lemma sum_Q_near_one {A} (f : A → Q) (ε : Q) (l : list A) :
  (∀ x, x ∈ l → (Qabs (f x - 1) <= ε)%Q) →
  (Qabs (sum_Q (map f l) - inject_Z (Z.of_nat (length l)))
   <= inject_Z (Z.of_nat (length l)) * ε)%Q.
Proof.
  induction l as [|x l IH]; intros Hf.
  - cbn [map length]. change (sum_Q []) with 0%Q.
    change (inject_Z (Z.of_nat 0)) with 0%Q.
    assert (0 - 0 == 0)%Q as -> by ring.
    assert (0 * ε == 0)%Q as -> by ring. done.
  - cbn [map length]. rewrite sum_Q_cons.
    rewrite Nat2Z.inj_succ, <- Z.add_1_l, inject_Z_plus.
    change (inject_Z 1) with 1%Q.
    assert (f x + sum_Q (map f l) - (1 + inject_Z (Z.of_nat (length l)))
            == (f x - 1) + (sum_Q (map f l) - inject_Z (Z.of_nat (length l))))%Q
      as -> by ring.
    assert ((1 + inject_Z (Z.of_nat (length l))) * ε
            == ε + inject_Z (Z.of_nat (length l)) * ε)%Q as -> by ring.
    eapply Qle_trans; [apply Qabs_triangle|].
    apply Qplus_le_compat.
    + apply Hf. by left.
    + apply IH. intros y Hy. apply Hf. by right.
Qed.

(** A float within [2^-53 / n] of [1 / n] is at most 1 when [n >= 2]. *)
Lemma inverse_le_one (n : nat) (v : Q) :
  2 ≤ n → (0 < v)%Q → (Qabs (inject_Z (Z.of_nat n) * v - 1) < half_ulp)%Q →
  (v <= 1)%Q.
Proof.
  intros Hn Hv Hbound. apply Qabs_Qlt_condition in Hbound as [_ Hup].
  assert (2 * v <= inject_Z (Z.of_nat n) * v)%Q as Hle.
  { apply Qmult_le_compat_r; [|by apply Qlt_le_weak].
    change 2%Q with (inject_Z 2). rewrite <- Zle_Qle. lia. }
  unfold half_ulp in Hup. lra.
Qed.

(** X10: for fewer than [2^53] training labels, the weights
    [create_dataloaders] hands to the sampler are valid for
    [torch.multinomial]: each is a positive finite binary64 number, at
    most 1. Their exact sum is within [K * 2^-53] of the number [K] of
    distinct classes among the training labels: up to rounding, every
    class carries the same total weight. *)
Theorem sample_weights_balance_classes (train_targets : list nat) :
  (Z.of_nat (length train_targets) < 2 ^ 53)%Z →
  ∃ w, compute_sample_weights train_targets = inr w ∧
    Forall (λ x, ∃ m e, x = S754_finite false m e ∧
                   (0 < float_value x ∧ float_value x <= 1)%Q) w ∧
    (Qabs (sum_Q (map float_value w)
           - inject_Z (Z.of_nat (length (np_unique train_targets))))
     <= inject_Z (Z.of_nat (length (np_unique train_targets))) * half_ulp)%Q.
Proof.
  intros Hlen. eexists. split; [apply compute_sample_weights_eq|].
  assert (∀ c, c ∈ train_targets →
            ∃ m e, inverse_frequency train_targets c = S754_finite false m e ∧
              (Qabs (inject_Z (Z.of_nat (count_of c train_targets))
                     * float_value (S754_finite false m e) - 1)
               < half_ulp)%Q) as Hinv.
  { intros c Hc. apply float_inverse_error;
      [by apply count_of_pos | by apply count_of_lt_length]. }
  split.
  - apply Forall_forall. intros x (t & -> & Ht)%list_elem_of_fmap.
    destruct (Hinv t Ht) as (m & e & Heq & Hbound).
    exists m, e. split; [done|]. rewrite Heq.
    split; [apply float_value_pos|].
    pose proof (count_of_pos t train_targets Ht) as Hpos.
    destruct (decide (count_of t train_targets = 1)) as [H1|Hne].
    + unfold inverse_frequency in Heq. rewrite H1 in Heq.
      vm_compute in Heq. injection Heq as <- <-. by vm_compute.
    + eapply inverse_le_one; [|apply float_value_pos | exact Hbound]. lia.
  - rewrite map_map.
    rewrite (sum_Q_by_class _ _ (np_unique train_targets))
      by (try apply np_unique_NoDup; intros t; apply elem_of_np_unique).
    apply (sum_Q_near_one
             (λ c, inject_Z (Z.of_nat (count_of c train_targets))
                   * float_value (inverse_frequency train_targets c))%Q).
    intros c Hc. apply (proj1 (elem_of_np_unique _ _)) in Hc.
    destruct (Hinv c Hc) as (m & e & -> & Hbound). by apply Qlt_le_weak.
Qed.

Lemma sample_weights_balance_classes_witness :
  (Z.of_nat (length three_and_one) < 2 ^ 53)%Z ∧
  ∃ w, compute_sample_weights three_and_one = inr w ∧
    Forall (λ x, ∃ m e, x = S754_finite false m e ∧
                   (0 < float_value x ∧ float_value x <= 1)%Q) w ∧
    (Qabs (sum_Q (map float_value w)
           - inject_Z (Z.of_nat (length (np_unique three_and_one))))
     <= inject_Z (Z.of_nat (length (np_unique three_and_one))) * half_ulp)%Q.
Proof.
  assert (Z.of_nat (length three_and_one) < 2 ^ 53)%Z as Hlen by reflexivity.
  split; [exact Hlen|].
  exact (sample_weights_balance_classes three_and_one Hlen).
Defined.

(** ** The weights follow the items of the training dataset *)

Lemma split_view_getitem_inr {Image} (fd : FilteredDataset Image)
    (idxs : list nat) (f : Image → Image) (i : nat) (image : Image) (t : nat) :
  ds_getitem {| subset := {| sub_dataset := fd; indices := idxs |};
                transform := Some f |} (Z.of_nat i) = inr (image, t) →
  ∃ p, idxs !! i = Some p ∧ targets fd !! p = Some t.
Proof.
  cbn [ds_getitem TransformSubset_Dataset]. unfold TransformSubset_getitem.
  cbn [ds_getitem Subset_Dataset subset]. unfold Subset_getitem.
  cbn [indices sub_dataset]. rewrite py_getitem_nat.
  destruct (idxs !! i) as [p|]; [|done]. cbn [bind].
  cbn [ds_getitem FilteredDataset_Dataset]. unfold FilteredDataset_getitem.
  intros Hg. bind_inv Hg as [img lbl] Hfd. injection Hg as _ <-.
  bind_inv Hfd as o Ho. bind_inv Hfd as [im raw] Hds.
  bind_inv Hfd as label Hl. injection Hfd as _ <-.
  rewrite py_getitem_nat in Hl.
  destruct (targets fd !! p) as [t|] eqn:Ht; [|done].
  injection Hl as <-. by exists p.
Qed.

Section WeightsFollowItems.
Context {Image : Type} `{RandomState}.
Context (os_path_exists : string → bool).
Context (datasets_ImageFolder : string → result (ImageFolder Image)).
Context (transform_table : string → Image → Image).

(** X11: the sampler's weights are aligned with the training dataset:
    when [train_dataset[i]] returns the label [t], the weight at position
    [i] is [1.0 / n], the binary64 quotient, [n] the number of positions
    of the training dataset that carry the label [t]. *)
Theorem sampler_weights_follow_items (ambient : rs_state)
    (dataset_dir : string) (batch_size num_workers : Z) (out : Loaders)
    (i : nat) (image : Image) (t : nat) :
  create_dataloaders os_path_exists datasets_ImageFolder transform_table
    ambient dataset_dir batch_size num_workers = inr out →
  ds_getitem (train_dataset out) (Z.of_nat i) = inr (image, t) →
  ∃ s, dl_sampler (train_loader out) = Weighted s ∧
    weights s !! i =
      Some (float_div float_one
              (float_of_nat
                 (count_class (targets (sub_dataset (subset (train_dataset out))))
                    (indices (subset (train_dataset out))) t))).
Proof.
  intros (full & fd & tr & va & te & tt & w & _ & _ & _ & Htt & Hw
          & Htrain & _ & _ & -> & _)%create_dataloaders_inr.
  rewrite Htrain. intros (p & Hp & Ht)%split_view_getitem_inr.
  cbn [dl_sampler subset sub_dataset indices].
  eexists. split; [done|]. cbn [weights].
  rewrite compute_sample_weights_eq in Hw. injection Hw as <-.
  rewrite <- (count_of_np_index _ _ _ t Htt).
  apply np_index_inr in Htt.
  destruct (Forall2_lookup_l _ _ _ _ _ Htt Hp) as (t' & Ht' & Hlook).
  rewrite list_lookup_fmap, Ht'. cbn [fmap option_fmap option_map].
  unfold inverse_frequency. congruence.
Qed.
End WeightsFollowItems.

Lemma sampler_weights_follow_items_witness :
  ∃ out image t, demo_loaders = inr out ∧
    ds_getitem (train_dataset out) (Z.of_nat 0) = inr (image, t) ∧
    ∃ s, dl_sampler (train_loader out) = Weighted s ∧
      weights s !! 0 =
        Some (float_div float_one
                (float_of_nat
                   (count_class
                      (targets (sub_dataset (subset (train_dataset out))))
                      (indices (subset (train_dataset out))) t))).
Proof.
  destruct demo_loaders as [e|out] eqn:Hout.
  { vm_compute in Hout. discriminate. }
  destruct (ds_getitem (train_dataset out) (Z.of_nat 0)) as [e|[image t]] eqn:Hget.
  { exfalso. vm_compute in Hout. injection Hout as <-.
    vm_compute in Hget. discriminate. }
  exists out, image, t. split; [done|]. split; [done|].
  exact (sampler_weights_follow_items _ _ _ _ _ _ _ out 0 image t Hout Hget).
Defined.

(** ** The filter reads labels only *)

Lemma filter_and_remap_labels_only {Image1 Image2} (ds1 : ImageFolder Image1)
    (ds2 : ImageFolder Image2) (L : list string)
    (l1 l2 : list (string * nat)) (k : nat) :
  classes ds1 = classes ds2 → map snd l1 = map snd l2 →
  map fst (filter (λ it, in_catalog L ds1 it.2) (enumerate_from k l1))
  = map fst (filter (λ it, in_catalog L ds2 it.2) (enumerate_from k l2)) ∧
  map (λ it, remapped L ds1 it.2)
    (filter (λ it, in_catalog L ds1 it.2) (enumerate_from k l1))
  = map (λ it, remapped L ds2 it.2)
      (filter (λ it, in_catalog L ds2 it.2) (enumerate_from k l2)).
Proof.
  intros Hcls. revert l2 k.
  induction l1 as [|[path1 label] l1 IH]; intros [|[path2 label2] l2] k Hl;
    try done.
  cbn [map snd] in Hl. injection Hl as <- Hl.
  destruct (IH l2 (S k) Hl) as [IH1 IH2].
  rewrite !enumerate_from_cons, !filter_cons. cbn [snd].
  assert (in_catalog L ds1 (path1, label) = in_catalog L ds2 (path2, label))
    as Hkeep by (unfold in_catalog, raw_class; cbn [snd]; by rewrite Hcls).
  assert (remapped L ds1 (path1, label) = remapped L ds2 (path2, label))
    as Hremap by (unfold remapped, raw_class; cbn [snd]; by rewrite Hcls).
  rewrite Hkeep. case_decide; cbn [map fst snd]; [|done].
  by rewrite IH1, IH2, Hremap.
Qed.

Lemma wf_ImageFolder_labels {Image} (ds : ImageFolder Image) :
  wf_ImageFolder ds ↔
  Forall (λ label, label < length (classes ds)) (map snd (samples ds)).
Proof. unfold wf_ImageFolder. by rewrite Forall_fmap. Qed.

(** X12: [FilteredDataset.__init__] reads the class names and the labels
    of the corpus and nothing else: two corpora with the same classes and
    the same sequence of labels, whatever their paths, their images and
    their loaders, get the same [filtered_indices] and [targets], or fail
    alike. No image is loaded while the datasets are set up. *)
Theorem filtering_reads_labels_only {Image1 Image2} (ds1 : ImageFolder Image1)
    (ds2 : ImageFolder Image2) (L : list string) :
  classes ds1 = classes ds2 →
  map snd (samples ds1) = map snd (samples ds2) →
  match FilteredDataset_init ds1 L, FilteredDataset_init ds2 L with
  | inr fd1, inr fd2 =>
      filtered_indices fd1 = filtered_indices fd2 ∧ targets fd1 = targets fd2
  | inl e1, inl e2 => e1 = e2
  | _, _ => False
  end.
Proof.
  intros Hcls Hlabels.
  assert (wf_ImageFolder ds1 ↔ wf_ImageFolder ds2) as Hwf.
  { rewrite !wf_ImageFolder_labels. by rewrite Hcls, Hlabels. }
  destruct (decide (wf_ImageFolder ds1)) as [Hwf1|Hwf1].
  - rewrite !FilteredDataset_init_wf by tauto. cbn.
    rewrite !enumerate_from_0. by apply filter_and_remap_labels_only.
  - rewrite !FilteredDataset_init_not_wf by tauto. done.
Qed.

Lemma filtering_reads_labels_only_witness :
  classes demo_folder = classes unreadable_folder ∧
  map snd (samples demo_folder) = map snd (samples unreadable_folder) ∧
  match FilteredDataset_init demo_folder class_names,
        FilteredDataset_init unreadable_folder class_names with
  | inr fd1, inr fd2 =>
      filtered_indices fd1 = filtered_indices fd2 ∧ targets fd1 = targets fd2
  | inl e1, inl e2 => e1 = e2
  | _, _ => False
  end.
Proof.
  assert (classes demo_folder = classes unreadable_folder) as Hcls
    by reflexivity.
  assert (map snd (samples demo_folder) = map snd (samples unreadable_folder))
    as Hlabels by reflexivity.
  split; [exact Hcls|]. split; [exact Hlabels|].
  exact (filtering_reads_labels_only demo_folder unreadable_folder class_names
           Hcls Hlabels).
Defined.

(** ** The views partition the kept samples *)

Section KeptSamples.
Context {Image : Type} `{RandomState}.
Context (os_path_exists : string → bool).
Context (datasets_ImageFolder : string → result (ImageFolder Image)).
Context (transform_table : string → Image → Image).

(** X13: the three datasets [create_dataloaders] returns share out the
    samples of the corpus that belong to the working classes: the corpus
    positions they serve, taken together, are exactly the positions of
    those samples, each once. No image is in two of the datasets or twice
    in one, and none of the working classes' images is left out. *)
Theorem views_partition_the_kept_samples (ambient : rs_state)
    (dataset_dir : string) (batch_size num_workers : Z) (out : Loaders) :
  create_dataloaders os_path_exists datasets_ImageFolder transform_table
    ambient dataset_dir batch_size num_workers = inr out →
  ∃ full a b c, datasets_ImageFolder dataset_dir = inr full ∧
    corpus_positions (train_dataset out) = inr a ∧
    corpus_positions (val_dataset out) = inr b ∧
    corpus_positions (test_dataset out) = inr c ∧
    a ++ b ++ c ≡ₚ kept_positions class_names full ∧
    NoDup (a ++ b ++ c).
Proof.
  intros (full & fd & tr & va & te & tt & w & Hfull & Hinit & Hsplit & _ & _
          & -> & -> & -> & _)%create_dataloaders_inr.
  unfold corpus_positions. cbn [subset sub_dataset indices].
  apply stratified_split_perm in Hsplit.
  cbn [ds_len FilteredDataset_Dataset] in Hsplit.
  unfold FilteredDataset_len in Hsplit.
  assert (∀ p, p ∈ tr ++ va ++ te → p < length (filtered_indices fd)) as Hlt.
  { intros p Hp. rewrite Hsplit in Hp. apply elem_of_seq in Hp. lia. }
  destruct (np_index_total (filtered_indices fd) tr) as [a Ha].
  { intros p Hp. apply Hlt. rewrite !elem_of_app. auto. }
  destruct (np_index_total (filtered_indices fd) va) as [b Hb].
  { intros p Hp. apply Hlt. rewrite !elem_of_app. auto. }
  destruct (np_index_total (filtered_indices fd) te) as [c Hc].
  { intros p Hp. apply Hlt. rewrite !elem_of_app. auto. }
  exists full, a, b, c. split_and!; try done.
  - apply np_index_nth in Ha, Hb, Hc. subst a b c.
    rewrite <- !map_app, Hsplit, map_nth_arange.
    by rewrite (FilteredDataset_init_kept _ _ _ Hinit).
  - assert (a ++ b ++ c ≡ₚ kept_positions class_names full) as ->.
    { apply np_index_nth in Ha, Hb, Hc. subst a b c.
      rewrite <- !map_app, Hsplit, map_nth_arange.
      by rewrite (FilteredDataset_init_kept _ _ _ Hinit). }
    apply NoDup_filter, NoDup_seq.
Qed.
End KeptSamples.

Lemma views_partition_the_kept_samples_witness :
  ∃ out, demo_loaders = inr out ∧
    ∃ full a b c, (λ _ : string, ret demo_folder) "data"%string = inr full ∧
      corpus_positions (train_dataset out) = inr a ∧
      corpus_positions (val_dataset out) = inr b ∧
      corpus_positions (test_dataset out) = inr c ∧
      a ++ b ++ c ≡ₚ kept_positions class_names full ∧
      NoDup (a ++ b ++ c).
Proof.
  destruct demo_loaders as [e|out] eqn:Hout.
  - vm_compute in Hout. discriminate.
  - exists out. split; [done|].
    exact (views_partition_the_kept_samples _ _ _ _ _ _ _ out Hout).
Defined.

(** ** A corpus of working classes only *)

Lemma py_getitem_in_range {A} (l : list A) (i : Z) :
  (- Z.of_nat (length l) ≤ i < Z.of_nat (length l))%Z →
  ∃ j, j < length l ∧
    ∀ B (l' : list B), length l' = length l →
      py_getitem l' i =
        match l' !! j with Some x => inr x | None => inl IndexError end.
Proof.
  intros Hi.
  exists (Z.to_nat (if (i <? 0)%Z then i + Z.of_nat (length l) else i)%Z).
  split; [destruct (Z.ltb_spec i 0); lia|].
  intros B l' Hlen. unfold py_getitem, raise, ret. rewrite Hlen.
  destruct (Z.ltb_spec i 0); zcases.
Qed.

Lemma enumerate_from_fst {A} (k : nat) (l : list A) :
  map fst (enumerate_from k l) = seq k (length l).
Proof.
  revert k. induction l as [|x l IH]; intros k; [done|].
  rewrite enumerate_from_cons. cbn [map fst length seq]. by rewrite IH.
Qed.

Lemma enumerate_from_snd {A} (k : nat) (l : list A) :
  map snd (enumerate_from k l) = l.
Proof.
  revert k. induction l as [|x l IH]; intros k; [done|].
  rewrite enumerate_from_cons. cbn [map snd]. by rewrite IH.
Qed.

Lemma make_class_to_idx_NoDup (L : list string) (c : string) (i : nat) :
  NoDup L → L !! i = Some c → make_class_to_idx L !! c = Some i.
Proof.
  intros Hnd Hi. apply make_class_to_idx_lookup. split; [done|].
  intros j Hj Hc. pose proof (NoDup_lookup _ _ _ _ Hnd Hi Hc). lia.
Qed.

(** Filtering a corpus by its own list of classes keeps every sample and
    every label. *)
Lemma FilteredDataset_init_own_classes {Image} (ds : ImageFolder Image) :
  wf_ImageFolder ds → NoDup (classes ds) →
  FilteredDataset_init ds (classes ds) =
    inr {| dataset := ds; class_to_idx := make_class_to_idx (classes ds);
           filtered_indices := seq 0 (length (samples ds));
           targets := map snd (samples ds) |}.
Proof.
  intros Hwf Hnd. rewrite FilteredDataset_init_wf by done.
  assert (filter (λ it : nat * (string * nat), in_catalog (classes ds) ds it.2)
            (enumerate (samples ds)) = enumerate (samples ds)) as ->.
  { apply filter_all. intros [i s] Hin. cbn [snd].
    rewrite enumerate_from_0 in Hin. apply enumerate_from_elem in Hin as [_ Hs].
    apply list_elem_of_lookup_2 in Hs.
    unfold wf_ImageFolder in Hwf. rewrite Forall_forall in Hwf.
    apply Hwf, lookup_lt_is_Some_2 in Hs as [c Hc].
    unfold in_catalog, raw_class. rewrite Hc.
    apply bool_decide_pack. by eapply list_elem_of_lookup_2. }
  do 2 f_equal.
  - rewrite enumerate_from_0. apply enumerate_from_fst.
  - rewrite <- (enumerate_from_snd 0 (samples ds)) at 2.
    rewrite enumerate_from_0, map_map. apply map_ext_in.
    intros [i s] Hin%list_elem_of_In. cbn [snd].
    apply enumerate_from_elem in Hin as [_ Hs].
    apply list_elem_of_lookup_2 in Hs.
    unfold wf_ImageFolder in Hwf. rewrite Forall_forall in Hwf.
    apply Hwf, lookup_lt_is_Some_2 in Hs as [c Hc].
    unfold remapped, raw_class. rewrite Hc. cbn.
    by rewrite (make_class_to_idx_NoDup _ _ _ Hnd Hc).
Qed.

(** X14: when [class_names] is the corpus's own list of classes,
    [FilteredDataset] is transparent: it has the length of the corpus,
    and [fd[idx]] is [dataset[idx]], image and label, for every [idx]:
    negative indices count from the end and indices out of range raise
    [IndexError] in both. *)
Theorem FilteredDataset_transparent {Image} (ds : ImageFolder Image) :
  wf_ImageFolder ds → NoDup (classes ds) →
  ∃ fd, FilteredDataset_init ds (classes ds) = inr fd ∧
    ds_len fd = ds_len ds ∧
    ∀ idx, ds_getitem fd idx = ds_getitem ds idx.
Proof.
  intros Hwf Hnd. eexists. split; [by apply FilteredDataset_init_own_classes|].
  split.
  { cbn. unfold FilteredDataset_len. cbn. by rewrite length_seq. }
  intros idx. cbn [ds_getitem FilteredDataset_Dataset ImageFolder_Dataset].
  unfold FilteredDataset_getitem, ImageFolder_getitem.
  cbn [filtered_indices targets dataset].
  set (n := length (samples ds)).
  destruct (decide (- Z.of_nat n ≤ idx < Z.of_nat n)%Z) as [Hin|Hout].
  - destruct (py_getitem_in_range (samples ds) idx Hin) as (j & Hj & Hget).
    rewrite (Hget _ (seq 0 n)) by by rewrite length_seq.
    rewrite (Hget _ (map snd (samples ds))) by by rewrite length_map.
    rewrite (Hget _ (samples ds)) by done.
    rewrite lookup_seq_lt by done. rewrite list_lookup_fmap.
    destruct (lookup_lt_is_Some_2 (samples ds) j Hj) as [[path target] Hs].
    rewrite Hs. cbn [bind fmap option_fmap option_map].
    cbn [ds_getitem ImageFolder_Dataset]. unfold ImageFolder_getitem.
    change (0 + j) with j. rewrite py_getitem_nat, Hs. cbn [bind snd].
    by destruct (loader ds path).
  - rewrite (py_getitem_out_of_range (seq 0 n)) by (rewrite length_seq; lia).
    rewrite (py_getitem_out_of_range (samples ds)) by (fold n; lia).
    done.
Qed.

Lemma demo_folder_classes_NoDup : NoDup (classes demo_folder).
Proof. compute_done. Qed.

Lemma FilteredDataset_transparent_witness :
  wf_ImageFolder demo_folder ∧ NoDup (classes demo_folder) ∧
  ∃ fd, FilteredDataset_init demo_folder (classes demo_folder) = inr fd ∧
    ds_len fd = ds_len demo_folder ∧
    ∀ idx, ds_getitem fd idx = ds_getitem demo_folder idx.
Proof.
  split; [exact demo_folder_wf|]. split; [exact demo_folder_classes_NoDup|].
  exact (FilteredDataset_transparent demo_folder demo_folder_wf
           demo_folder_classes_NoDup).
Defined.

(** ** Every class is split in proportion *)

Lemma share_of_nat (k part whole : nat) :
  share (Z.of_nat k) (Z.of_nat part) (Z.of_nat whole)
  = Z.of_nat (k * part / whole).
Proof. unfold share. by rewrite Nat2Z.inj_div, Nat2Z.inj_mul. Qed.

Lemma proportional_share (k part whole x : nat) :
  (share (Z.of_nat k) (Z.of_nat part) (Z.of_nat whole) ≤ Z.of_nat x
   ≤ share (Z.of_nat k) (Z.of_nat part) (Z.of_nat whole) + 1)%Z →
  proportional k part whole x.
Proof. rewrite share_of_nat. unfold proportional. lia. Qed.

Section Proportion.
Context `{RandomState}.

Lemma stratified_split_in_proportion (ambient : rs_state) (n : nat)
    (targets train_idx val_idx test_idx : list nat) :
  stratified_split ambient n targets = inr (train_idx, val_idx, test_idx) →
  split_in_proportion targets train_idx val_idx test_idx.
Proof.
  intros Hsplit c Hc.
  pose proof (stratified_split_first _ _ _ _ _ _ Hsplit) as (Hlen & _ & Hshare).
  destruct (stratified_split_inr _ _ _ _ _ _ Hsplit)
    as (temp_idx & targets_temp & H1 & Ht & H2).
  pose proof (train_test_split_length _ _ _ _ _ _ _ H1) as (Ha1 & _ & _).
  rewrite length_seq, Qceiling_fifth in Ha1.
  split.
  - apply proportional_share. rewrite Hlen, Ha1. by apply Hshare.
  - pose proof (train_test_split_length _ _ _ _ _ _ _ H2) as (Ha2 & Hsum2 & _).
    apply train_test_split_spec in H2
      as (Hlen2 & n2 & pos_val & pos_test & Hn2 & Hn2eq & Hp2 & -> & -> & Hcnt2).
    rewrite !length_map in *.
    assert (∀ q, q ∈ pos_val ++ pos_test → q < length temp_idx) as Hlt2.
    { intros q Hq. rewrite Hp2 in Hq. apply elem_of_seq in Hq. lia. }
    rewrite !(count_class_reindex targets temp_idx targets_temp) by
      (try done; intros q Hq; apply Hlt2, elem_of_app; auto).
    assert (count_class targets_temp pos_val c + count_class targets_temp pos_test c
            = count_of c targets_temp) as ->.
    { rewrite <- count_class_app, (count_class_perm _ _ _ _ Hp2).
      rewrite <- Hlen2. apply count_class_arange. }
    rewrite Hsum2, <- Hlen2.
    apply proportional_share. rewrite Ha2, <- Hn2eq.
    destruct (decide (c ∈ targets_temp)) as [Hc2|Hc2].
    + rewrite (Hcnt2 c Hc2). apply train_count_bounds; [done | lia].
    + assert (count_of c targets_temp = 0) as H0.
      { destruct (count_of c targets_temp) eqn:Hcount; [done|].
        destruct Hc2. apply count_of_elem. lia. }
      assert (count_class targets_temp pos_val c = 0) as ->.
      { pose proof (count_class_app targets_temp pos_val pos_test c) as Happ.
        rewrite (count_class_perm _ _ _ _ Hp2), <- Hlen2, count_class_arange in Happ.
        lia. }
      rewrite H0. unfold share. change (Z.of_nat 0) with 0%Z.
      rewrite Z.mul_0_l. change (0 `div` Z.of_nat (length targets_temp))%Z with 0%Z.
      lia.
Qed.
End Proportion.

Section ProportionOfLoaders.
Context {Image : Type} `{RandomState}.
Context (os_path_exists : string → bool).
Context (datasets_ImageFolder : string → result (ImageFolder Image)).
Context (transform_table : string → Image → Image).

(** X15: [create_dataloaders] splits every class in proportion, up to one
    sample. Of the [n_c] samples of a class among the [n] of the filtered
    dataset, the training dataset holds [floor(n_c * len(train) / n)] or
    one more; and of the [h_c] samples of the class that are held out,
    the validation dataset holds
    [floor(h_c * len(val) / (len(val) + len(test)))] or one more, the
    test dataset the others. *)
Theorem classes_split_in_proportion (ambient : rs_state) (dataset_dir : string)
    (batch_size num_workers : Z) (out : Loaders) :
  create_dataloaders os_path_exists datasets_ImageFolder transform_table
    ambient dataset_dir batch_size num_workers = inr out →
  split_in_proportion (targets (sub_dataset (subset (train_dataset out))))
    (indices (subset (train_dataset out)))
    (indices (subset (val_dataset out)))
    (indices (subset (test_dataset out))).
Proof.
  intros (full & fd & tr & va & te & tt & w & _ & _ & Hsplit & _ & _
          & -> & -> & -> & _)%create_dataloaders_inr.
  cbn [subset sub_dataset indices].
  by eapply stratified_split_in_proportion.
Qed.
End ProportionOfLoaders.

Lemma classes_split_in_proportion_witness :
  ∃ out, demo_loaders = inr out ∧
    split_in_proportion (targets (sub_dataset (subset (train_dataset out))))
      (indices (subset (train_dataset out)))
      (indices (subset (val_dataset out)))
      (indices (subset (test_dataset out))).
Proof.
  destruct demo_loaders as [e|out] eqn:Hout.
  - vm_compute in Hout. discriminate.
  - exists out. split; [done|].
    exact (classes_split_in_proportion _ _ _ _ _ _ _ out Hout).
Defined.
